(** * Garment-Pattern-Estimation: pattern tensor codec, dataset layer and
      equilibrium detection

    A shallow embedding of
      - [src/nn/pattern_converter.py]  (module [PatternConverter]),
      - [src/nn/data.py]               (module [Data]),
      - [src/packages/mayaqltools/mayascene.py], [MayaGarment.is_static]
                                       (module [MayaScene]),
    followed by the properties established about them.

    Conventions.
      - numpy / torch numbers are exact rationals ([Q]); tolerance tests are
        the [isclose] formula [|a - b| <= atol + rtol * |b|] evaluated exactly.
        The one place where the rounding of floats is kept is the size of a
        data split, [int(len * percent / 100)], which goes through the
        rounding function of the runtime interface.
      - A Python exception is a value [Raise e] of the [result] type; [Ok] is
        normal return.
      - Python dictionaries keyed by strings are [gmap string _].
      - Library code that is not part of the repository (scipy rotations,
        torch's random number generator, [random_split], the argument checks
        of [DataLoader]) is an interface (a type class) the repository code
        is parameterised by. *)

From Stdlib Require Import QArith Qabs Qround Qminmax ZArith List String Lia Lqa Sorted.
From stdpp Require Import base option list gmap strings pretty.
Import ListNotations.

Local Open Scope Z_scope.
Local Open Scope nat_scope.

#[global] Set Warnings "-register-all".

(* ===================================================================== *)
(** ** Python-level plumbing: exceptions, truthiness, indexing            *)
(* ===================================================================== *)

Inductive error : Type :=
  | EmptyPanelError
  | InvalidPatternDefError
  | NotImplementedError
  | ValueError
  | IndexError
  | KeyError
  | TypeError
  | RuntimeError
  | OverflowError.

Inductive result (A : Type) : Type :=
  | Ok (a : A)
  | Raise (e : error).
Arguments Ok {A} a.
Arguments Raise {A} e.

Definition rbind {A B} (r : result A) (k : A -> result B) : result B :=
  match r with
  | Ok a => k a
  | Raise e => Raise e
  end.

#[global] Instance result_bind : MBind result := fun A B k r => rbind r k.
#[global] Instance result_ret : MRet result := @Ok.

(** [[f(x) for x in l]], stopping at the first exception. *)
Fixpoint rmap {A B} (f : A -> result B) (l : list A) : result (list B) :=
  match l with
  | [] => Ok []
  | x :: rest => y ← f x; ys ← rmap f rest; Ok (y :: ys)
  end.

(** [d[key]] on a dictionary: [KeyError] when the key is absent. *)
Definition getitem {V} (d : gmap string V) (key : string) : result V :=
  match d !! key with
  | Some v => Ok v
  | None => Raise KeyError
  end.

(** [l[i]] on a Python list or array, negative indices counting from the end. *)
Definition py_getitem {A} (l : list A) (i : Z) : result A :=
  let n := Z.of_nat (length l) in
  let j := if (i <? 0)%Z then (i + n)%Z else i in
  if ((j <? 0) || (n <=? j))%Z then Raise IndexError
  else match l !! Z.to_nat j with
       | Some x => Ok x
       | None => Raise IndexError
       end.

(** [l.index(x)]: position of the first occurrence, [ValueError] if none. *)
Fixpoint list_index (x : string) (l : list string) : result nat :=
  match l with
  | [] => Raise ValueError
  | y :: rest =>
      if String.eqb x y then Ok 0
      else i ← list_index x rest; Ok (S i)
  end.

(* ===================================================================== *)
(** ** Numeric helpers: numpy / torch closeness tests                     *)
(* ===================================================================== *)

Module Numeric.

(** Default tolerances of [np.isclose] and [torch.isclose]. *)
Definition default_rtol : Q := 1 # 100000.
Definition default_atol : Q := 1 # 100000000.

(** [isclose(a, b, rtol, atol)]: [|a - b| <= atol + rtol * |b|]. *)
Definition isclose (rtol atol a b : Q) : bool :=
  Qle_bool (Qabs (a - b)) (atol + rtol * Qabs b).

(** [all(isclose(v, 0, rtol, atol))] on a vector compared with zeros. *)
Definition all_close_zero (rtol atol : Q) (v : list Q) : bool :=
  forallb (fun a => isclose rtol atol a 0) v.

(** [all(isclose(v, w, rtol, atol))] on two vectors of the same length. *)
Definition all_close (rtol atol : Q) (v w : list Q) : bool :=
  forallb (fun '(a, b) => isclose rtol atol a b) (combine v w).

(** Element-wise binary operation on vectors of the same shape. *)
Definition vec2 (f : Q -> Q -> Q) (v w : list Q) : list Q := zip_with f v w.

(** [int(x)] on a float: truncation toward zero. *)
Definition py_int (x : Q) : Z :=
  if Qle_bool 0 x then Qfloor x else Qceiling x.

End Numeric.

(* ===================================================================== *)
(** ** src/nn/pattern_converter.py                                        *)
(* ===================================================================== *)

Module PatternConverter.
Import Numeric.

(** *** Data model *)

(** One row of a panel's edge sequence: the 4-component edge vector
    [[dx, dy, cx, cy]] ([edge_info[:2]] is the displacement,
    [edge_info[2:4]] the curvature control point). *)
Record edge_row : Type := { dx : Q; dy : Q; cx : Q; cy : Q }.

Definition zero_row : edge_row := {| dx := 0; dy := 0; cx := 0; cy := 0 |}.
Definition row_components (r : edge_row) : list Q := [dx r; dy r; cx r; cy r].

Abbreviation vertex := (Q * Q)%type.
Definition vadd (v w : vertex) : vertex := ((fst v + fst w)%Q, (snd v + snd w)%Q).

(** Edge dictionary: [{'endpoints': [vstart, vend], 'curvature': [..]}],
    the curvature key being optional. *)
Record edge : Type := { endpoints : nat * nat; curvature : option (Q * Q) }.

Record panel : Type := {
  vertices : list vertex;
  edges : list edge;
  rotation : list Q;
  translation : list Q }.

(** One side of a stitch: [{'panel': name, 'edge': id}]. *)
Record side : Type := { side_panel : string; side_edge : Z }.
Abbreviation stitch := (side * side)%type.

(** [self.pattern] together with [self.name]; [panel_order] is the list
    [self.panel_order()] returns and [pattern_from_tensors] stores. *)
Record pattern : Type := {
  name : string;
  panels : gmap string panel;
  panel_order : list string;
  stitches : list stitch }.

(** A panels-by-edges tensor of edge rows; [dim1] is [shape[1]]. *)
Record tensor3 : Type := { dim1 : nat; slots : list (list edge_row) }.

(** What the functions print. *)
Inductive message : Type :=
  | WarnNotClosed (panel_name : string)
  | WarnNoStitches.

(** Code outside the repository's [src/]: the panel template of
    [pattern.core], the universal-translation helper of the pattern
    wrappers, and scipy's rotation conversions.  The conversions are total
    functions here, whereas scipy's [from_quat] raises [ValueError] on a
    quaternion of zero norm or of the wrong shape: a statement about
    a call given a rotation therefore says what holds when scipy accepts the
    rotation, as it does for those the encoder itself produced. *)
Class External : Type := {
  panel_spec_template : panel;
  (** [_panel_universal_transtation]: (3D translation, 2D origin shift) *)
  panel_universal_translation : panel -> list Q * list Q;
  (** [from_euler('xyz', r, degrees=True).as_quat()] *)
  euler_as_quat : list Q -> list Q;
  (** [from_quat(q).as_euler('xyz', degrees=True)] *)
  quat_as_euler : list Q -> list Q;
  (** [from_euler('xyz', r, degrees=True).as_matrix().dot(v)] *)
  euler_rotate : list Q -> list Q -> list Q }.

(** Modelled from the spec: [_edge_as_vector] is defined outside [src/];
    each edge becomes the vector of its additive 2D endpoint displacement
    followed by its curvature control offset, (0,0) for a straight edge. *)
Definition _edge_as_vector (verts : list vertex) (e : edge) : result edge_row :=
  match verts !! fst (endpoints e), verts !! snd (endpoints e) with
  | Some v0, Some v1 =>
      let c := default (0, 0)%Q (curvature e) in
      Ok {| dx := fst v1 - fst v0; dy := snd v1 - snd v0;
            cx := fst c; cy := snd c |}
  | _, _ => Raise IndexError
  end.

(** *** Encoding *)

Definition panel_as_numeric `{External} (pat : pattern) (panel_name : string)
    (pad_to_len : option nat)
  : result (list edge_row * list Q * list Q) :=
  pnl ← getitem (panels pat) panel_name;
  edge_sequence ← rmap (_edge_as_vector (vertices pnl)) (edges pnl);
  edge_sequence ←
    match pad_to_len with
    | Some n =>
        if n <? length edge_sequence then Raise ValueError
        else if length edge_sequence <? n then
          match edge_sequence with
          | [] => Raise IndexError           (* zeros_like(edge_sequence[0]) *)
          | _ :: _ => Ok (edge_sequence ++ repeat zero_row (n - length edge_sequence))
          end
        else Ok edge_sequence
    | None => Ok edge_sequence
    end;
  let transl := fst (panel_universal_translation pnl) in
  let rotation_representation := euler_as_quat (rotation pnl) in
  match edge_sequence with
  | [] => Raise ValueError                   (* np.stack of an empty list *)
  | _ :: _ => Ok (edge_sequence, rotation_representation, transl)
  end.

(** The loop over [self.pattern['stitches']] writing pattern-level edge
    ids into the columns of the zero-initialised index array. *)
Fixpoint fill_stitches (order : list string) (max_len : nat) (idx : nat)
    (sts : list stitch) (stitches_indicies : list (Z * Z))
  : result (list (Z * Z)) :=
  match sts with
  | [] => Ok stitches_indicies
  | (side0, side1) :: rest =>
      if length stitches_indicies <=? idx then Raise IndexError else
      panel_id0 ← list_index (side_panel side0) order;
      let id0 := (Z.of_nat panel_id0 * Z.of_nat max_len + side_edge side0)%Z in
      panel_id1 ← list_index (side_panel side1) order;
      let id1 := (Z.of_nat panel_id1 * Z.of_nat max_len + side_edge side1)%Z in
      fill_stitches order max_len (S idx) rest (<[idx := (id0, id1)]> stitches_indicies)
  end.

(** The tuple [pattern_as_tensors] returns with placement and stitches
    requested (stitch tags are not part of this model). *)
Record pattern_tensors : Type := {
  t_panel_seqs : tensor3;
  t_panel_lens : list nat;
  t_num_panels : nat;
  t_rotations : list (list Q);
  t_translations : list (list Q);
  t_stitches : list (Z * Z);          (* the columns of the 2-by-S array *)
  t_num_stitches : nat }.

Definition pattern_as_tensors `{External} (pat : pattern)
    (pad_panels_to_len pad_panels_num pad_stitches_num : option nat)
  : result pattern_tensors :=
  let order := panel_order pat in
  panel_lens ← rmap (fun nm => pnl ← getitem (panels pat) nm; Ok (length (edges pnl))) order;
  max_len ←
    match pad_panels_to_len with
    | Some l => Ok l
    | None => match panel_lens with
              | [] => Raise ValueError       (* max() of an empty list *)
              | _ :: _ => Ok (foldr Nat.max 0 panel_lens)
              end
    end;
  numerics ← rmap (fun nm => panel_as_numeric pat nm (Some max_len)) order;
  let panel_seqs := map (fun x => fst (fst x)) numerics in
  let panel_rotations := map (fun x => snd (fst x)) numerics in
  let panel_translations := map snd numerics in
  '(panel_seqs, panel_rotations, panel_translations, panel_lens) ←
    match pad_panels_num with
    | Some n =>
        if length panel_seqs <? n then
          match panel_seqs, panel_rotations, panel_translations with
          | s0 :: _, r0 :: _, t0 :: _ =>
              let k := n - length panel_seqs in
              Ok (panel_seqs ++ repeat (map (fun _ => zero_row) s0) k,
                  panel_rotations ++ repeat (map (fun _ => 0%Q) r0) k,
                  panel_translations ++ repeat (map (fun _ => 0%Q) t0) k,
                  panel_lens ++ repeat 0 k)
          | _, _, _ => Raise IndexError      (* zeros_like(panel_seqs[0]) *)
          end
        else Ok (panel_seqs, panel_rotations, panel_translations, panel_lens)
    | None => Ok (panel_seqs, panel_rotations, panel_translations, panel_lens)
    end;
  let stitches_num := default (length (stitches pat)) pad_stitches_num in
  if stitches_num <? length (stitches pat) then Raise ValueError else
  stitches_indicies ←
    fill_stitches order max_len 0 (stitches pat) (repeat (0, 0)%Z stitches_num);
  match panel_seqs with
  | [] => Raise ValueError                   (* np.stack of an empty list *)
  | _ :: _ =>
      Ok {| t_panel_seqs := {| dim1 := max_len; slots := panel_seqs |};
            t_panel_lens := panel_lens;
            t_num_panels := size (panels pat);
            t_rotations := panel_rotations;
            t_translations := panel_translations;
            t_stitches := stitches_indicies;
            t_num_stitches := length (stitches pat) |}
  end.

(** *** Decoding *)

(** A row all of whose components are within [atol] of zero:
    [np.all(np.isclose(row, 0, atol=atol))]. *)
Definition is_padding (atol : Q) (r : edge_row) : bool :=
  all_close_zero default_rtol atol (row_components r).

(** [edge_sequence[~np.all(np.isclose(edge_sequence, 0, atol=1.5), axis=1)]] *)
Definition strip_padding (edge_sequence : list edge_row) : list edge_row :=
  filter (fun r => is_padding 1.5 r = false) edge_sequence.

Definition _edge_dict (vstart vend : nat) (curv : Q * Q) : edge :=
  {| endpoints := (vstart, vend);
     curvature :=
       if all_close_zero default_rtol (1 # 100) [fst curv; snd curv]
       then None else Some curv |}.

(** The loop [for idx in range(len(edge_sequence) - 1)], run over the rows
    it visits; [nth idx verts] is [vertices[idx]]. *)
Fixpoint walk_edges (rows : list edge_row) (idx : nat)
    (verts : list vertex) (es : list edge) : list vertex * list edge :=
  match rows with
  | [] => (verts, es)
  | edge_info :: rest =>
      let next_vert := vadd (nth idx verts (0, 0)%Q) (dx edge_info, dy edge_info) in
      walk_edges rest (S idx) (verts ++ [next_vert])
                 (es ++ [_edge_dict idx (idx + 1) (cx edge_info, cy edge_info)])
  end.

(** The closing test [all(np.isclose(fin_vert, 0, atol=3))]. *)
Definition returns_to_origin (fin_vert : vertex) : bool :=
  all_close_zero default_rtol 3 [fst fin_vert; snd fin_vert].

Definition panel_from_numeric `{External} (panel_name : string)
    (edge_sequence : list edge_row) (rot transl : option (list Q))
    (padded : bool) (pat : pattern)
  : result (pattern * list message) :=
  edge_sequence ←
    (if padded then
       let edge_sequence := strip_padding edge_sequence in
       if length edge_sequence <? 3 then Raise EmptyPanelError
       else Ok edge_sequence
     else Ok edge_sequence);
  let pnl := default panel_spec_template (panels pat !! panel_name) in
  (* ---- convert edge representation ---- *)
  let '(verts, es) :=
    walk_edges (removelast edge_sequence) 0 [(0, 0)%Q] [] in
  let idx := length verts - 1 in
  edge_info ← py_getitem edge_sequence (-1);
  let fin_vert := vadd (List.last verts (0, 0)%Q) (dx edge_info, dy edge_info) in
  let curv := (cx edge_info, cy edge_info) in
  let '(verts, es, log) :=
    if returns_to_origin fin_vert
    then (verts, es ++ [_edge_dict idx 0 curv], [])
    else (verts ++ [fin_vert], es ++ [_edge_dict idx (idx + 1) curv],
          [WarnNotClosed panel_name]) in
  let pnl := {| vertices := verts; edges := es;
                rotation := rotation pnl; translation := translation pnl |} in
  (* ---- 3D placement ---- *)
  let pnl :=
    match rot with
    | Some q => {| vertices := vertices pnl; edges := edges pnl;
                   rotation := quat_as_euler q; translation := translation pnl |}
    | None => pnl
    end in
  let pnl :=
    match transl with
    | Some t =>
        let transl_origin := snd (panel_universal_translation pnl) in
        let shift := transl_origin ++ [0%Q] in
        let comenpensating_shift := map Qopp (euler_rotate (rotation pnl) shift) in
        {| vertices := vertices pnl; edges := edges pnl; rotation := rotation pnl;
           translation := vec2 Qplus t comenpensating_shift |}
    | None => pnl
    end in
  Ok ({| name := name pat; panels := <[panel_name := pnl]> (panels pat);
         panel_order := panel_order pat; stitches := stitches pat |}, log).

Definition slot_name (idx : nat) : string := ("panel_" ++ pretty idx)%string.

(** [x[idx] if x is not None else None] *)
Definition optional_item (x : option (list (list Q))) (idx : nat)
  : result (option (list Q)) :=
  match x with
  | None => Ok None
  | Some l => v ← py_getitem l (Z.of_nat idx); Ok (Some v)
  end.

(** The loop over panel slots, with its [try ... except EmptyPanelError]. *)
Fixpoint decode_slots `{External} (idx : nat) (rep : list (list edge_row))
    (panel_rotations panel_translations : option (list (list Q)))
    (padded : bool) (pat : pattern) (in_panel_order : list string)
    (log : list message)
  : result (pattern * list string * list message) :=
  match rep with
  | [] => Ok (pat, in_panel_order, log)
  | slot :: rest =>
      let panel_name := slot_name idx in
      let attempt :=
        rot ← optional_item panel_rotations idx;
        transl ← optional_item panel_translations idx;
        panel_from_numeric panel_name slot rot transl padded pat in
      match attempt with
      | Ok (pat', msgs) =>
          decode_slots (S idx) rest panel_rotations panel_translations padded
                       pat' (in_panel_order ++ [panel_name]) (log ++ msgs)
      | Raise EmptyPanelError =>
          decode_slots (S idx) rest panel_rotations panel_translations padded
                       pat in_panel_order log
      | Raise e => Raise e
      end
  end.

Definition decode_side (edges_per_panel : nat) (in_panel_order : list string)
    (pattern_edge_id : Z) : result side :=
  let panel_id := (pattern_edge_id / Z.of_nat edges_per_panel)%Z in
  if (panel_id >? Z.of_nat (length in_panel_order) - 1)%Z
  then Raise InvalidPatternDefError
  else
    nm ← py_getitem in_panel_order panel_id;
    Ok {| side_panel := nm;
          side_edge := (pattern_edge_id mod Z.of_nat edges_per_panel)%Z |}.

Definition decode_stitch (edges_per_panel : nat) (in_panel_order : list string)
    (column : Z * Z) : result stitch :=
  s0 ← decode_side edges_per_panel in_panel_order (fst column);
  s1 ← decode_side edges_per_panel in_panel_order (snd column);
  Ok (s0, s1).

Definition pattern_from_tensors `{External} (pattern_representation : tensor3)
    (panel_rotations panel_translations : option (list (list Q)))
    (stitches_arr : option (list (Z * Z))) (padded : bool) (pat : pattern)
  : result (pattern * list message) :=
  (* remove existing panels -- start anew *)
  let pat := {| name := name pat; panels := ∅;
                panel_order := panel_order pat; stitches := stitches pat |} in
  '(pat, in_panel_order, log) ←
    decode_slots 0 (slots pattern_representation) panel_rotations
                 panel_translations padded pat [] [];
  let pat := {| name := name pat; panels := panels pat;
                panel_order := in_panel_order; stitches := [] |} in
  match stitches_arr with
  | Some columns =>                (* a 2-by-S array: len(stitches) = 2 > 0 *)
      if negb padded then Raise NotImplementedError else
      let edges_per_panel := dim1 pattern_representation in
      sts ← rmap (decode_stitch edges_per_panel in_panel_order) columns;
      Ok ({| name := name pat; panels := panels pat;
             panel_order := in_panel_order; stitches := sts |}, log)
  | None => Ok (pat, log ++ [WarnNoStitches])
  end.

End PatternConverter.


(* ===================================================================== *)
(** ** src/nn/data.py                                                     *)
(* ===================================================================== *)

Module Data.
Import Numeric.

(** *** Values *)

(** The values stored in [split_info] and passed as seeds and percents. *)
Inductive pyval : Type :=
  | VNone
  | VInt (z : Z)
  | VFloat (q : Q).

(** Python truthiness: [None], [0] and [0.0] are false. *)
Definition truthy (v : pyval) : bool :=
  match v with
  | VNone => false
  | VInt z => negb (z =? 0)%Z
  | VFloat q => negb (Qeq_bool q 0)
  end.

(** [int(v)]: a float is truncated toward zero, [None] is refused. *)
Definition as_int (v : pyval) : result Z :=
  match v with
  | VNone => Raise TypeError
  | VInt z => Ok z
  | VFloat q => Ok (py_int q)
  end.

(** *** The runtime: torch's generator, [random_split] and [DataLoader],
    and the rounding of Python's float arithmetic *)

Class Torch : Type := {
  rng_state : Type;
  (** state of the default generator after it has been seeded with an
      integer; torch raises on a seed outside its 64-bit range *)
  manual_seed : Z -> result rng_state;
  (** [torch.utils.data.random_split(dataset, lengths)]: the index lists of
      the subsets, drawn from the default generator *)
  random_split : nat -> list Z -> rng_state -> result (list (list nat)) * rng_state;
  (** element-wise [torch.sqrt] *)
  tensor_sqrt : Q -> Q;
  (** the argument checks of [DataLoader(data, batch_size, shuffle=...)] on
      data of the given number of items: torch raises for some batch sizes
      and for shuffling data without items *)
  loader_init : nat -> nat -> bool -> result unit;
  (** the double nearest to an exact value, [None] beyond the range of a
      double *)
  float_round : Q -> option Q }.

(** A value in float arithmetic; Python raises [OverflowError] when an
    integer is too large for a float, and [int()] raises it on the
    infinity an overflowing product gives. *)
Definition as_float `{Torch} (x : Q) : result Q :=
  match float_round x with
  | Some y => Ok y
  | None => Raise OverflowError
  end.

(** [torch.manual_seed(seed)]: the seed goes through [int()] first. *)
Definition torch_manual_seed `{Torch} (seed : pyval) : result rng_state :=
  z ← as_int seed;
  manual_seed z.

(** *** DatasetWrapper *)

(** A data section: the whole dataset or a [Subset] of its indices. *)
Inductive section : Type :=
  | Whole
  | Subset (indices : list nat).

(** [len(section)] *)
Definition section_len (len : nat) (s : section) : nat :=
  match s with
  | Whole => len
  | Subset idx => length idx
  end.

(** [if section:] -- [None] and an empty [Subset] are false. *)
Definition section_truthy (len : nat) (s : option section) : bool :=
  match s with
  | None => false
  | Some Whole => negb (len =? 0)
  | Some (Subset idx) => negb (length idx =? 0)
  end.

(** A [DataLoader]: what it iterates over, how, and whether it shuffles.
    Building one draws no random numbers. *)
Record loader : Type := { l_data : section; l_batch_size : nat; l_shuffle : bool }.

(** [DataLoader(data, batch_size, shuffle=shuffle)] over a dataset of
    [len] items or a subset of it. *)
Definition DataLoader `{Torch} (len : nat) (data : section) (bs : nat) (shuffle : bool)
  : result loader :=
  _ ← loader_init (section_len len data) bs shuffle;
  Ok {| l_data := data; l_batch_size := bs; l_shuffle := shuffle |}.

Record DatasetWrapper : Type := {
  dataset_len : nat;                       (* len(self.dataset) *)
  training : section;
  validation : option section;
  test : option section;
  batch_size : option nat;
  loader_full : option loader;
  loader_train : option loader;
  loader_validation : option loader;
  loader_test : option loader;
  split_info : gmap string pyval }.

(** The wrapper together with the process-wide generator state. *)
Record world `{Torch} : Type := { wrapper : DatasetWrapper; rng : rng_state }.

Definition initial_split_info : gmap string pyval :=
  <["random_seed" := VNone]> (<["valid_percent" := VNone]> (<["test_percent" := VNone]> ∅)).

Definition set_split_info (w : DatasetWrapper) (si : gmap string pyval) : DatasetWrapper :=
  {| dataset_len := dataset_len w; training := training w; validation := validation w;
     test := test w; batch_size := batch_size w; loader_full := loader_full w;
     loader_train := loader_train w; loader_validation := loader_validation w;
     loader_test := loader_test w; split_info := si |}.

Definition set_sections (w : DatasetWrapper) (tr : section) (va te : option section)
  : DatasetWrapper :=
  {| dataset_len := dataset_len w; training := tr; validation := va;
     test := te; batch_size := batch_size w; loader_full := loader_full w;
     loader_train := loader_train w; loader_validation := loader_validation w;
     loader_test := loader_test w; split_info := split_info w |}.

Definition set_batch_size (w : DatasetWrapper) (bs : option nat) : DatasetWrapper :=
  {| dataset_len := dataset_len w; training := training w; validation := validation w;
     test := test w; batch_size := bs; loader_full := loader_full w;
     loader_train := loader_train w; loader_validation := loader_validation w;
     loader_test := loader_test w; split_info := split_info w |}.

Definition set_loader_train (w : DatasetWrapper) (l : option loader) : DatasetWrapper :=
  {| dataset_len := dataset_len w; training := training w; validation := validation w;
     test := test w; batch_size := batch_size w; loader_full := loader_full w;
     loader_train := l; loader_validation := loader_validation w;
     loader_test := loader_test w; split_info := split_info w |}.

Definition set_loader_validation (w : DatasetWrapper) (l : option loader) : DatasetWrapper :=
  {| dataset_len := dataset_len w; training := training w; validation := validation w;
     test := test w; batch_size := batch_size w; loader_full := loader_full w;
     loader_train := loader_train w; loader_validation := l;
     loader_test := loader_test w; split_info := split_info w |}.

Definition set_loader_test (w : DatasetWrapper) (l : option loader) : DatasetWrapper :=
  {| dataset_len := dataset_len w; training := training w; validation := validation w;
     test := test w; batch_size := batch_size w; loader_full := loader_full w;
     loader_train := loader_train w; loader_validation := loader_validation w;
     loader_test := l; split_info := split_info w |}.

Definition set_loader_full (w : DatasetWrapper) (l : option loader) : DatasetWrapper :=
  {| dataset_len := dataset_len w; training := training w; validation := validation w;
     test := test w; batch_size := batch_size w; loader_full := l;
     loader_train := loader_train w; loader_validation := loader_validation w;
     loader_test := loader_test w; split_info := split_info w |}.

(** The loaders are assigned one after the other, so a [DataLoader] that
    raises leaves the ones assigned before it in place. *)
Definition new_loaders `{Torch} (batch_size_arg : option nat) (shuffle_train : bool)
    (w : DatasetWrapper) : result unit * DatasetWrapper :=
  let w := match batch_size_arg with
           | Some bs => set_batch_size w (Some bs)
           | None => w
           end in
  match batch_size w with
  | None => (Raise RuntimeError, w)
  | Some bs =>
      let optional_loader (s : option section) : result (option loader) :=
        if section_truthy (dataset_len w) s
        then match s with
             | Some d => l ← DataLoader (dataset_len w) d bs false; Ok (Some l)
             | None => Ok None
             end
        else Ok None in
      match DataLoader (dataset_len w) (training w) bs shuffle_train with
      | Raise e => (Raise e, w)
      | Ok l_train =>
          let w := set_loader_train w (Some l_train) in
          match optional_loader (validation w) with
          | Raise e => (Raise e, w)
          | Ok l_validation =>
              let w := set_loader_validation w l_validation in
              match optional_loader (test w) with
              | Raise e => (Raise e, w)
              | Ok l_test =>
                  let w := set_loader_test w l_test in
                  match DataLoader (dataset_len w) Whole bs false with
                  | Raise e => (Raise e, w)
                  | Ok l_full => (Ok tt, set_loader_full w (Some l_full))
                  end
              end
          end
      end
  end.

(** [(int)(len(self.dataset) * percent / 100)].  With an integer percentage
    the product is an exact integer and only the division is done in
    floats; with a float percentage the length is converted and both the
    product and the quotient are rounded. *)
Definition percent_size `{Torch} (len : nat) (percent : pyval) : result Z :=
  match percent with
  | VNone => Raise TypeError
  | VInt p =>
      x ← as_float (inject_Z (Z.of_nat len * p) / 100);
      Ok (py_int x)
  | VFloat q =>
      n ← as_float (inject_Z (Z.of_nat len));
      y ← as_float (n * q);
      x ← as_float (y / 100);
      Ok (py_int x)
  end.

(** What [load_split] returns: [(self.training, self.validation, self.test)]. *)
Abbreviation sections := (section * option section * option section)%type.

Definition load_split `{Torch} (split_info_arg : option (gmap string pyval))
    (batch_size_arg : option nat) (s : world) : result sections * world :=
  let w := wrapper s in
  let g := rng s in
  (* if split_info: check it is full, then adopt it *)
  let adopted : result DatasetWrapper :=
    match split_info_arg with
    | Some si =>
        if bool_decide (si = ∅) then Ok w
        else if bool_decide (dom (split_info w) ⊆ dom si)
             then Ok (set_split_info w si)
             else Raise ValueError
    | None => Ok w
    end in
  match adopted with
  | Raise e => (Raise e, {| wrapper := w; rng := g |})
  | Ok w =>
      (* torch.manual_seed(self.split_info['random_seed']) *)
      match getitem (split_info w) "random_seed" ≫= torch_manual_seed with
      | Raise e => (Raise e, {| wrapper := w; rng := g |})
      | Ok g =>
          let len := dataset_len w in
          let sizes : result (list Z * bool) :=
            vp ← getitem (split_info w) "valid_percent";
            valid_size ← percent_size len vp;
            tp ← getitem (split_info w) "test_percent";
            if truthy tp then
              test_size ← percent_size len tp;
              Ok ([(Z.of_nat len - valid_size - test_size)%Z; valid_size; test_size], true)
            else
              Ok ([(Z.of_nat len - valid_size)%Z; valid_size], false) in
          match sizes with
          | Raise e => (Raise e, {| wrapper := w; rng := g |})
          | Ok (lengths, with_test) =>
              let '(parts, g) := random_split len lengths g in
              let unpacked : result DatasetWrapper :=
                match parts, with_test with
                | Raise e, _ => Raise e
                | Ok [tr; va; te], true =>
                    Ok (set_sections w (Subset tr) (Some (Subset va)) (Some (Subset te)))
                | Ok [tr; va], false =>
                    Ok (set_sections w (Subset tr) (Some (Subset va)) None)
                | Ok _, _ => Raise ValueError                   (* unpacking *)
                end in
              match unpacked with
              | Raise e => (Raise e, {| wrapper := w; rng := g |})
              | Ok w =>
                  let w := match batch_size_arg with
                           | Some bs => set_batch_size w (Some bs)
                           | None => w
                           end in
                  (* if self.batch_size is not None: self.new_loaders() *)
                  let '(made, w) := match batch_size w with
                                    | Some _ => new_loaders None true w
                                    | None => (Ok tt, w)
                                    end in
                  match made with
                  | Raise e => (Raise e, {| wrapper := w; rng := g |})
                  | Ok _ => (Ok (training w, validation w, test w),
                             {| wrapper := w; rng := g |})
                  end
              end
          end
      end
  end.

(** [now] is [int(time.time())] at the moment of the call. *)
Definition new_split `{Torch} (valid_percent test_percent random_seed : pyval)
    (now : Z) (s : world) : result sections * world :=
  let w := wrapper s in
  let seed := if truthy random_seed then random_seed else VInt now in
  let si := <["random_seed" := seed]> (split_info w) in
  let si := <["test_percent" := test_percent]> (<["valid_percent" := valid_percent]> si) in
  load_split None None {| wrapper := set_split_info w si; rng := rng s |}.

(** *** Transforms: [SampleToTensor] *)

(** A numeric array or tensor: its shape and its elements in row-major
    order. *)
Record ndarray : Type := { shape : list nat; data : list Q }.

(** The objects a sample field can hold. *)
Inductive value : Type :=
  | PNone
  | PArray (a : ndarray)                       (* numpy.ndarray *)
  | PList (a : ndarray)                        (* nested Python list of numbers *)
  | PTensor (t : ndarray)                      (* torch float tensor *)
  | PTuple (items : list value)
  | PDict (items : list (string * value)).

Record Sample : Type := { features : value; ground_truth : value; name : string }.

(** [torch.Tensor()] *)
Definition empty_tensor : value := PTensor {| shape := [0]; data := [] |}.

(** [torch.from_numpy(x).float()]; the numbers are kept exact, the
    rounding to single precision is not modelled. *)
Definition from_numpy_float (x : value) : result value :=
  match x with
  | PArray a => Ok (PTensor a)
  | _ => Raise TypeError
  end.

(** [torch.Tensor(x)] on a list of numbers or a tensor *)
Definition torch_Tensor (x : value) : result value :=
  match x with
  | PList a => Ok (PTensor a)
  | PTensor t => Ok (PTensor t)
  | PArray a => Ok (PTensor a)
  | _ => Raise TypeError
  end.

Definition _dict_to_tensors (dict_obj : list (string * value))
  : result (list (string * value)) :=
  rmap (fun '(key, v) =>
          t ← match v with
              | PArray _ => from_numpy_float v
              | _ => torch_Tensor v
              end;
          Ok (key, t)) dict_obj.

(** [SampleToTensor.__call__].  The non-dictionary branch ends with a
    comma in the source, so [new_gt] is a one-element tuple there. *)
Definition SampleToTensor (sample : Sample) : result Sample :=
  let gt := ground_truth sample in
  new_gt ←
    match gt with
    | PDict d => r ← _dict_to_tensors d; Ok (PDict r)
    | _ =>
        t ← match gt with
            | PNone => Ok empty_tensor
            | _ => from_numpy_float gt
            end;
        Ok (PTuple [t])
    end;
  new_features ←
    match features sample with
    | PNone => Ok empty_tensor
    | f => from_numpy_float f
    end;
  Ok {| features := new_features; ground_truth := new_gt; name := name sample |}.

(** *** Statistics: [_unpad], [_get_distribution_stats], [_get_norm_stats] *)

(** A tensor viewed as rows of its last dimension:
    [input_batch.view(-1, input_batch.shape[-1])]. *)
Record tensor2 : Type := { ncols : nat; rows : list (list Q) }.

Definition _unpad (tolerance : Q) (element : list (list Q)) : list (list Q) :=
  filter (fun r => all_close_zero default_rtol tolerance r = false) element.

Definition default_unpad_tolerance : Q := 1 # 100000.

Definition column (j : nat) (rs : list (list Q)) : list Q :=
  map (fun r => nth j r 0%Q) rs.

(** Reduce every column of a tensor with [f]. *)
Definition per_column (f : list Q -> Q) (width : nat) (rs : list (list Q)) : list Q :=
  map (fun j => f (column j rs)) (seq 0 width).

Definition Qsum (l : list Q) : Q := fold_left Qplus l 0%Q.

Definition Qminimum (l : list Q) : Q :=
  match l with
  | [] => 0%Q
  | x :: rest => fold_left Qmin rest x
  end.

Definition Qmaximum (l : list Q) : Q :=
  match l with
  | [] => 0%Q
  | x :: rest => fold_left Qmax rest x
  end.

(** Per-column mean and standard deviation.  (On a tensor without rows
    torch produces NaN; the rational model produces 0.) *)
Definition _get_distribution_stats `{Torch} (input_batch : tensor2) (padded : bool)
  : list Q * list Q :=
  let rs := if padded then _unpad default_unpad_tolerance (rows input_batch)
            else rows input_batch in
  let n := inject_Z (Z.of_nat (length rs)) in
  let mean_of (c : list Q) : Q := (Qsum c / n)%Q in
  let std_of (c : list Q) : Q :=
    tensor_sqrt (Qsum (map (fun x => (x - mean_of c) * (x - mean_of c))%Q c) / n)%Q in
  (per_column mean_of (ncols input_batch) rs,
   per_column std_of (ncols input_batch) rs).

(** The scale component chosen for one dimension. *)
Definition norm_scale (tmin tmax : Q) : Q :=
  if isclose default_rtol default_atol tmin tmax
  then (if negb (isclose default_rtol default_atol tmin 0) then tmin else 1%Q)
  else (tmax - tmin)%Q.

Definition _get_norm_stats (input_batch : tensor2) (padded : bool)
  : result (list Q * list Q) :=
  let rs := if padded then _unpad default_unpad_tolerance (rows input_batch)
            else rows input_batch in
  match rs with
  | [] => Raise RuntimeError        (* torch.min over a dimension of size 0 *)
  | _ :: _ =>
      let min_vector := per_column Qminimum (ncols input_batch) rs in
      let max_vector := per_column Qmaximum (ncols input_batch) rs in
      let scale := map (fun '(tmin, tmax) => norm_scale tmin tmax)
                       (combine min_vector max_vector) in
      Ok (min_vector, scale)
  end.

(** *** Dataset configuration and [standardize] *)

Inductive cfg : Type :=
  | CNum (q : Q)
  | CStr (s : string)
  | CArr (a : list Q)
  | CDict (d : gmap string cfg).

(** Statistics held by a ground-truth transform: one tensor, or one per
    ground-truth component. *)
Inductive gt_stats : Type :=
  | GTensor (t : list Q)
  | GDict (d : gmap string (list Q)).

Inductive transform : Type :=
  | TSampleToTensor
  | TFeatureStandartization (shift scale : list Q)
  | TGTtandartization (shift scale : gt_stats)
  | TOther (tag : string).

Definition is_feature_std (t : transform) : bool :=
  match t with TFeatureStandartization _ _ => true | _ => false end.
Definition is_gt_std (t : transform) : bool :=
  match t with TGTtandartization _ _ => true | _ => false end.

(** [torch.Tensor(x)] on a configuration value that is a list of numbers.
    ([torch.Tensor] of a bare integer allocates an uninitialised tensor of
    that size; this is not modelled, a bare number counts as refused.) *)
Definition cfg_tensor (c : cfg) : result (list Q) :=
  match c with
  | CArr a => Ok a
  | _ => Raise TypeError
  end.

(** [stats[key]] *)
Definition cfg_item (stats : cfg) (key : string) : result cfg :=
  match stats with
  | CDict d => getitem d key
  | _ => Raise TypeError
  end.

Definition FeatureStandartization (shift scale : cfg) : result transform :=
  sh ← cfg_tensor shift; sc ← cfg_tensor scale;
  Ok (TFeatureStandartization sh sc).

(** Every value of a dictionary of statistics as a tensor. *)
Definition cfg_dict_tensors (d : gmap string cfg) : result (gmap string (list Q)) :=
  l ← rmap (fun '(k, c) => t ← cfg_tensor c; Ok (k, t)) (map_to_list d);
  Ok (list_to_map l).

Definition gt_stats_of (c : cfg) : result gt_stats :=
  match c with
  | CDict d => r ← cfg_dict_tensors d; Ok (GDict r)
  | _ => t ← cfg_tensor c; Ok (GTensor t)
  end.

Definition GTtandartization (shift scale : cfg) : result transform :=
  sh ← gt_stats_of shift; sc ← gt_stats_of scale;
  Ok (TGTtandartization sh sc).

(** The part of a dataset object [standardize] reads and writes. *)
Record Dataset : Type := { config : gmap string cfg; transforms : list transform }.

(** The single batch a loader over the whole training subset yields, by
    ground-truth component, or [None] when the subset is empty (the loader
    cannot be built with batch size 0). *)
Record batch : Type := {
  b_features : tensor2;
  b_outlines : tensor2;
  b_rotations : tensor2;
  b_translations : tensor2 }.

Definition full_batch (training_arg : option batch) : result batch :=
  match training_arg with
  | Some b => Ok b
  | None => Raise ValueError
  end.

(** [v[0] = v[1] = 0] *)
Definition zero_first_two (v : list Q) : result (list Q) :=
  if length v <? 2 then Raise IndexError
  else Ok (<[0 := 0%Q]> (<[1 := 0%Q]> v)).

(** [GarmentPanelDataset.standardize]; [training_arg] is [None] for
    [training=None], [Some None] for an empty subset. *)
Definition GarmentPanelDataset_standardize `{Torch}
    (training_arg : option (option batch)) (ds : Dataset) : result unit * Dataset :=
  let chosen : result (cfg * Dataset) :=
    match config ds !! "standardize" with
    | Some stats => Ok (stats, ds)
    | None =>
        match training_arg with
        | Some tr =>
            b ← full_batch tr;
            let '(feature_mean, feature_stds) :=
              _get_distribution_stats (b_features b) true in
            feature_mean ← zero_first_two feature_mean;
            let stats := CDict (<["shift" := CArr feature_mean]>
                                (<["scale" := CArr feature_stds]> ∅)) in
            Ok (stats, {| config := <["standardize" := stats]> (config ds);
                          transforms := transforms ds |})
        | None => Raise ValueError
        end
    end in
  match chosen with
  | Raise e => (Raise e, ds)
  | Ok (stats, ds) =>
      let ds := {| config := config ds;
                   transforms := filter (fun t => is_feature_std t = false)
                                        (transforms ds) |} in
      let appended :=
        sh ← cfg_item stats "shift"; sc ← cfg_item stats "scale";
        FeatureStandartization sh sc in
      match appended with
      | Raise e => (Raise e, ds)
      | Ok t => (Ok tt, {| config := config ds; transforms := transforms ds ++ [t] |})
      end
  end.

(** [Garment3DPatternFullDataset.standardize]. *)
Definition Garment3DPatternFullDataset_standardize `{Torch}
    (training_arg : option (option batch)) (ds : Dataset) : result unit * Dataset :=
  let chosen : result (cfg * Dataset) :=
    match config ds !! "standardize" with
    | Some stats => Ok (stats, ds)
    | None =>
        match training_arg with
        | Some tr =>
            b ← full_batch tr;
            let '(feature_shift, feature_scale) :=
              _get_distribution_stats (b_features b) false in
            let '(panel_shift, panel_scale) :=
              _get_distribution_stats (b_outlines b) true in
            panel_shift ← zero_first_two panel_shift;
            '(transl_min, transl_scale) ← _get_norm_stats (b_translations b) false;
            '(rot_min, rot_scale) ← _get_norm_stats (b_rotations b) false;
            let stats :=
              CDict (<["f_shift" := CArr feature_shift]>
                    (<["f_scale" := CArr feature_scale]>
                    (<["gt_shift" :=
                         CDict (<["outlines" := CArr panel_shift]>
                               (<["rotations" := CArr rot_min]>
                               (<["translations" := CArr transl_min]> ∅)))]>
                    (<["gt_scale" :=
                         CDict (<["outlines" := CArr panel_scale]>
                               (<["rotations" := CArr rot_scale]>
                               (<["translations" := CArr transl_scale]> ∅)))]> ∅)))) in
            Ok (stats, {| config := <["standardize" := stats]> (config ds);
                          transforms := transforms ds |})
        | None => Raise ValueError
        end
    end in
  match chosen with
  | Raise e => (Raise e, ds)
  | Ok (stats, ds) =>
      let ds := {| config := config ds;
                   transforms :=
                     filter (fun t => is_gt_std t = false /\ is_feature_std t = false)
                            (transforms ds) |} in
      let gt_transform :=
        sh ← cfg_item stats "gt_shift"; sc ← cfg_item stats "gt_scale";
        GTtandartization sh sc in
      match gt_transform with
      | Raise e => (Raise e, ds)
      | Ok t1 =>
          let ds := {| config := config ds; transforms := transforms ds ++ [t1] |} in
          let f_transform :=
            sh ← cfg_item stats "f_shift"; sc ← cfg_item stats "f_scale";
            FeatureStandartization sh sc in
          match f_transform with
          | Raise e => (Raise e, ds)
          | Ok t2 =>
              (Ok tt, {| config := config ds; transforms := transforms ds ++ [t2] |})
          end
      end
  end.

(** *** [tags_to_stitches] *)

(** [stitch_tags[panel_id][edge_id]] on a panels-by-edges tensor of tags. *)
Definition tag_at (stitch_tags : list (list (list Q))) (e : nat * nat) : list Q :=
  nth (snd e) (nth (fst e) stitch_tags []) [].

(** [all(torch.isclose(a, b, r))]: the third positional argument of
    [torch.isclose] is [rtol]; [atol] keeps its default. *)
Definition all_isclose_positional (a b : list Q) (r : Q) : bool :=
  all_close r default_atol a b.

(** The inner loop: partners of [edge_1] among the later candidates. *)
Definition partners (stitch_tags : list (list (list Q))) (edge_1 : nat * nat)
    (later : list (nat * nat)) : list ((nat * nat) * (nat * nat)) :=
  map (fun edge_2 => (edge_1, edge_2))
      (filter (fun edge_2 =>
                 all_isclose_positional (tag_at stitch_tags edge_1)
                                        (tag_at stitch_tags edge_2) (1 # 10) = true)
              later).

Fixpoint all_pairs (stitch_tags : list (list (list Q))) (candidates : list (nat * nat))
  : list ((nat * nat) * (nat * nat)) :=
  match candidates with
  | [] => []
  | edge_1 :: later => partners stitch_tags edge_1 later ++ all_pairs stitch_tags later
  end.

Definition tags_to_stitches (stitch_tags : list (list (list Q)))
  : list ((nat * nat) * (nat * nat)) :=
  let shape0 := length stitch_tags in
  let shape1 := length (nth 0 stitch_tags []) in
  let tag_len := length (nth 0 (nth 0 stitch_tags []) []) in
  let zero_tag := repeat 0%Q tag_len in
  let non_zero_tags :=
    flat_map (fun panel_id =>
                flat_map (fun edge_id =>
                            if negb (all_isclose_positional
                                       (tag_at stitch_tags (panel_id, edge_id))
                                       zero_tag (1 # 100))
                            then [(panel_id, edge_id)] else [])
                         (seq 0 shape1))
             (seq 0 shape0) in
  all_pairs stitch_tags non_zero_tags.

End Data.

(* ===================================================================== *)
(** ** src/packages/mayaqltools/mayascene.py: equilibrium detection       *)
(* ===================================================================== *)

Module MayaScene.
Import Numeric.

(** One row of a vertex snapshot, an [(n, 3)] array of world positions. *)
Abbreviation point := (Q * Q * Q)%type.

(** The fields of [MayaGarment] the equilibrium check uses. *)
Record MayaGarment : Type := {
  loaded_to_maya : bool;
  last_verts : option (list point);
  current_verts : option (list point) }.

(** What [is_static] returns: a bare boolean or a (boolean, count) tuple. *)
Inductive static_report : Type :=
  | Bare (b : bool)
  | Pair (b : bool) (non_static_len : nat).

(** [update_verts_info], given the positions read from the scene. *)
Definition update_verts_info (verts : list point) (g : MayaGarment)
  : result MayaGarment :=
  if negb (loaded_to_maya g) then Raise RuntimeError
  else Ok {| loaded_to_maya := loaded_to_maya g;
             last_verts := current_verts g;
             current_verts := Some verts |}.

(** Row pairing of [current - last] under numpy broadcasting of the first
    dimension. *)
Definition broadcast_rows (cur last : list point) : result (list (point * point)) :=
  if length cur =? length last then Ok (combine cur last)
  else match cur, last with
       | [c], _ => Ok (map (fun l => (c, l)) last)
       | _, [l] => Ok (map (fun c => (c, l)) cur)
       | _, _ => Raise ValueError
       end.

(** One entry of [np.sum(np.abs(current - last), axis=1)]. *)
Definition l1_displacement (pr : point * point) : Q :=
  let '((x1, y1, z1), (x0, y0, z0)) := pr in
  (Qabs (x1 - x0) + Qabs (y1 - y0) + Qabs (z1 - z0))%Q.

Definition exceeds (threshold : Q) (d : Q) : bool := negb (Qle_bool d threshold).

(** [is_static].  The limit [len(vertices) * 0.01 * percent] is the exact
    product; the source computes it in floats. *)
Definition is_static (threshold allowed_non_static_percent : Q) (g : MayaGarment)
  : result static_report :=
  if negb (loaded_to_maya g) then Raise RuntimeError
  else
    match last_verts g with
    | None => Ok (Bare false)                         (* first iteration *)
    | Some last =>
        match current_verts g with
        | None => Raise TypeError
        | Some cur =>
            pairs ← broadcast_rows cur last;
            let diff_L1 := map l1_displacement pairs in
            let non_static_len := length (filter (fun d => exceeds threshold d = true) diff_L1) in
            if (non_static_len =? 0)
               || negb (Qle_bool (inject_Z (Z.of_nat (length cur)) * (1 # 100)
                                  * allowed_non_static_percent)
                                 (inject_Z (Z.of_nat non_static_len)))
            then Ok (Pair true non_static_len)
            else Ok (Pair false non_static_len)
        end
    end.

End MayaScene.

(* ===================================================================== *)
(** ** Vocabulary used to state the properties                            *)
(* ===================================================================== *)

Module PatternSpec.
Import Numeric PatternConverter.

(** The point reached from [start] by adding up the displacements of
    [rows] one after the other. *)
Definition landing_from (start : vertex) (rows : list edge_row) : vertex :=
  fold_left (fun v r => vadd v (dx r, dy r)) rows start.

Definition landing (rows : list edge_row) : vertex := landing_from (0, 0)%Q rows.

(** Closed form of the vertex/edge accumulation loop. *)
Fixpoint scan (v : vertex) (rows : list edge_row) : list vertex :=
  match rows with
  | [] => []
  | r :: rest => let v' := vadd v (dx r, dy r) in v' :: scan v' rest
  end.

Fixpoint edges_from (idx : nat) (rows : list edge_row) : list edge :=
  match rows with
  | [] => []
  | r :: rest => _edge_dict idx (idx + 1) (cx r, cy r) :: edges_from (S idx) rest
  end.

(** The placement step applied to a freshly rebuilt panel keeps its
    outline. *)
Definition placed `{External} (rot transl : option (list Q)) (pnl : panel) : panel :=
  let pnl :=
    match rot with
    | Some q => {| vertices := vertices pnl; edges := edges pnl;
                   rotation := quat_as_euler q; translation := translation pnl |}
    | None => pnl
    end in
  match transl with
  | Some t =>
      {| vertices := vertices pnl; edges := edges pnl; rotation := rotation pnl;
         translation :=
           vec2 Qplus t (map Qopp (euler_rotate (rotation pnl)
                                     (snd (panel_universal_translation pnl) ++ [0%Q]))) |}
  | None => pnl
  end.

(** The outline rebuilt from a non-empty edge sequence. *)
Definition rebuilt (old : panel) (rows : list edge_row) : panel :=
  let body := removelast rows in
  let r := List.last rows zero_row in
  let verts := (0, 0)%Q :: scan (0, 0)%Q body in
  let idx := length verts - 1 in
  if returns_to_origin (landing rows)
  then {| vertices := verts;
          edges := edges_from 0 body ++ [_edge_dict idx 0 (cx r, cy r)];
          rotation := rotation old; translation := translation old |}
  else {| vertices := verts ++ [landing rows];
          edges := edges_from 0 body ++ [_edge_dict idx (idx + 1) (cx r, cy r)];
          rotation := rotation old; translation := translation old |}.

Definition rebuilt_log (panel_name : string) (rows : list edge_row) : list message :=
  if returns_to_origin (landing rows) then [] else [WarnNotClosed panel_name].

Definition with_panel (pat : pattern) (panel_name : string) (pnl : panel) : pattern :=
  {| name := name pat; panels := <[panel_name := pnl]> (panels pat);
     panel_order := panel_order pat; stitches := stitches pat |}.

(** The names of the slots, numbered from [idx], that keep at least three
    rows once padding rows are stripped. *)
Fixpoint surviving (idx : nat) (rep : list (list edge_row)) : list string :=
  match rep with
  | [] => []
  | slot :: rest =>
      (if 3 <=? length (strip_padding slot) then [slot_name idx] else [])
        ++ surviving (S idx) rest
  end.

(** One slot, padded decoding: either the slot is skipped as empty, or it
    is stored under its name; the only other outcome is an [IndexError]
    from a missing placement entry. *)
Definition attempt `{External} (idx : nat) (slot : list edge_row)
    (panel_rotations panel_translations : option (list (list Q)))
    (pat : pattern) : result (pattern * list message) :=
  rot ← optional_item panel_rotations idx;
  transl ← optional_item panel_translations idx;
  panel_from_numeric (slot_name idx) slot rot transl true pat.

(** A panel all of whose edges join two of its vertices. *)
Definition panel_well_formed (pnl : panel) : Prop :=
  forall e, e ∈ edges pnl ->
    fst (endpoints e) < length (vertices pnl) /\
    snd (endpoints e) < length (vertices pnl).

(** The edge sequence of a panel, as [panel_as_numeric] computes it before
    padding. *)
Definition edge_sequence_of (pnl : panel) : result (list edge_row) :=
  rmap (_edge_as_vector (vertices pnl)) (edges pnl).

(** Every panel of the traversal order exists, is well formed and has at
    most [L] edges. *)
Definition panels_fit (pat : pattern) (L : nat) : Prop :=
  forall nm, nm ∈ panel_order pat ->
    exists pnl, panels pat !! nm = Some pnl /\
                panel_well_formed pnl /\ length (edges pnl) <= L.

(** A stitch side that names a panel of the pattern and one of its edges. *)
Definition side_valid (pat : pattern) (s : side) : Prop :=
  side_panel s ∈ panel_order pat /\
  exists pnl, panels pat !! side_panel s = Some pnl /\
              (0 <= side_edge s < Z.of_nat (length (edges pnl)))%Z.

Definition stitches_valid (pat : pattern) : Prop :=
  forall st, st ∈ stitches pat -> side_valid pat (fst st) /\ side_valid pat (snd st).

(** Every panel of the traversal order keeps at least three edge rows
    when rows within 1.5 of zero are stripped. *)
Definition panels_survive (pat : pattern) : Prop :=
  forall nm pnl rows, nm ∈ panel_order pat ->
    panels pat !! nm = Some pnl -> edge_sequence_of pnl = Ok rows ->
    3 <= length (strip_padding rows).

(** Position of the first occurrence of [x] in [l] (its length if none). *)
Fixpoint position (x : string) (l : list string) : nat :=
  match l with
  | [] => 0
  | y :: rest => if String.eqb x y then 0 else S (position x rest)
  end.

(** The pattern-level edge ids of a stitch. *)
Definition encoded_side (order : list string) (L : nat) (s : side) : Z :=
  (Z.of_nat (position (side_panel s) order) * Z.of_nat L + side_edge s)%Z.

Definition encoded_stitch (order : list string) (L : nat) (st : stitch) : Z * Z :=
  (encoded_side order L (fst st), encoded_side order L (snd st)).

(** A placement argument ([None] or a list) that has an entry for each of
    the first [n] slots. *)
Definition covers (x : option (list (list Q))) (n : nat) : Prop :=
  match x with
  | None => True
  | Some l => n <= length l
  end.

(** What [panel_as_numeric] returns for the panels of a fitting pattern
    whose panels all survive padding removal. *)
Definition good_numeric (L : nat) (num : list edge_row * list Q * list Q) : Prop :=
  length (fst (fst num)) = L /\ 3 <= length (strip_padding (fst (fst num))).

(** The side the decoder is expected to produce for an encoded side: the
    slot named after the panel's position in the traversal order. *)
Definition expected_side (order : list string) (s : side) : result side :=
  i ← list_index (side_panel s) order;
  Ok {| side_panel := slot_name i; side_edge := side_edge s |}.

(** Placement-free stand-in for the external code, used to run the codec
    on concrete patterns. *)
Definition no_placement : External :=
  {| panel_spec_template :=
       {| vertices := []; edges := [];
          rotation := [0; 0; 0]%Q; translation := [0; 0; 0]%Q |};
     panel_universal_translation := fun _ => ([0; 0; 0]%Q, [0; 0]%Q);
     euler_as_quat := fun _ => [0; 0; 0; 1]%Q;
     quat_as_euler := fun _ => [0; 0; 0]%Q;
     euler_rotate := fun _ v => v |}.

(** Concrete patterns: rectangles traversed counter-clockwise. *)
Definition straight (a b : nat) : edge := {| endpoints := (a, b); curvature := None |}.

Definition rectangle (w h : Q) : panel :=
  {| vertices := [(0, 0); (w, 0); (w, h); (0, h)]%Q;
     edges := [straight 0 1; straight 1 2; straight 2 3; straight 3 0];
     rotation := [0; 0; 0]%Q; translation := [0; 0; 0]%Q |}.

(** A 10 x 1 strap stitched to a 10 x 10 front panel. *)
Definition strap_pattern : pattern :=
  {| name := "strap_and_front";
     panels := <["strap" := rectangle 10 1]> (<["front" := rectangle 10 10]> ∅);
     panel_order := ["strap"; "front"]%string;
     stitches := [({| side_panel := "strap"; side_edge := 0 |},
                   {| side_panel := "front"; side_edge := 2 |})] |}.

(** A 20 x 10 back panel stitched to a 10 x 10 front panel. *)
Definition two_panel_pattern : pattern :=
  {| name := "back_and_front";
     panels := <["back" := rectangle 20 10]> (<["front" := rectangle 10 10]> ∅);
     panel_order := ["back"; "front"]%string;
     stitches := [({| side_panel := "back"; side_edge := 3 |},
                   {| side_panel := "front"; side_edge := 2 |})] |}.

End PatternSpec.

Module DataSpec.
Import Numeric Data.

(** The conversion the specification describes for [SampleToTensor]:
    features and ground truth each become a tensor (an empty one when
    absent), dictionaries are converted per key, the name is kept. *)
Definition SampleToTensor_spec (sample : Sample) : result Sample :=
  new_gt ←
    match ground_truth sample with
    | PDict d => r ← _dict_to_tensors d; Ok (PDict r)
    | PNone => Ok empty_tensor
    | gt => from_numpy_float gt
    end;
  new_features ←
    match features sample with
    | PNone => Ok empty_tensor
    | f => from_numpy_float f
    end;
  Ok {| features := new_features; ground_truth := new_gt; name := name sample |}.

(** The pairing the specification describes for [tags_to_stitches]:
    edges whose tag is within 0.01 of zero in every component are
    discarded, and two remaining edges are stitched when their tags agree
    within 0.1 in every component. *)
Definition near_zero_tag (tag : list Q) : bool :=
  forallb (fun a => Qle_bool (Qabs a) (1 # 100)) tag.

Definition tags_agree (tag1 tag2 : list Q) : bool :=
  forallb (fun '(a, b) => Qle_bool (Qabs (a - b)) (1 # 10)) (combine tag1 tag2).

Fixpoint all_pairs_spec (stitch_tags : list (list (list Q)))
    (candidates : list (nat * nat)) : list ((nat * nat) * (nat * nat)) :=
  match candidates with
  | [] => []
  | edge_1 :: later =>
      map (fun edge_2 => (edge_1, edge_2))
          (filter (fun edge_2 => tags_agree (tag_at stitch_tags edge_1)
                                            (tag_at stitch_tags edge_2) = true) later)
        ++ all_pairs_spec stitch_tags later
  end.

Definition tags_to_stitches_spec (stitch_tags : list (list (list Q)))
  : list ((nat * nat) * (nat * nat)) :=
  let candidates :=
    flat_map (fun panel_id =>
                flat_map (fun edge_id =>
                            if near_zero_tag (tag_at stitch_tags (panel_id, edge_id))
                            then [] else [(panel_id, edge_id)])
                         (seq 0 (length (nth 0 stitch_tags []))))
             (seq 0 (length stitch_tags)) in
  all_pairs_spec stitch_tags candidates.

(** The first step of [load_split]: check a supplied [split_info] and
    adopt it. *)
Definition adopt (arg : option (gmap string pyval)) (w : DatasetWrapper)
  : result DatasetWrapper :=
  match arg with
  | Some si =>
      if bool_decide (si = ∅) then Ok w
      else if bool_decide (dom (split_info w) ⊆ dom si)
           then Ok (set_split_info w si)
           else Raise ValueError
  | None => Ok w
  end.

(** A toy runtime used to run the split code: the state of the generator
    is a number, seeding sets it, and the permutation drawn from state [g]
    is the identity rotated by [g]; the partition cuts that permutation.
    A loader is refused for batch size 0 and for shuffling no items, and
    every value is taken to be a double. *)
Fixpoint cut (lengths : list Z) (perm : list nat) : list (list nat) :=
  match lengths with
  | [] => []
  | l :: rest => take (Z.to_nat l) perm :: cut rest (drop (Z.to_nat l) perm)
  end.

Definition toy_torch : Torch :=
  {| rng_state := Z;
     manual_seed := fun seed => Ok seed;
     random_split := fun len lengths g =>
       if (foldr Z.add 0 lengths =? Z.of_nat len)%Z
       then (Ok (cut lengths (rotate (Z.to_nat (g mod Z.of_nat len)) (seq 0 len))),
             (g + 1)%Z)
       else (Raise ValueError, g);
     tensor_sqrt := fun q => q;
     loader_init := fun n bs shuffle =>
       if (bs =? 0) || (shuffle && (n =? 0)) then Raise ValueError else Ok tt;
     float_round := fun x => Some x |}.

(** A freshly constructed wrapper around a dataset of [n] items. *)
Definition fresh_wrapper (n : nat) : DatasetWrapper :=
  {| dataset_len := n; training := Whole; validation := None; test := None;
     batch_size := None; loader_full := None; loader_train := None;
     loader_validation := None; loader_test := None;
     split_info := initial_split_info |}.

(** A dataset restored from an experiment: the statistics are in its
    configuration. *)
Definition restored_stats : cfg :=
  CDict (<["f_shift" := CArr [0; 0; 0]%Q]>
        (<["f_scale" := CArr [2; 2; 2]%Q]>
        (<["gt_shift" := CDict (<["outlines" := CArr [0; 0; 1; 1]%Q]> ∅)]>
        (<["gt_scale" := CDict (<["outlines" := CArr [3; 3; 3; 3]%Q]> ∅)]> ∅)))).

Definition restored_dataset : Dataset :=
  {| config := <["standardize" := restored_stats]> ∅;
     transforms := [TSampleToTensor] |}.

(** A training batch of two samples. *)
Definition small_batch : batch :=
  {| b_features := {| ncols := 3; rows := [[1; 2; 3]; [3; 2; 1]]%Q |};
     b_outlines := {| ncols := 4; rows := [[10; 0; 0; 0]; [0; 10; 0; 0]]%Q |};
     b_rotations := {| ncols := 4; rows := [[0; 0; 0; 1]; [0; 0; 0; 1]]%Q |};
     b_translations := {| ncols := 3; rows := [[0; 5; 0]; [4; 5; 0]]%Q |} |}.

(** Two edges of one panel whose tags are both within 0.01 of zero. *)
Definition faint_tags : list (list (list Q)) :=
  [[ [1 # 256; 1 # 256; 1 # 256]; [1 # 256; 1 # 256; 1 # 256] ]]%Q.

(** Two edges whose tags differ by 1/16 in two components. *)
Definition nearby_tags : list (list (list Q)) :=
  [[ [1; 0; 0]; [17 # 16; 1 # 16; 0] ]]%Q.

(** A sample as [BaseDataset.__getitem__] builds it with the default
    feature and ground-truth readers, both [np.array([0])]. *)
Definition default_sample : Sample :=
  {| features := PArray {| shape := [1]; data := [0%Q] |};
     ground_truth := PArray {| shape := [1]; data := [0%Q] |};
     name := "datapoint" |}.

End DataSpec.

Module MayaSpec.
Import Numeric MayaScene.

(** A garment just loaded into the scene: no snapshot yet. *)
Definition loaded_garment : MayaGarment :=
  {| loaded_to_maya := true; last_verts := None; current_verts := None |}.

(** The number of vertices whose L1 displacement between two snapshots of
    the same size exceeds the threshold. *)
Definition moved (threshold : Q) (cur last : list point) : nat :=
  length (filter (fun pr => exceeds threshold (l1_displacement pr) = true)
                 (combine cur last)).

End MayaSpec.

(* ===================================================================== *)
(** ** Further vocabulary for the codec                                   *)
(* ===================================================================== *)

Module CodecSpec.
Import Numeric PatternConverter PatternSpec.

(** A panel whose [n] edges go round its [n] vertices in stored order:
    edge [k] joins vertex [k] to vertex [k + 1], the last one back to
    vertex 0. *)
Definition loop_panel (pnl : panel) (n : nat) : Prop :=
  0 < n /\ length (vertices pnl) = n /\ length (edges pnl) = n /\
  forall k e, edges pnl !! k = Some e -> endpoints e = (k, S k mod n).

(** What every panel built by the decoder looks like. *)
Definition decoded_panel (pnl : panel) : Prop :=
  panel_well_formed pnl /\
  vertices pnl !! 0 = Some (0, 0)%Q /\
  3 <= length (edges pnl) /\
  (length (vertices pnl) = length (edges pnl) \/
   length (vertices pnl) = S (length (edges pnl))).

(** A 30 x 20 rectangle whose first corner is not at the origin. *)
Definition shifted_rectangle : panel :=
  {| vertices := [(5, 7); (35, 7); (35, 27); (5, 27)]%Q;
     edges := [straight 0 1; straight 1 2; straight 2 3; straight 3 0];
     rotation := [0; 0; 0]%Q; translation := [0; 0; 0]%Q |}.

Definition one_panel_pattern : pattern :=
  {| name := "single"; panels := <["front" := shifted_rectangle]> ∅;
     panel_order := ["front"]%string; stitches := [] |}.




(** The four edge rows of a [w] x [h] rectangle drawn from the origin. *)
Definition box_rows (w h : Q) : list edge_row :=
  [ {| dx := w; dy := 0; cx := 0; cy := 0 |};
    {| dx := 0; dy := h; cx := 0; cy := 0 |};
    {| dx := - w; dy := 0; cx := 0; cy := 0 |};
    {| dx := 0; dy := - h; cx := 0; cy := 0 |} ].

(** Two rectangles as a padded panel tensor with four rows per slot. *)
Definition two_boxes : tensor3 :=
  {| dim1 := 4; slots := [box_rows 20 10; box_rows 10 10] |}.

End CodecSpec.

(* ===================================================================== *)
(** ** src/nn/data.py: applying and undoing the standardisation           *)
(* ===================================================================== *)

Module DataTransforms.
Import Numeric Data.

(** [t op v] for a tensor or array [t], seen as rows of its last
    dimension, and a one-dimensional [v], with broadcasting of the last
    dimension: equal sizes pair up, a size of one is stretched, any other
    pair of sizes raises [mismatch]. *)
Definition broadcast_op (mismatch : error) (f : Q -> Q -> Q) (t : tensor2) (v : list Q)
  : result tensor2 :=
  if ncols t =? length v
  then Ok {| ncols := ncols t; rows := map (fun r => zip_with f r v) (rows t) |}
  else if ncols t =? 1
  then Ok {| ncols := length v; rows := map (fun r => map (f (nth 0 r 0%Q)) v) (rows t) |}
  else if length v =? 1
  then Ok {| ncols := ncols t;
             rows := map (fun r => map (fun x => f x (nth 0 v 0%Q)) r) (rows t) |}
  else Raise mismatch.

(** On torch tensors a shape mismatch is a [RuntimeError], on numpy arrays
    a [ValueError]. *)
Definition tensor_op := broadcast_op RuntimeError.
Definition array_op := broadcast_op ValueError.

(** The ['features'] entry [FeatureStandartization.__call__] returns,
    [(sample['features'] - self.shift) / self.scale]; the other two entries
    are those of its argument.  (Where a scale component is zero torch
    gives inf or nan and the rational model 0; the properties of the
    quotient are stated for non-zero scales.) *)
Definition FeatureStandartization_call (shift scale : list Q) (features : tensor2)
  : result tensor2 :=
  t ← tensor_op Qminus features shift;
  tensor_op Qdiv t scale.

(** A ground truth: one tensor, or a dictionary of tensors in insertion
    order. *)
Inductive gt_value : Type :=
  | GtTensor (t : tensor2)
  | GtDict (items : list (string * tensor2)).

(** [key in stats]: membership in a dictionary of statistics; on a tensor
    of statistics torch refuses a string operand. *)
Definition stats_contains (stats : gt_stats) (key : string) : result bool :=
  match stats with
  | GDict d => Ok (bool_decide (is_Some (d !! key)))
  | GTensor _ => Raise RuntimeError
  end.

(** [stats[key]] *)
Definition stats_item (stats : gt_stats) (key : string) : result (list Q) :=
  match stats with
  | GDict d => getitem d key
  | GTensor _ => Raise IndexError
  end.

(** The ['ground_truth'] entry [GTtandartization.__call__] returns. *)
Definition GTtandartization_call (shift scale : gt_stats) (gt : gt_value)
  : result gt_value :=
  match gt with
  | GtDict items =>
      new_gt ← rmap (fun '(key, value) =>
                       has_shift ← stats_contains shift key;
                       value ← (if has_shift : bool
                                then sh ← stats_item shift key; tensor_op Qminus value sh
                                else Ok value);
                       has_scale ← stats_contains scale key;
                       value ← (if has_scale : bool
                                then sc ← stats_item scale key; tensor_op Qdiv value sc
                                else Ok value);
                       Ok (key, value)) items;
      Ok (GtDict new_gt)
  | GtTensor t =>
      match shift with
      | GTensor sh =>
          t ← tensor_op Qminus t sh;
          match scale with
          | GTensor sc => t ← tensor_op Qdiv t sc; Ok (GtTensor t)
          | GDict _ => Raise TypeError
          end
      | GDict _ => Raise TypeError
      end
  end.

(** The first statement of [_pattern_from_tenzor] and of
    [GarmentPanelDataset._pred_to_pattern] when statistics are stored:
    [prediction * scale + shift], on numpy arrays. *)
Definition undo_standardization (scale shift : list Q) (prediction : tensor2)
  : result tensor2 :=
  t ← array_op Qmult prediction scale;
  array_op Qplus t shift.

(** A batch of [Garment3DPatternDataset]: features and the pattern tensor
    as ground truth. *)
Record gt_batch : Type := { gb_features : tensor2; gb_ground_truth : tensor2 }.

Definition full_gt_batch (training_arg : option gt_batch) : result gt_batch :=
  match training_arg with
  | Some b => Ok b
  | None => Raise ValueError
  end.

(** [Garment3DPatternDataset.standardize]; [training_arg] is [None] for
    [training=None], [Some None] for an empty subset. *)
Definition Garment3DPatternDataset_standardize `{Torch}
    (training_arg : option (option gt_batch)) (ds : Dataset) : result unit * Dataset :=
  let chosen : result (cfg * Dataset) :=
    match config ds !! "standardize" with
    | Some stats => Ok (stats, ds)
    | None =>
        match training_arg with
        | Some tr =>
            b ← full_gt_batch tr;
            let '(feature_mean, feature_stds) :=
              _get_distribution_stats (gb_features b) false in
            let '(gt_mean, gt_stds) :=
              _get_distribution_stats (gb_ground_truth b) true in
            gt_mean ← zero_first_two gt_mean;
            let stats :=
              CDict (<["shift" := CArr gt_mean]>
                    (<["scale" := CArr gt_stds]>
                    (<["f_shift" := CArr feature_mean]>
                    (<["f_scale" := CArr feature_stds]> ∅)))) in
            Ok (stats, {| config := <["standardize" := stats]> (config ds);
                          transforms := transforms ds |})
        | None => Raise ValueError
        end
    end in
  match chosen with
  | Raise e => (Raise e, ds)
  | Ok (stats, ds) =>
      let ds := {| config := config ds;
                   transforms :=
                     filter (fun t => is_gt_std t = false /\ is_feature_std t = false)
                            (transforms ds) |} in
      let gt_transform :=
        sh ← cfg_item stats "shift"; sc ← cfg_item stats "scale";
        GTtandartization sh sc in
      match gt_transform with
      | Raise e => (Raise e, ds)
      | Ok t1 =>
          let ds := {| config := config ds; transforms := transforms ds ++ [t1] |} in
          let f_transform :=
            sh ← cfg_item stats "f_shift"; sc ← cfg_item stats "f_scale";
            FeatureStandartization sh sc in
          match f_transform with
          | Raise e => (Raise e, ds)
          | Ok t2 =>
              (Ok tt, {| config := config ds; transforms := transforms ds ++ [t2] |})
          end
      end
  end.

(** A tensor all of whose rows have the declared width. *)
Definition rectangular (t : tensor2) : Prop :=
  Forall (fun r => length r = ncols t) (rows t).

(** Two tensors of the same shape with equal entries (as rationals). *)
Definition same_entries (t u : tensor2) : Prop :=
  ncols t = ncols u /\ Forall2 (Forall2 Qeq) (rows t) (rows u).

(** A dataset without stored statistics. *)
Definition plain_dataset : Dataset :=
  {| config := ∅; transforms := [TSampleToTensor] |}.

End DataTransforms.

Module SplitSpec.
Import Numeric Data DataSpec.

(** A complete [split_info]: seed 42, 10 percent validation, 10 percent
    test. *)
Definition ten_ten_split : gmap string pyval :=
  <["random_seed" := VInt 42]>
    (<["valid_percent" := VInt 10]> (<["test_percent" := VInt 10]> ∅)).

(** A wrapper around 50 items with the toy generator in state 7. *)
Definition toy_world : @world toy_torch :=
  @Build_world toy_torch (fresh_wrapper 50) 7%Z.

(** The split the specification describes for a dataset of [len] items:
    the generator is re-seeded with the seed, the validation and test sizes
    are the given percentages of the length, and [random_split] partitions
    from the re-seeded state into the returned sections, leaving the
    generator in state [g']. *)
Definition reseeded_partition `{Torch} (len : nat)
    (seed valid_percent test_percent : pyval) (secs : sections) (g' : rng_state) : Prop :=
  exists g0 valid_size,
    torch_manual_seed seed = Ok g0 /\
    percent_size len valid_percent = Ok valid_size /\
    if truthy test_percent
    then exists test_size tr va te,
           percent_size len test_percent = Ok test_size /\
           random_split len [(Z.of_nat len - valid_size - test_size)%Z; valid_size; test_size] g0
           = (Ok [tr; va; te], g') /\
           secs = (Subset tr, Some (Subset va), Some (Subset te))
    else exists tr va,
           random_split len [(Z.of_nat len - valid_size)%Z; valid_size] g0
           = (Ok [tr; va], g') /\
           secs = (Subset tr, Some (Subset va), None).

(** The first half of [load_split], up to the unpacking of what
    [random_split] returned: the sections or the exception, and the state
    the generator is left in ([None]: not touched). *)
Definition partition `{Torch} (len : nat) (si : gmap string pyval)
  : result sections * option rng_state :=
  match getitem si "random_seed" ≫= torch_manual_seed with
  | Raise e => (Raise e, None)
  | Ok g =>
      let sizes : result (list Z * bool) :=
        vp ← getitem si "valid_percent";
        valid_size ← percent_size len vp;
        tp ← getitem si "test_percent";
        if truthy tp then
          test_size ← percent_size len tp;
          Ok ([(Z.of_nat len - valid_size - test_size)%Z; valid_size; test_size], true)
        else
          Ok ([(Z.of_nat len - valid_size)%Z; valid_size], false) in
      match sizes with
      | Raise e => (Raise e, Some g)
      | Ok (lengths, with_test) =>
          let '(parts, g) := random_split len lengths g in
          (match parts, with_test with
           | Raise e, _ => Raise e
           | Ok [tr; va; te], true => Ok (Subset tr, Some (Subset va), Some (Subset te))
           | Ok [tr; va], false => Ok (Subset tr, Some (Subset va), None)
           | Ok _, _ => Raise ValueError
           end, Some g)
      end
  end.

(** The second half of [load_split]: the batch size is taken over and,
    when one is known, the loaders are rebuilt. *)
Definition with_loaders `{Torch} (batch_size_arg : option nat) (w : DatasetWrapper)
  : result unit * DatasetWrapper :=
  let w := match batch_size_arg with
           | Some bs => set_batch_size w (Some bs)
           | None => w
           end in
  match batch_size w with
  | Some _ => new_loaders None true w
  | None => (Ok tt, w)
  end.

End SplitSpec.

Module TagsSpec.
Import Numeric Data.

(** Row-major order on (panel, edge) positions. *)
Definition before (e1 e2 : nat * nat) : Prop :=
  fst e1 < fst e2 \/ (fst e1 = fst e2 /\ snd e1 < snd e2).

(** An edge position inside the tag tensor whose tag passes the code's
    test against the zero tag. *)
Definition candidate (stitch_tags : list (list (list Q))) (e : nat * nat) : Prop :=
  fst e < length stitch_tags /\
  snd e < length (nth 0 stitch_tags []) /\
  all_isclose_positional (tag_at stitch_tags e)
    (repeat 0%Q (length (nth 0 (nth 0 stitch_tags []) []))) (1 # 100) = false.

(** Three edges of one panel carrying the same tag. *)
Definition triple_tags : list (list (list Q)) :=
  [[ [1; 2; 3]; [1; 2; 3]; [1; 2; 3] ]]%Q.

End TagsSpec.

(* ===================================================================== *)
(** ** src/packages/mayaqltools/mayascene.py: [_applyEuler]               *)
(* ===================================================================== *)

Module MayaRotation.
Import Numeric MayaScene.

(** numpy's cosine and sine of an angle given in degrees:
    [np.cos(np.deg2rad(a))] and [np.sin(np.deg2rad(a))]. *)
Class Trig : Type := { cos_deg : Q -> Q; sin_deg : Q -> Q }.

(** [_applyEuler(vector, eulerRot)] on a 3D vector and three angles: the
    rotation about X, then about Y, then about Z, each written into a copy
    of the previous vector. *)
Definition _applyEuler `{Trig} (vector eulerRot : point) : point :=
  let '(v0, v1, v2) := vector in
  let '(r0, r1, r2) := eulerRot in
  (* X *)
  let x0 := v0 in
  let x1 := (v1 * cos_deg r0 - v2 * sin_deg r0)%Q in
  let x2 := (v1 * sin_deg r0 + v2 * cos_deg r0)%Q in
  (* Y *)
  let y0 := (x0 * cos_deg r1 + x2 * sin_deg r1)%Q in
  let y1 := x1 in
  let y2 := (- x0 * sin_deg r1 + x2 * cos_deg r1)%Q in
  (* Z *)
  let z0 := (y0 * cos_deg r2 - y1 * sin_deg r2)%Q in
  let z1 := (y0 * sin_deg r2 + y1 * cos_deg r2)%Q in
  let z2 := y2 in
  (z0, z1, z2).

Definition squared_length (p : point) : Q :=
  let '(x, y, z) := p in (x * x + y * y + z * z)%Q.

(** An angle whose cosine and sine lie on the unit circle. *)
Definition on_unit_circle `{Trig} (a : Q) : Prop :=
  (cos_deg a * cos_deg a + sin_deg a * sin_deg a == 1)%Q.

(** Exact cosine and sine for the angles 0 and 90 (any other angle is
    treated as 0). *)
Definition quarter_turns : Trig :=
  {| cos_deg := fun a => if Qeq_bool a 90 then 0%Q else 1%Q;
     sin_deg := fun a => if Qeq_bool a 90 then 1%Q else 0%Q |}.

End MayaRotation.
(* ===================================================================== *)
(** * Properties                                                          *)
(* ===================================================================== *)

(** ** Python plumbing *)

Lemma py_getitem_nat {A} (l : list A) (i : nat) (x : A) :
  l !! i = Some x -> py_getitem l (Z.of_nat i) = Ok x.
Proof.
  intros Hl. unfold py_getitem. cbv zeta.
  pose proof (lookup_lt_Some _ _ _ Hl) as Hlt.
  assert (H0 : (Z.of_nat i <? 0)%Z = false) by (apply Z.ltb_ge; lia).
  assert (H1 : (Z.of_nat (length l) <=? Z.of_nat i)%Z = false) by (apply Z.leb_gt; lia).
  rewrite !H0, H1. simpl. rewrite Nat2Z.id, Hl. reflexivity.
Qed.

Lemma py_getitem_snoc {A} (l : list A) (a : A) :
  py_getitem (l ++ [a]) (-1) = Ok a.
Proof.
  unfold py_getitem. cbv zeta. rewrite length_app. simpl length.
  change (-1 <? 0)%Z with true. cbv iota.
  assert (H0 : (-1 + Z.of_nat (length l + 1) <? 0)%Z = false) by (apply Z.ltb_ge; lia).
  assert (H1 : (Z.of_nat (length l + 1) <=? -1 + Z.of_nat (length l + 1))%Z = false)
    by (apply Z.leb_gt; lia).
  rewrite H0, H1. simpl.
  replace (Z.to_nat (-1 + Z.of_nat (length l + 1))) with (length l) by lia.
  rewrite list_lookup_middle by reflexivity. reflexivity.
Qed.

Lemma py_getitem_last {A} (l : list A) (d : A) :
  l <> [] -> py_getitem l (-1) = Ok (List.last l d).
Proof.
  intros Hne. rewrite (app_removelast_last d Hne) at 1. apply py_getitem_snoc.
Qed.

Lemma py_getitem_empty {A} (i : Z) : py_getitem (@nil A) i = Raise IndexError.
Proof.
  unfold py_getitem. cbv zeta. simpl length.
  destruct (Z.ltb_spec i 0).
  - assert (H0 : (i + Z.of_nat 0 <? 0)%Z = true) by (apply Z.ltb_lt; lia).
    rewrite H0. reflexivity.
  - assert (H0 : (i <? 0)%Z = false) by (apply Z.ltb_ge; lia).
    assert (H1 : (Z.of_nat 0 <=? i)%Z = true) by (apply Z.leb_le; lia).
    rewrite H0, H1. reflexivity.
Qed.

Lemma rmap_ok_length {A B} (f : A -> result B) (l : list A) (r : list B) :
  rmap f l = Ok r -> length r = length l.
Proof.
  revert r. induction l as [|x l IH]; intros r; simpl.
  - intros [= <-]. reflexivity.
  - destruct (f x) as [y|e]; simpl; [|discriminate].
    destruct (rmap f l) as [ys|e]; simpl; [|discriminate].
    intros [= <-]. simpl. f_equal. apply IH. reflexivity.
Qed.

Lemma rmap_all_ok {A B} (f : A -> result B) (g : A -> B) (l : list A) :
  (forall x, x ∈ l -> f x = Ok (g x)) -> rmap f l = Ok (map g l).
Proof.
  induction l as [|x l IH]; intros Hf; simpl; [reflexivity|].
  rewrite (Hf x) by constructor. simpl.
  rewrite IH; [reflexivity|].
  intros y Hy. apply Hf. constructor. exact Hy.
Qed.

Lemma rmap_ok_lookup {A B} (f : A -> result B) (l : list A) (r : list B) i x :
  rmap f l = Ok r -> l !! i = Some x -> exists y, f x = Ok y /\ r !! i = Some y.
Proof.
  revert r i. induction l as [|a l IH]; intros r i; simpl.
  - intros _ Hx. discriminate.
  - destruct (f a) as [y|e] eqn:Hfa; simpl; [|discriminate].
    destruct (rmap f l) as [ys|e] eqn:Hr; simpl; [|discriminate].
    intros [= <-] Hx. destruct i as [|i]; simpl in *.
    + injection Hx as <-. eauto.
    + eapply IH; eauto.
Qed.

(** ** Decoding one panel: [panel_from_numeric] *)

Section PanelFromNumeric.
Import Numeric PatternConverter PatternSpec.
Context `{ext : External}.

Lemma walk_edges_closed rows : forall idx verts es v,
  length verts = idx -> 
  walk_edges rows idx (verts ++ [v]) es = (verts ++ v :: scan v rows, es ++ edges_from idx rows).
Proof.
  induction rows as [|r rows IH]; intros idx verts es v Hlen; simpl.
  - rewrite app_nil_r. reflexivity.
  - rewrite app_nth2 by lia. rewrite Hlen, Nat.sub_diag. simpl nth.
    rewrite (IH (S idx) (verts ++ [v]) _ _) by (rewrite length_app; simpl; lia).
    rewrite <- !app_assoc. reflexivity.
Qed.

Lemma walk_edges_origin rows :
  walk_edges rows 0 [(0, 0)%Q] [] = ((0, 0)%Q :: scan (0, 0)%Q rows, edges_from 0 rows).
Proof. exact (walk_edges_closed rows 0 [] [] (0, 0)%Q eq_refl). Qed.

Lemma scan_lookup rows : forall v k, k <= length rows ->
  (v :: scan v rows) !! k = Some (landing_from v (take k rows)).
Proof.
  induction rows as [|r rows IH]; intros v k Hk; simpl in *.
  - assert (k = 0) as -> by lia. reflexivity.
  - destruct k as [|k]; [reflexivity|]. simpl.
    apply (IH (vadd v (dx r, dy r)) k). lia.
Qed.

Lemma scan_length v rows : length (scan v rows) = length rows.
Proof. revert v. induction rows; intros; simpl; auto. Qed.

Lemma scan_last rows : forall v d,
  List.last (v :: scan v rows) d = landing_from v rows.
Proof.
  induction rows as [|r rows IH]; intros v d; [reflexivity|].
  change (List.last (v :: scan v (r :: rows)) d)
    with (List.last (vadd v (dx r, dy r) :: scan (vadd v (dx r, dy r)) rows) d).
  rewrite IH. reflexivity.
Qed.

Lemma edges_from_length idx rows : length (edges_from idx rows) = length rows.
Proof. revert idx. induction rows; intros; simpl; auto. Qed.

Lemma edges_from_lookup rows : forall idx k r, rows !! k = Some r ->
  edges_from idx rows !! k = Some (_edge_dict (idx + k) (idx + k + 1) (cx r, cy r)).
Proof.
  induction rows as [|r0 rows IH]; intros idx k r Hk; [discriminate|].
  destruct k as [|k]; simpl in *.
  - injection Hk as <-. rewrite Nat.add_0_r. reflexivity.
  - rewrite (IH (S idx) k r Hk).
    replace (idx + S k) with (S idx + k) by lia. reflexivity.
Qed.

Lemma landing_snoc rows r :
  landing (rows ++ [r]) = vadd (landing rows) (dx r, dy r).
Proof. unfold landing, landing_from. rewrite fold_left_app. reflexivity. Qed.

Lemma placed_vertices rot transl pnl : vertices (placed rot transl pnl) = vertices pnl.
Proof. destruct rot, transl; reflexivity. Qed.

Lemma placed_edges rot transl pnl : edges (placed rot transl pnl) = edges pnl.
Proof. destruct rot, transl; reflexivity. Qed.

Lemma panel_from_numeric_rows panel_name rows rot transl pat :
  rows <> [] ->
  panel_from_numeric panel_name rows rot transl false pat =
    Ok (with_panel pat panel_name
          (placed rot transl
             (rebuilt (default panel_spec_template (panels pat !! panel_name)) rows)),
        rebuilt_log panel_name rows).
Proof.
  intros Hne. unfold panel_from_numeric. simpl mbind. unfold mbind, result_bind, rbind.
  rewrite walk_edges_origin.
  rewrite (py_getitem_last rows zero_row Hne).
  rewrite scan_last.
  assert (Hland : vadd (landing_from (0, 0)%Q (removelast rows))
                       (dx (List.last rows zero_row), dy (List.last rows zero_row))
                  = landing rows).
  { change (landing_from (0, 0)%Q (removelast rows)) with (landing (removelast rows)).
    rewrite <- (landing_snoc (removelast rows) (List.last rows zero_row)).
    rewrite <- (app_removelast_last zero_row Hne). reflexivity. }
  rewrite Hland.
  unfold rebuilt, rebuilt_log, with_panel, placed.
  destruct (returns_to_origin (landing rows)); destruct rot, transl; reflexivity.
Qed.

Lemma removelast_length {A} (l : list A) : length (removelast l) = length l - 1.
Proof.
  destruct l as [|a l]; [reflexivity|].
  assert (Hne : a :: l <> []) by discriminate.
  rewrite (app_removelast_last a Hne) at 2.
  rewrite length_app. simpl. lia.
Qed.

Lemma panel_from_numeric_padded panel_name rows rot transl pat :
  panel_from_numeric panel_name rows rot transl true pat =
    if length (strip_padding rows) <? 3 then Raise EmptyPanelError
    else panel_from_numeric panel_name (strip_padding rows) rot transl false pat.
Proof.
  unfold panel_from_numeric.
  destruct (length (strip_padding rows) <? 3); reflexivity.
Qed.

End PanelFromNumeric.

(** ** Closeness tests against zero *)

Section Closeness.
Import Numeric PatternConverter PatternSpec.

Lemma isclose_zero rtol atol a :
  isclose rtol atol a 0 = true <-> (Qabs a <= atol)%Q.
Proof.
  unfold isclose. rewrite Qle_bool_iff.
  assert (H1 : (Qabs (a - 0) == Qabs a)%Q) by (apply Qabs_wd; ring).
  assert (H2 : (atol + rtol * Qabs 0 == atol)%Q) by (change (Qabs 0) with 0%Q; ring).
  rewrite H1, H2. reflexivity.
Qed.

Lemma all_close_zero_Forall rtol atol v :
  all_close_zero rtol atol v = true <-> Forall (fun a => (Qabs a <= atol)%Q) v.
Proof.
  unfold all_close_zero. rewrite forallb_forall, List.Forall_forall.
  split; intros H a Ha.
  - apply (proj1 (isclose_zero rtol atol a)). auto.
  - apply (proj2 (isclose_zero rtol atol a)). auto.
Qed.

Lemma returns_to_origin_iff (p : vertex) :
  returns_to_origin p = true <-> (Qabs (fst p) <= 3 /\ Qabs (snd p) <= 3)%Q.
Proof.
  unfold returns_to_origin. rewrite all_close_zero_Forall.
  split.
  - intros H. inversion H as [|? ? Hx H']; subst.
    inversion H' as [|? ? Hy _]; subst. auto.
  - intros [Hx Hy]. repeat constructor; assumption.
Qed.

Lemma is_padding_iff atol r :
  is_padding atol r = true <->
  (Qabs (dx r) <= atol /\ Qabs (dy r) <= atol /\
   Qabs (cx r) <= atol /\ Qabs (cy r) <= atol)%Q.
Proof.
  unfold is_padding, row_components. rewrite all_close_zero_Forall.
  split.
  - intros H. inversion H as [|? ? H1 H']; subst.
    inversion H' as [|? ? H2 H'']; subst.
    inversion H'' as [|? ? H3 H''']; subst.
    inversion H''' as [|? ? H4 _]; subst. auto.
  - intros (H1 & H2 & H3 & H4). repeat constructor; assumption.
Qed.

Lemma strip_padding_zeros n : strip_padding (repeat zero_row n) = [].
Proof. induction n as [|n IH]; [reflexivity|]. simpl. exact IH. Qed.

Lemma strip_padding_app rows rows' :
  strip_padding (rows ++ rows') = strip_padding rows ++ strip_padding rows'.
Proof. unfold strip_padding. apply filter_app. Qed.

End Closeness.

(** ** C3: reconstruction of one panel *)

Section PanelReconstruction.
Import Numeric PatternConverter PatternSpec.
Context `{ext : External}.

Lemma take_removelast {A} (l : list A) k :
  k < length l -> take k (removelast l) = take k l.
Proof.
  intros Hk. destruct l as [|a l]; [simpl in Hk; lia|].
  assert (Hne : a :: l <> []) by discriminate.
  pose proof (removelast_length (a :: l)) as Hlen.
  rewrite (app_removelast_last a Hne) at 2.
  rewrite take_app_le by lia. reflexivity.
Qed.

Lemma rebuilt_vertices old rows k :
  rows <> [] -> k < length rows ->
  vertices (rebuilt old rows) !! k = Some (landing (take k rows)).
Proof.
  intros Hne Hk.
  assert (Hk' : k <= length (removelast rows)) by (rewrite removelast_length; lia).
  pose proof (scan_lookup (removelast rows) (0, 0)%Q k Hk') as Hs.
  rewrite take_removelast in Hs by exact Hk.
  unfold rebuilt; cbv zeta. destruct (returns_to_origin (landing rows)); cbn [vertices].
  - exact Hs.
  - rewrite lookup_app_l; [exact Hs|].
    simpl. rewrite scan_length. lia.
Qed.

Lemma rebuilt_edges_length old rows :
  rows <> [] -> length (edges (rebuilt old rows)) = length rows.
Proof.
  intros Hne. pose proof (removelast_length rows) as Hlen.
  assert (0 < length rows) by (destruct rows; [congruence | simpl; lia]).
  unfold rebuilt; cbv zeta. destruct (returns_to_origin (landing rows)); cbn [edges];
    rewrite length_app, edges_from_length; simpl; lia.
Qed.

Lemma rebuilt_inner_edge old rows k :
  k < length rows - 1 ->
  exists e, edges (rebuilt old rows) !! k = Some e /\ endpoints e = (k, k + 1).
Proof.
  intros Hk.
  assert (Hk' : k < length (removelast rows)) by (rewrite removelast_length; lia).
  destruct (lookup_lt_is_Some_2 _ _ Hk') as [r Hr].
  pose proof (edges_from_lookup (removelast rows) 0 k r Hr) as He.
  exists (_edge_dict (0 + k) (0 + k + 1) (cx r, cy r)). split; [|reflexivity].
  unfold rebuilt; cbv zeta. destruct (returns_to_origin (landing rows)); cbn [edges];
    (rewrite lookup_app_l; [exact He | rewrite edges_from_length; exact Hk']).
Qed.

Lemma rebuilt_closed old rows :
  rows <> [] -> returns_to_origin (landing rows) = true ->
  length (vertices (rebuilt old rows)) = length rows /\
  exists e, edges (rebuilt old rows) !! (length rows - 1) = Some e /\
            endpoints e = (length rows - 1, 0).
Proof.
  intros Hne Hclose. pose proof (removelast_length rows) as Hlen.
  assert (0 < length rows) by (destruct rows; [congruence | simpl; lia]).
  unfold rebuilt; cbv zeta. rewrite Hclose. cbn [vertices edges]. split.
  - simpl. rewrite scan_length. lia.
  - eexists. split.
    + rewrite lookup_app_r by (rewrite edges_from_length; lia).
      rewrite edges_from_length, Hlen, Nat.sub_diag. reflexivity.
    + simpl. rewrite scan_length, Hlen. f_equal. lia.
Qed.

Lemma rebuilt_open old rows :
  rows <> [] -> returns_to_origin (landing rows) = false ->
  length (vertices (rebuilt old rows)) = S (length rows) /\
  vertices (rebuilt old rows) !! length rows = Some (landing rows) /\
  exists e, edges (rebuilt old rows) !! (length rows - 1) = Some e /\
            endpoints e = (length rows - 1, length rows).
Proof.
  intros Hne Hopen. pose proof (removelast_length rows) as Hlen.
  assert (0 < length rows) by (destruct rows; [congruence | simpl; lia]).
  unfold rebuilt; cbv zeta. rewrite Hopen. cbn [vertices edges]. split; [|split].
  - rewrite length_app. simpl. rewrite scan_length. lia.
  - rewrite lookup_app_r by (simpl; rewrite scan_length; lia).
    simpl length. rewrite scan_length, Hlen.
    replace (length rows - S (length rows - 1)) with 0 by lia. reflexivity.
  - eexists. split.
    + rewrite lookup_app_r by (rewrite edges_from_length; lia).
      rewrite edges_from_length, Hlen, Nat.sub_diag. reflexivity.
    + simpl. rewrite scan_length, Hlen. f_equal; lia.
Qed.

End PanelReconstruction.

Section PanelOutline.
Import Numeric PatternConverter PatternSpec.

(** C3 (as stated, refuted): an edge-sequence tensor with no rows, given to
    [panel_from_numeric] with [padded=False], does not get its vertices
    reconstructed: indexing the last row, [edge_sequence[-1]], raises
    [IndexError]. *)
Lemma panel_from_numeric_empty_sequence_raises :
  @panel_from_numeric no_placement "front" [] None None false strap_pattern
  = Raise IndexError.
Proof. reflexivity. Qed.

(** C3 (amended): for every edge sequence that reaches the reconstruction
    step with at least one row (given with [padded=False] and non-empty, or
    given with [padded=True] and keeping at least three rows after padding
    is stripped), [panel_from_numeric] called without a rotation and a
    translation returns normally; and whenever a call on such a sequence
    returns, with or without a rotation and a translation (whose conversion
    is left to scipy and may raise), the stored panel has: vertex [k] equal
    to the sum, started at the origin (0,0), of the first [k] displacements;
    inner edge [k] joining vertices [k] and [k+1]; if the landing point of
    the final edge is within 3 of zero in both coordinates, no extra vertex,
    a final edge closing onto vertex 0 and no warning; otherwise one extra
    vertex at the landing point, a final edge ending there and exactly one
    warning. *)
Theorem panel_from_numeric_reconstruction `{ext : External}
    (panel_name : string) (edge_sequence : list edge_row)
    (padded : bool) (pat : pattern) :
  let rows := if padded then strip_padding edge_sequence else edge_sequence in
  (if padded then 3 <= length rows else rows <> []) ->
  (exists pat' log,
     panel_from_numeric panel_name edge_sequence None None padded pat = Ok (pat', log)) /\
  forall (rot transl : option (list Q)) (pat' : pattern) (log : list message),
    panel_from_numeric panel_name edge_sequence rot transl padded pat = Ok (pat', log) ->
    exists pnl,
      panels pat' !! panel_name = Some pnl /\
      (forall k, k < length rows -> vertices pnl !! k = Some (landing (take k rows))) /\
      (forall k, k < length rows - 1 ->
         exists e, edges pnl !! k = Some e /\ endpoints e = (k, k + 1)) /\
      length (edges pnl) = length rows /\
      ((Qabs (fst (landing rows)) <= 3 /\ Qabs (snd (landing rows)) <= 3)%Q ->
         length (vertices pnl) = length rows /\
         (exists e, edges pnl !! (length rows - 1) = Some e /\
                    endpoints e = (length rows - 1, 0)) /\
         log = []) /\
      (~ (Qabs (fst (landing rows)) <= 3 /\ Qabs (snd (landing rows)) <= 3)%Q ->
         length (vertices pnl) = S (length rows) /\
         vertices pnl !! length rows = Some (landing rows) /\
         (exists e, edges pnl !! (length rows - 1) = Some e /\
                    endpoints e = (length rows - 1, length rows)) /\
         log = [WarnNotClosed panel_name]).
Proof.
  intros rows Hrows.
  assert (Hne : rows <> []).
  { destruct padded; [|exact Hrows]. destruct rows; [simpl in Hrows; lia | discriminate]. }
  assert (Hrun : forall rot transl,
            panel_from_numeric panel_name edge_sequence rot transl padded pat
            = panel_from_numeric panel_name rows rot transl false pat).
  { intros rot transl. subst rows. destruct padded; [|reflexivity].
    rewrite panel_from_numeric_padded.
    destruct (Nat.ltb_spec (length (strip_padding edge_sequence)) 3); [lia | reflexivity]. }
  split.
  { rewrite Hrun, (panel_from_numeric_rows _ _ _ _ _ Hne). eauto. }
  intros rot transl pat' log.
  rewrite Hrun, (panel_from_numeric_rows _ _ _ _ _ Hne).
  set (old := default panel_spec_template (panels pat !! panel_name)).
  intros [= <- <-].
  exists (placed rot transl (rebuilt old rows)).
  split; [apply lookup_insert_eq|].
  rewrite placed_vertices, placed_edges.
  split; [intros k Hk; apply rebuilt_vertices; assumption|].
  split; [intros k Hk; apply rebuilt_inner_edge; assumption|].
  split; [apply rebuilt_edges_length; assumption|].
  split.
  - intros Hclose. apply returns_to_origin_iff in Hclose.
    destruct (rebuilt_closed old rows Hne Hclose) as [Hlen He].
    unfold rebuilt_log. rewrite Hclose. auto.
  - intros Hopen.
    assert (Hopen' : returns_to_origin (landing rows) = false).
    { destruct (returns_to_origin (landing rows)) eqn:E; [|reflexivity].
      exfalso. apply Hopen. apply returns_to_origin_iff. exact E. }
    destruct (rebuilt_open old rows Hne Hopen') as (Hlen & Hv & He).
    unfold rebuilt_log. rewrite Hopen'. auto.
Qed.

(** A triangle that does not come back to the origin, decoded unpadded. *)
Lemma panel_from_numeric_reconstruction_witness :
  exists pat' log pnl,
    @panel_from_numeric no_placement "front"
      [ {| dx := 10; dy := 0; cx := 0; cy := 0 |};
        {| dx := 0; dy := 10; cx := 0; cy := 0 |};
        {| dx := -10; dy := -5; cx := 0; cy := 0 |} ] None None false strap_pattern
      = Ok (pat', log) /\
    panels pat' !! "front" = Some pnl /\
    length (vertices pnl) = 4 /\ log = [WarnNotClosed "front"].
Proof.
  destruct (@panel_from_numeric_reconstruction no_placement "front"
              [ {| dx := 10; dy := 0; cx := 0; cy := 0 |};
                {| dx := 0; dy := 10; cx := 0; cy := 0 |};
                {| dx := -10; dy := -5; cx := 0; cy := 0 |} ] false
              strap_pattern)
    as ((pat' & log & Hrun) & Hall).
  - discriminate.
  - destruct (Hall None None pat' log Hrun) as (pnl & Hpnl & _ & _ & _ & _ & Hopen).
    exists pat', log, pnl. split; [exact Hrun|]. split; [exact Hpnl|].
    destruct Hopen as (Hlen & _ & _ & Hlog).
    + intros [_ Hy]. vm_compute in Hy. apply Hy. reflexivity.
    + split; [exact Hlen | exact Hlog].
Defined.

End PanelOutline.

(** ** The slot loop of [pattern_from_tensors] *)

Section DecodeSlots.
Import Numeric PatternConverter PatternSpec.
Context `{ext : External}.

Lemma slot_name_inj i j : slot_name i = slot_name j -> i = j.
Proof.
  unfold slot_name. intros H. simpl in H.
  injection H as H. exact (pretty_nat_inj _ _ H).
Qed.

Lemma optional_item_cases x idx :
  (exists v, optional_item x idx = Ok v) \/ optional_item x idx = Raise IndexError.
Proof.
  unfold optional_item. destruct x as [l|]; [|left; eauto].
  unfold py_getitem. cbv zeta.
  destruct ((_ <? 0)%Z || (_ <=? _)%Z); [right; reflexivity|].
  destruct (l !! _); [left; eexists; reflexivity | right; reflexivity].
Qed.

Lemma attempt_cases idx slot rots transls pat :
  attempt idx slot rots transls pat = Raise IndexError \/
  (length (strip_padding slot) < 3 /\
   attempt idx slot rots transls pat = Raise EmptyPanelError) \/
  (3 <= length (strip_padding slot) /\
   exists pnl log, attempt idx slot rots transls pat
                   = Ok (with_panel pat (slot_name idx) pnl, log)).
Proof.
  unfold attempt.
  destruct (optional_item_cases rots idx) as [[rot ->] | ->]; [|left; reflexivity].
  destruct (optional_item_cases transls idx) as [[transl ->] | ->]; [|left; reflexivity].
  right. simpl. unfold mbind, result_bind, rbind.
  rewrite panel_from_numeric_padded.
  destruct (Nat.ltb_spec (length (strip_padding slot)) 3) as [Hlt | Hge].
  - left. split; [exact Hlt | reflexivity].
  - right. split; [exact Hge|].
    assert (Hne : strip_padding slot <> []).
    { destruct (strip_padding slot); [simpl in Hge; lia | discriminate]. }
    rewrite (panel_from_numeric_rows _ _ _ _ _ Hne). eauto.
Qed.

Lemma attempt_no_placement idx slot pat :
  (length (strip_padding slot) < 3 /\
   attempt idx slot None None pat = Raise EmptyPanelError) \/
  (3 <= length (strip_padding slot) /\
   exists pnl log, attempt idx slot None None pat
                   = Ok (with_panel pat (slot_name idx) pnl, log)).
Proof.
  destruct (attempt_cases idx slot None None pat) as [H | H]; [|exact H].
  unfold attempt in H. simpl in H. unfold mbind, result_bind, rbind in H.
  rewrite panel_from_numeric_padded in H.
  destruct (length (strip_padding slot) <? 3) eqn:E; [discriminate|].
  apply Nat.ltb_ge in E.
  assert (Hne : strip_padding slot <> []).
  { destruct (strip_padding slot); [simpl in E; lia | discriminate]. }
  rewrite (panel_from_numeric_rows _ _ _ _ _ Hne) in H. discriminate.
Qed.

Lemma decode_slots_step idx slot rest rots transls pat in_order log :
  decode_slots idx (slot :: rest) rots transls true pat in_order log =
    match attempt idx slot rots transls pat with
    | Ok (pat', msgs) =>
        decode_slots (S idx) rest rots transls true pat'
                     (in_order ++ [slot_name idx]) (log ++ msgs)
    | Raise EmptyPanelError =>
        decode_slots (S idx) rest rots transls true pat in_order log
    | Raise e => Raise e
    end.
Proof. reflexivity. Qed.

Lemma surviving_cons idx slot rest :
  surviving idx (slot :: rest) =
    (if 3 <=? length (strip_padding slot) then [slot_name idx] else [])
      ++ surviving (S idx) rest.
Proof. reflexivity. Qed.

Lemma surviving_elem rep : forall idx nm,
  nm ∈ surviving idx rep <->
  exists j slot, rep !! j = Some slot /\ nm = slot_name (idx + j) /\
                 3 <= length (strip_padding slot).
Proof.
  induction rep as [|slot rest IH]; intros idx nm.
  - simpl. split; [intros H; inversion H | intros (j & s & H & _); discriminate].
  - rewrite surviving_cons, elem_of_app, IH. split.
    + intros [H | (j & s & Hj & -> & Hs)].
      * destruct (Nat.leb_spec 3 (length (strip_padding slot))) as [Hge | Hlt].
        -- apply list_elem_of_singleton in H. subst nm.
           exists 0, slot. rewrite Nat.add_0_r. auto.
        -- inversion H.
      * exists (S j), s. split; [exact Hj|]. split; [f_equal; lia | exact Hs].
    + intros (j & s & Hj & -> & Hs). destruct j as [|j]; simpl in Hj.
      * injection Hj as ->. left.
        destruct (Nat.leb_spec 3 (length (strip_padding s))) as [Hge | Hlt]; [|lia].
        rewrite Nat.add_0_r. constructor.
      * right. exists j, s. split; [exact Hj|]. split; [f_equal; lia | exact Hs].
Qed.

(** What the slot loop has done when it returns normally. *)
Lemma decode_slots_ok rep : forall idx rots transls pat in_order log pat' order' log',
  decode_slots idx rep rots transls true pat in_order log = Ok (pat', order', log') ->
  order' = in_order ++ surviving idx rep /\
  (forall nm, is_Some (panels pat' !! nm) <->
              is_Some (panels pat !! nm) \/ nm ∈ surviving idx rep).
Proof.
  induction rep as [|slot rest IH];
    intros idx rots transls pat in_order log pat' order' log' Hrun.
  - simpl in Hrun. injection Hrun as <- <- <-. simpl. rewrite app_nil_r.
    split; [reflexivity|]. intros nm. split; [auto|].
    intros [H | H]; [exact H | inversion H].
  - rewrite decode_slots_step in Hrun.
    destruct (attempt_cases idx slot rots transls pat)
      as [Herr | [[Hlt Herr] | [Hge (pnl & msgs & Hok)]]].
    + rewrite Herr in Hrun. discriminate.
    + rewrite Herr in Hrun. apply IH in Hrun as [-> Hdom].
      rewrite surviving_cons.
      destruct (Nat.leb_spec 3 (length (strip_padding slot))); [lia|].
      simpl. split; [reflexivity | exact Hdom].
    + rewrite Hok in Hrun. apply IH in Hrun as [-> Hdom].
      rewrite surviving_cons.
      destruct (Nat.leb_spec 3 (length (strip_padding slot))); [|lia].
      rewrite <- app_assoc. split; [reflexivity|].
      intros nm. rewrite Hdom. simpl panels.
      rewrite elem_of_app, list_elem_of_singleton.
      destruct (decide (nm = slot_name idx)) as [-> | Hne].
      * rewrite lookup_insert_eq. split; [intros _; right; left; reflexivity|].
        intros _. left. eauto.
      * rewrite lookup_insert_ne by congruence. tauto.
Qed.

(** The slot loop never lets an [EmptyPanelError] escape. *)
Lemma decode_slots_catches rep : forall idx rots transls pat in_order log,
  decode_slots idx rep rots transls true pat in_order log <> Raise EmptyPanelError.
Proof.
  induction rep as [|slot rest IH]; intros idx rots transls pat in_order log.
  - discriminate.
  - rewrite decode_slots_step.
    destruct (attempt idx slot rots transls pat) as [[pat' msgs] | e].
    + apply IH.
    + destruct e; try discriminate. apply IH.
Qed.

(** Without placement tensors the slot loop always returns normally. *)
Lemma decode_slots_total rep : forall idx pat in_order log,
  exists pat' order' log',
    decode_slots idx rep None None true pat in_order log = Ok (pat', order', log').
Proof.
  induction rep as [|slot rest IH]; intros idx pat in_order log.
  - simpl. eauto.
  - rewrite decode_slots_step.
    destruct (attempt_no_placement idx slot pat)
      as [[_ ->] | [_ (pnl & msgs & ->)]]; apply IH.
Qed.

End DecodeSlots.

(** ** C4: empty panels are skipped *)

Section EmptySlots.
Import Numeric PatternConverter PatternSpec.

Lemma rmap_catches {A B} (f : A -> result B) (l : list A) (e : error) :
  (forall x, f x <> Raise e) -> rmap f l <> Raise e.
Proof.
  intros Hf. induction l as [|x l IH]; simpl; [discriminate|].
  destruct (f x) as [y|e'] eqn:Hx; simpl.
  - destruct (rmap f l) as [ys|e'']; simpl; [discriminate | exact IH].
  - intros [= ->]. apply (Hf x). exact Hx.
Qed.

Lemma decode_side_not_empty_panel epp order id :
  decode_side epp order id <> Raise EmptyPanelError.
Proof.
  unfold decode_side. destruct (_ >? _)%Z; [discriminate|].
  unfold py_getitem. cbv zeta.
  destruct ((_ <? 0)%Z || (_ <=? _)%Z); [discriminate|].
  destruct (order !! _); discriminate.
Qed.

Lemma decode_stitch_not_empty_panel epp order col :
  decode_stitch epp order col <> Raise EmptyPanelError.
Proof.
  unfold decode_stitch.
  pose proof (decode_side_not_empty_panel epp order (fst col)) as H0.
  pose proof (decode_side_not_empty_panel epp order (snd col)) as H1.
  destruct (decode_side epp order (fst col)); simpl;
    [|intros [= ->]; apply H0; reflexivity].
  destruct (decode_side epp order (snd col)); simpl;
    [discriminate | intros [= ->]; apply H1; reflexivity].
Qed.

Lemma pattern_from_tensors_ok `{ext : External} rep rots transls st pat pat' log :
  pattern_from_tensors rep rots transls st true pat = Ok (pat', log) ->
  panel_order pat' = surviving 0 (slots rep) /\
  (forall nm, is_Some (panels pat' !! nm) <-> nm ∈ surviving 0 (slots rep)).
Proof.
  unfold pattern_from_tensors. cbv zeta.
  match goal with
  | |- context [decode_slots 0 (slots rep) rots transls true ?p0 [] []] =>
      set (pat0 := p0)
  end.
  destruct (decode_slots 0 (slots rep) rots transls true pat0 [] [])
    as [[[pat1 order1] log1] | e] eqn:Hslots; simpl; [|discriminate].
  apply decode_slots_ok in Hslots as [Horder Hdom]. simpl in Horder.
  assert (Hdom' : forall nm, is_Some (panels pat1 !! nm)
                             <-> nm ∈ surviving 0 (slots rep)).
  { intros nm. rewrite Hdom. subst pat0. simpl. rewrite lookup_empty.
    split; [intros [[x Hx] | H]; [discriminate | exact H] | auto]. }
  destruct st as [columns|]; simpl.
  - destruct (rmap _ columns); simpl; [|discriminate].
    intros [= <- <-]. simpl. auto.
  - intros [= <- <-]. simpl. auto.
Qed.

Lemma surviving_slot_name rep idx slot :
  rep !! idx = Some slot ->
  (slot_name idx ∈ surviving 0 rep <-> 3 <= length (strip_padding slot)).
Proof.
  intros Hslot. rewrite surviving_elem. split.
  - intros (j & s & Hj & Hname & Hs). apply slot_name_inj in Hname.
    simpl in Hname. subst j. rewrite Hslot in Hj. injection Hj as <-. exact Hs.
  - intros Hs. exists idx, slot. auto.
Qed.

(** C4: with [padded=True], [panel_from_numeric] first strips the rows all
    of whose components are within 1.5 of zero and raises [EmptyPanelError]
    when fewer than three rows remain; [pattern_from_tensors] never lets
    that error escape: when it returns, a slot with fewer than three
    remaining rows (in particular an all-zero padding slot) is absent from
    both the panels and the panel order, while every other slot is present
    in both; and without placement and stitches it always returns. *)
Theorem empty_panels_are_skipped `{ext : External}
    (rep : tensor3) (rots transls : option (list (list Q)))
    (stitches_arr : option (list (Z * Z))) (pat : pattern) :
  (forall rows r,
     r ∈ strip_padding rows <->
     r ∈ rows /\ ~ (Qabs (dx r) <= 1.5 /\ Qabs (dy r) <= 1.5 /\
                    Qabs (cx r) <= 1.5 /\ Qabs (cy r) <= 1.5)%Q) /\
  (forall nm rows rot transl p,
     length (strip_padding rows) < 3 ->
     panel_from_numeric nm rows rot transl true p = Raise EmptyPanelError) /\
  pattern_from_tensors rep rots transls stitches_arr true pat <> Raise EmptyPanelError /\
  (forall pat' log,
     pattern_from_tensors rep rots transls stitches_arr true pat = Ok (pat', log) ->
     forall idx slot, slots rep !! idx = Some slot ->
       (length (strip_padding slot) < 3 ->
          panels pat' !! slot_name idx = None /\ slot_name idx ∉ panel_order pat') /\
       (3 <= length (strip_padding slot) ->
          is_Some (panels pat' !! slot_name idx) /\ slot_name idx ∈ panel_order pat') /\
       (forall n, slot = repeat zero_row n ->
          panels pat' !! slot_name idx = None /\ slot_name idx ∉ panel_order pat')) /\
  (exists pat' log, pattern_from_tensors rep None None None true pat = Ok (pat', log)).
Proof.
  split; [|split; [|split; [|split]]].
  - intros rows r. unfold strip_padding. rewrite list_elem_of_filter.
    rewrite <- is_padding_iff. rewrite not_true_iff_false. tauto.
  - intros nm rows rot transl p Hlt. rewrite panel_from_numeric_padded.
    destruct (Nat.ltb_spec (length (strip_padding rows)) 3); [reflexivity | lia].
  - unfold pattern_from_tensors. cbv zeta.
    match goal with
    | |- context [decode_slots 0 (slots rep) rots transls true ?p0 [] []] =>
        pose proof (decode_slots_catches (slots rep) 0 rots transls p0 [] []) as Hc;
        destruct (decode_slots 0 (slots rep) rots transls true p0 [] [])
          as [[[pat1 order1] log1] | e]
    end; simpl; [|intros [= ->]; apply Hc; reflexivity].
    destruct stitches_arr as [columns|]; simpl; [|discriminate].
    pose proof (rmap_catches (decode_stitch (dim1 rep) order1) columns EmptyPanelError
                  (decode_stitch_not_empty_panel _ _)) as Hr.
    destruct (rmap _ columns); simpl;
      [discriminate | intros [= ->]; apply Hr; reflexivity].
  - intros pat' log Hrun idx slot Hslot.
    apply pattern_from_tensors_ok in Hrun as [Horder Hdom].
    pose proof (surviving_slot_name _ _ _ Hslot) as Hsurv.
    assert (Hskip : length (strip_padding slot) < 3 ->
              panels pat' !! slot_name idx = None /\ slot_name idx ∉ panel_order pat').
    { intros Hlt. split.
      - apply eq_None_not_Some. rewrite Hdom, Hsurv. lia.
      - rewrite Horder, Hsurv. lia. }
    split; [exact Hskip|]. split.
    + intros Hge. split; [apply Hdom, Hsurv, Hge | rewrite Horder; apply Hsurv, Hge].
    + intros n ->. apply Hskip. rewrite strip_padding_zeros. simpl. lia.
  - unfold pattern_from_tensors. cbv zeta.
    match goal with
    | |- context [decode_slots 0 (slots rep) None None true ?p0 [] []] =>
        destruct (decode_slots_total (slots rep) 0 p0 [] [])
          as (pat1 & order1 & log1 & ->)
    end.
    simpl. eauto.
Qed.

(** The encoded two-panel pattern padded to three panel slots: the third,
    all-zero slot is dropped on decoding while the first two are kept. *)
Lemma empty_panels_are_skipped_witness :
  exists pat',
    @pattern_from_tensors no_placement
      {| dim1 := 4;
         slots := [ [ {| dx := 20; dy := 0; cx := 0; cy := 0 |};
                      {| dx := 0; dy := 10; cx := 0; cy := 0 |};
                      {| dx := -20; dy := 0; cx := 0; cy := 0 |};
                      {| dx := 0; dy := -10; cx := 0; cy := 0 |} ];
                    repeat zero_row 4 ] |}
      None None None true two_panel_pattern = Ok (pat', [WarnNoStitches]) /\
    is_Some (panels pat' !! slot_name 0) /\
    panels pat' !! slot_name 1 = None /\ slot_name 1 ∉ panel_order pat'.
Proof.
  pose proof (@empty_panels_are_skipped no_placement
    {| dim1 := 4;
       slots := [ [ {| dx := 20; dy := 0; cx := 0; cy := 0 |};
                    {| dx := 0; dy := 10; cx := 0; cy := 0 |};
                    {| dx := -20; dy := 0; cx := 0; cy := 0 |};
                    {| dx := 0; dy := -10; cx := 0; cy := 0 |} ];
                  repeat zero_row 4 ] |}
    None None None two_panel_pattern) as (_ & _ & _ & Hslots & _).
  eexists. split; [vm_compute; reflexivity|].
  split.
  - destruct (Hslots _ _ eq_refl 0 _ eq_refl) as (_ & Hkeep & _).
    apply Hkeep. vm_compute. lia.
  - destruct (Hslots _ _ eq_refl 1 _ eq_refl) as (Hskip & _ & _).
    apply Hskip. vm_compute. lia.
Defined.

End EmptySlots.

(** ** Encoding: [pattern_as_tensors] *)

Section Encoder.
Import Numeric PatternConverter PatternSpec.
Context `{ext : External}.

Ltac len_solve :=
  repeat (progress rewrite ?length_app, ?repeat_length, ?length_cons, ?length_map);
  lia.

Lemma rmap_total {A B} (f : A -> result B) (P : B -> Prop) (l : list A) :
  (forall x, x ∈ l -> exists y, f x = Ok y /\ P y) ->
  exists r, rmap f l = Ok r /\ Forall P r /\ length r = length l.
Proof.
  induction l as [|x l IH]; intros Hf.
  - exists []. simpl. auto.
  - destruct (Hf x) as (y & Hy & Py); [constructor|].
    destruct IH as (r & Hr & HP & Hlen).
    { intros z Hz. apply Hf. constructor. exact Hz. }
    exists (y :: r). simpl. rewrite Hy. simpl. rewrite Hr. simpl.
    split; [reflexivity|]. split; [constructor; assumption | lia].
Qed.

Lemma list_index_position x l :
  x ∈ l -> list_index x l = Ok (position x l) /\ position x l < length l.
Proof.
  induction l as [|y l IH]; intros Hin; [inversion Hin|].
  simpl. destruct (String.eqb_spec x y) as [-> | Hne].
  - split; [reflexivity | lia].
  - apply elem_of_cons in Hin as [-> | Hin]; [congruence|].
    destruct (IH Hin) as [-> Hlt]. simpl. split; [reflexivity | lia].
Qed.

(** The stitch loop overwrites the columns [idx, idx + len(stitches))] and
    leaves the others alone. *)
Lemma fill_stitches_spec order L sts : forall idx arr,
  idx + length sts <= length arr ->
  (forall st, st ∈ sts -> side_panel (fst st) ∈ order /\ side_panel (snd st) ∈ order) ->
  exists arr',
    fill_stitches order L idx sts arr = Ok arr' /\
    length arr' = length arr /\
    (forall j st, sts !! j = Some st ->
       arr' !! (idx + j) = Some (encoded_stitch order L st)) /\
    (forall k, k < idx \/ idx + length sts <= k -> arr' !! k = arr !! k).
Proof.
  induction sts as [|[s0 s1] sts IH]; intros idx arr Hlen Hin.
  - exists arr. simpl. split; [reflexivity|]. split; [reflexivity|].
    split; [intros j st H; discriminate | auto].
  - simpl in Hlen. simpl fill_stitches.
    destruct (Nat.leb_spec (length arr) idx); [lia|].
    destruct (Hin (s0, s1)) as [H0 H1]; [constructor|]. simpl in H0, H1.
    destruct (list_index_position _ _ H0) as [-> _].
    destruct (list_index_position _ _ H1) as [-> _].
    simpl. unfold mbind, result_bind, rbind.
    set (col := ((Z.of_nat (position (side_panel s0) order) * Z.of_nat L + side_edge s0)%Z,
                 (Z.of_nat (position (side_panel s1) order) * Z.of_nat L + side_edge s1)%Z)).
    destruct (IH (S idx) (<[idx := col]> arr)) as (arr' & Hrun & Hlen' & Hin' & Hout').
    { rewrite length_insert. lia. }
    { intros st Hst. apply Hin. constructor. exact Hst. }
    exists arr'. split; [exact Hrun|].
    rewrite length_insert in Hlen'. split; [exact Hlen'|]. split.
    + intros j st Hj. destruct j as [|j]; simpl in Hj.
      * injection Hj as <-. rewrite Nat.add_0_r.
        rewrite Hout' by lia. apply list_lookup_insert_eq. lia.
      * replace (idx + S j) with (S idx + j) by lia. apply Hin'. exact Hj.
    + intros k Hk. rewrite Hout' by (simpl length in Hk; lia).
      apply list_lookup_insert_ne. simpl length in Hk. lia.
Qed.

Lemma edge_as_vector_ok verts e :
  fst (endpoints e) < length verts -> snd (endpoints e) < length verts ->
  exists r, _edge_as_vector verts e = Ok r.
Proof.
  intros H0 H1. unfold _edge_as_vector.
  destruct (lookup_lt_is_Some_2 _ _ H0) as [v0 ->].
  destruct (lookup_lt_is_Some_2 _ _ H1) as [v1 ->]. eauto.
Qed.

Lemma edge_sequence_of_ok pnl :
  panel_well_formed pnl ->
  exists es, edge_sequence_of pnl = Ok es /\ length es = length (edges pnl).
Proof.
  intros Hwf. unfold edge_sequence_of.
  destruct (rmap_total (_edge_as_vector (vertices pnl)) (fun _ => True) (edges pnl))
    as (es & Hes & _ & Hlen).
  - intros e He. destruct (Hwf e He) as [H0 H1].
    destruct (edge_as_vector_ok _ _ H0 H1) as [r Hr]. eauto.
  - eauto.
Qed.

Lemma strip_padding_length rows : length (strip_padding rows) <= length rows.
Proof. unfold strip_padding. apply length_filter. Qed.

(** A fitting panel is encoded as its edge sequence followed by zero rows
    up to the requested length. *)
Lemma panel_as_numeric_fit pat nm L pnl es :
  panels pat !! nm = Some pnl ->
  edge_sequence_of pnl = Ok es -> es <> [] -> length es <= L ->
  panel_as_numeric pat nm (Some L)
  = Ok (es ++ repeat zero_row (L - length es),
        euler_as_quat (rotation pnl), fst (panel_universal_translation pnl)).
Proof.
  intros Hpnl Hes Hne Hlen. unfold panel_as_numeric, getitem.
  rewrite Hpnl. simpl. unfold mbind, result_bind, rbind.
  unfold edge_sequence_of in Hes. rewrite Hes.
  destruct (Nat.ltb_spec L (length es)); [lia|].
  destruct (Nat.ltb_spec (length es) L) as [Hlt | Hge].
  - destruct es as [|r0 es']; [congruence|]. reflexivity.
  - replace (L - length es) with 0 by lia. simpl. rewrite app_nil_r.
    destruct es as [|r0 es']; [congruence|]. reflexivity.
Qed.

Lemma strip_padding_padded es k :
  strip_padding (es ++ repeat zero_row k) = strip_padding es.
Proof. rewrite strip_padding_app, strip_padding_zeros, app_nil_r. reflexivity. Qed.

Lemma strip_padding_zeros_like (s0 : list edge_row) :
  strip_padding (map (fun _ => zero_row) s0) = [].
Proof. induction s0 as [|r s0 IH]; [reflexivity|]. simpl. exact IH. Qed.

Lemma numerics_ok pat L :
  panels_fit pat L -> panels_survive pat ->
  exists numerics,
    rmap (fun nm => panel_as_numeric pat nm (Some L)) (panel_order pat) = Ok numerics /\
    Forall (good_numeric L) numerics /\
    length numerics = length (panel_order pat).
Proof.
  intros Hfit Hsurv. apply rmap_total. intros nm Hnm.
  destruct (Hfit nm Hnm) as (pnl & Hpnl & Hwf & Hlen).
  destruct (edge_sequence_of_ok pnl Hwf) as (es & Hes & Hlen').
  pose proof (Hsurv nm pnl es Hnm Hpnl Hes) as H3.
  pose proof (strip_padding_length es) as Hle.
  assert (Hne : es <> []) by (destruct es; [simpl in *; lia | discriminate]).
  eexists. split.
  - apply (panel_as_numeric_fit pat nm L pnl es Hpnl Hes Hne). lia.
  - unfold good_numeric. simpl. split.
    + rewrite length_app, repeat_length. lia.
    + rewrite strip_padding_padded. exact H3.
Qed.

Lemma panel_lens_ok pat L :
  panels_fit pat L ->
  exists lens,
    rmap (fun nm => pnl ← getitem (panels pat) nm; Ok (length (edges pnl)))
         (panel_order pat) = Ok lens.
Proof.
  intros Hfit.
  destruct (rmap_total
              (fun nm => pnl ← getitem (panels pat) nm; Ok (length (edges pnl)))
              (fun _ => True) (panel_order pat)) as (lens & Hl & _).
  - intros nm Hnm. destruct (Hfit nm Hnm) as (pnl & Hpnl & _).
    unfold getitem. rewrite Hpnl. simpl. eauto.
  - eauto.
Qed.

(** The encoder's result on a fitting pattern. *)
Lemma pattern_as_tensors_ok pat L pad_panels_num pad_stitches_num :
  panels_fit pat L -> panels_survive pat -> panel_order pat <> [] ->
  (forall st, st ∈ stitches pat ->
     side_panel (fst st) ∈ panel_order pat /\ side_panel (snd st) ∈ panel_order pat) ->
  (forall s, pad_stitches_num = Some s -> length (stitches pat) <= s) ->
  exists t seqs pads,
    pattern_as_tensors pat (Some L) pad_panels_num pad_stitches_num = Ok t /\
    dim1 (t_panel_seqs t) = L /\
    slots (t_panel_seqs t) = seqs ++ pads /\
    length seqs = length (panel_order pat) /\
    Forall (fun s => 3 <= length (strip_padding s)) seqs /\
    Forall (fun s => strip_padding s = []) pads /\
    length (t_rotations t) = length (seqs ++ pads) /\
    length (t_translations t) = length (seqs ++ pads) /\
    (forall j st, stitches pat !! j = Some st ->
       t_stitches t !! j = Some (encoded_stitch (panel_order pat) L st)) /\
    (forall k col, t_stitches t !! k = Some col ->
       length (stitches pat) <= k -> col = (0, 0)%Z).
Proof.
  intros Hfit Hsurv Hne Hsides Hpad.
  destruct (panel_lens_ok pat L Hfit) as [lens Hlens].
  destruct (numerics_ok pat L Hfit Hsurv) as (numerics & Hnum & Hgood & Hnlen).
  set (S := default (length (stitches pat)) pad_stitches_num).
  assert (HS : length (stitches pat) <= S).
  { subst S. destruct pad_stitches_num as [s|]; simpl; [apply Hpad; reflexivity | lia]. }
  destruct (fill_stitches_spec (panel_order pat) L (stitches pat) 0 (repeat (0, 0)%Z S))
    as (cols & Hfill & Hclen & Hcin & Hcout).
  { rewrite repeat_length. simpl. exact HS. }
  { exact Hsides. }
  assert (Hzero : forall k col, cols !! k = Some col ->
                    length (stitches pat) <= k -> col = (0, 0)%Z).
  { intros k col Hk Hge. rewrite Hcout in Hk by (simpl; lia).
    apply list_elem_of_lookup_2 in Hk. apply list_elem_of_In in Hk.
    apply repeat_spec in Hk. exact Hk. }
  assert (Hseqs : Forall (fun s => 3 <= length (strip_padding s))
                         (map (fun x => fst (fst x)) numerics)).
  { apply Forall_fmap. eapply Forall_impl; [exact Hgood|].
    intros num [_ H3]. exact H3. }
  unfold pattern_as_tensors. cbv zeta.
  rewrite Hlens. simpl mbind at 1. unfold mbind at 1, result_bind at 1, rbind at 1.
  simpl mbind at 1. unfold mbind at 1, result_bind at 1, rbind at 1.
  rewrite Hnum. unfold mbind at 1, result_bind at 1, rbind at 1.
  destruct numerics as [|num0 numerics'].
  { simpl in Hnlen. destruct (panel_order pat); [congruence | discriminate]. }
  set (numerics := num0 :: numerics') in *.
  assert (Hpads : forall k,
            Forall (fun s => strip_padding s = [])
                   (repeat (map (fun _ : edge_row => zero_row) (fst (fst num0))) k)).
  { intros k. apply Forall_forall. intros s Hs. apply list_elem_of_In in Hs.
    apply repeat_spec in Hs. subst s. apply strip_padding_zeros_like. }
  destruct pad_panels_num as [n|].
  - destruct (length (map (fun x => fst (fst x)) numerics) <? n) eqn:Hpadn.
    + subst numerics. cbn [map fst snd]. cbv beta iota.
      unfold mbind, result_bind, rbind. fold S.
      destruct (Nat.ltb_spec S (length (stitches pat))); [lia|].
      rewrite Hfill.
      eexists _, (map (fun x => fst (fst x)) (num0 :: numerics')), _.
      split; [reflexivity|]. cbn [t_panel_seqs t_rotations t_translations t_stitches
                                   dim1 slots].
      split; [reflexivity|]. split; [reflexivity|].
      split; [rewrite length_map; exact Hnlen|].
      split; [exact Hseqs|]. split; [apply Hpads|].
      split; [len_solve|].
      split; [len_solve|].
      split; [intros j st Hj; apply (Hcin j st Hj) | exact Hzero].
    + subst numerics. cbn [map fst snd]. cbv beta iota.
      unfold mbind, result_bind, rbind. fold S.
      destruct (Nat.ltb_spec S (length (stitches pat))); [lia|].
      rewrite Hfill.
      eexists _, (map (fun x => fst (fst x)) (num0 :: numerics')), [].
      split; [reflexivity|]. cbn [t_panel_seqs t_rotations t_translations t_stitches
                                   dim1 slots].
      split; [reflexivity|]. split; [rewrite app_nil_r; reflexivity|].
      split; [rewrite length_map; exact Hnlen|].
      split; [exact Hseqs|]. split; [constructor|].
      rewrite app_nil_r.
      split; [len_solve|].
      split; [len_solve|].
      split; [intros j st Hj; apply (Hcin j st Hj) | exact Hzero].
  - subst numerics. cbn [map fst snd]. cbv beta iota.
    unfold mbind, result_bind, rbind. fold S.
    destruct (Nat.ltb_spec S (length (stitches pat))); [lia|].
    rewrite Hfill.
    eexists _, (map (fun x => fst (fst x)) (num0 :: numerics')), [].
    split; [reflexivity|]. cbn [t_panel_seqs t_rotations t_translations t_stitches
                                 dim1 slots].
    split; [reflexivity|]. split; [rewrite app_nil_r; reflexivity|].
    split; [rewrite length_map; exact Hnlen|].
    split; [exact Hseqs|]. split; [constructor|].
    rewrite app_nil_r.
    split; [len_solve|].
    split; [len_solve|].
    split; [intros j st Hj; apply (Hcin j st Hj) | exact Hzero].
Qed.

End Encoder.

(** ** Decoding what the encoder produced *)

Section Roundtrip.
Import Numeric PatternConverter PatternSpec.
Context `{ext : External}.

Lemma surviving_app a : forall idx b,
  surviving idx (a ++ b) = surviving idx a ++ surviving (idx + length a) b.
Proof.
  induction a as [|s a IH]; intros idx b.
  - simpl. rewrite Nat.add_0_r. reflexivity.
  - rewrite <- app_comm_cons, !surviving_cons, IH, <- app_assoc.
    replace (S idx + length a) with (idx + length (s :: a)) by (simpl; lia).
    reflexivity.
Qed.

Lemma surviving_all seqs : forall idx,
  Forall (fun s => 3 <= length (strip_padding s)) seqs ->
  surviving idx seqs = map slot_name (seq idx (length seqs)).
Proof.
  induction seqs as [|s seqs IH]; intros idx Hall; [reflexivity|].
  inversion Hall as [|? ? Hs Hrest]; subst.
  rewrite surviving_cons, IH by exact Hrest.
  destruct (Nat.leb_spec 3 (length (strip_padding s))); [reflexivity | lia].
Qed.

Lemma surviving_none pads : forall idx,
  Forall (fun s => strip_padding s = []) pads -> surviving idx pads = [].
Proof.
  induction pads as [|s pads IH]; intros idx Hall; [reflexivity|].
  inversion Hall as [|? ? Hs Hrest]; subst.
  rewrite surviving_cons, IH by exact Hrest. rewrite Hs. reflexivity.
Qed.

Lemma optional_item_covered x idx :
  covers x (S idx) -> exists v, optional_item x idx = Ok v.
Proof.
  destruct x as [l|]; unfold covers; simpl; [|eauto]. intros Hlen.
  assert (Hlt : idx < length l) by lia.
  destruct (lookup_lt_is_Some_2 l idx Hlt) as [v Hv].
  rewrite (py_getitem_nat _ _ _ Hv). simpl. eauto.
Qed.

Lemma covers_le x n m : m <= n -> covers x n -> covers x m.
Proof. destruct x; unfold covers; [lia | auto]. Qed.

(** With a placement entry for every slot, padded decoding of the slots
    always returns normally. *)
Lemma decode_slots_total_covered rep : forall idx rots transls pat in_order log,
  covers rots (idx + length rep) -> covers transls (idx + length rep) ->
  exists pat' order' log',
    decode_slots idx rep rots transls true pat in_order log = Ok (pat', order', log').
Proof.
  induction rep as [|slot rest IH]; intros idx rots transls pat in_order log Hr Ht.
  - simpl. eauto.
  - simpl length in Hr, Ht. rewrite decode_slots_step.
    assert (Hle : S idx <= idx + S (length rest)) by lia.
    destruct (optional_item_covered rots idx (covers_le _ _ _ Hle Hr)) as [rot Hrot].
    destruct (optional_item_covered transls idx (covers_le _ _ _ Hle Ht))
      as [transl Htransl].
    destruct (attempt_cases idx slot rots transls pat)
      as [Herr | [[_ ->] | [_ (pnl & msgs & ->)]]].
    + exfalso. unfold attempt in Herr. rewrite Hrot, Htransl in Herr.
      simpl in Herr. unfold mbind, result_bind, rbind in Herr.
      rewrite panel_from_numeric_padded in Herr.
      destruct (length (strip_padding slot) <? 3) eqn:E; [discriminate|].
      apply Nat.ltb_ge in E.
      assert (Hne : strip_padding slot <> []).
      { destruct (strip_padding slot); [simpl in E; lia | discriminate]. }
      rewrite (panel_from_numeric_rows _ _ _ _ _ Hne) in Herr. discriminate.
    + assert (Hle' : S idx + length rest <= idx + S (length rest)) by lia.
      apply IH; [exact (covers_le _ _ _ Hle' Hr) | exact (covers_le _ _ _ Hle' Ht)].
    + assert (Hle' : S idx + length rest <= idx + S (length rest)) by lia.
      apply IH; [exact (covers_le _ _ _ Hle' Hr) | exact (covers_le _ _ _ Hle' Ht)].
Qed.

Lemma slot_names_lookup n i :
  i < n -> map slot_name (seq 0 n) !! i = Some (slot_name i).
Proof.
  intros Hi. change (map slot_name (seq 0 n)) with (slot_name <$> seq 0 n).
  rewrite list_lookup_fmap, lookup_seq_lt by exact Hi. reflexivity.
Qed.

(** Integer division and remainder split a pattern-level edge id back
    into panel index and edge id. *)
Lemma decode_side_encoded L n pid e :
  (0 <= e < Z.of_nat L)%Z -> pid < n ->
  decode_side L (map slot_name (seq 0 n)) (Z.of_nat pid * Z.of_nat L + e)
  = Ok {| side_panel := slot_name pid; side_edge := e |}.
Proof.
  intros He Hpid. unfold decode_side. cbv zeta.
  assert (Hdiv : ((Z.of_nat pid * Z.of_nat L + e) / Z.of_nat L = Z.of_nat pid)%Z).
  { symmetry. apply (Z.div_unique_pos _ _ _ e); lia. }
  assert (Hmod : ((Z.of_nat pid * Z.of_nat L + e) mod Z.of_nat L = e)%Z).
  { symmetry. apply (Z.mod_unique_pos _ _ (Z.of_nat pid)); lia. }
  rewrite Hdiv, Hmod, length_map, length_seq.
  destruct (Z.gtb_spec (Z.of_nat pid) (Z.of_nat n - 1)); [lia|].
  rewrite (py_getitem_nat _ _ _ (slot_names_lookup n pid Hpid)). reflexivity.
Qed.

Lemma side_valid_bounds pat L s :
  panels_fit pat L -> side_valid pat s ->
  side_panel s ∈ panel_order pat /\ (0 <= side_edge s < Z.of_nat L)%Z.
Proof.
  intros Hfit [Hin (pnl & Hpnl & He)]. split; [exact Hin|].
  destruct (Hfit _ Hin) as (pnl' & Hpnl' & _ & Hlen).
  rewrite Hpnl in Hpnl'. injection Hpnl' as <-. lia.
Qed.

Lemma decode_encoded_side (order : list string) L s :
  side_panel s ∈ order -> (0 <= side_edge s < Z.of_nat L)%Z ->
  exists s', expected_side order s = Ok s' /\
    decode_side L (map slot_name (seq 0 (length order))) (encoded_side order L s) = Ok s'.
Proof.
  intros Hin He. destruct (list_index_position _ _ Hin) as [Hidx Hlt].
  exists {| side_panel := slot_name (position (side_panel s) order);
            side_edge := side_edge s |}.
  split.
  - unfold expected_side. rewrite Hidx. reflexivity.
  - unfold encoded_side. apply decode_side_encoded; assumption.
Qed.

Lemma decode_zero_column (order : list string) L :
  0 < L -> order <> [] ->
  exists y, decode_stitch L (map slot_name (seq 0 (length order))) (0, 0)%Z = Ok y.
Proof.
  intros HL Hne.
  assert (Hn : 0 < length order) by (destruct order; [congruence | simpl; lia]).
  pose proof (decode_side_encoded L (length order) 0 0%Z ltac:(lia) Hn) as Hd.
  change (Z.of_nat 0 * Z.of_nat L + 0)%Z with 0%Z in Hd.
  unfold decode_stitch. simpl fst. simpl snd. rewrite Hd. simpl. eauto.
Qed.

End Roundtrip.

(** ** C1: stitches survive encoding and decoding *)

Section StitchRoundtrip.
Import Numeric PatternConverter PatternSpec.

(** C1 (as stated, refuted): the strap pattern has two four-edge panels and
    one stitch between existing edges, encoded with [pad_panels_to_len = 4]
    as the column (0, 6).  On decoding, the 10 x 1 strap keeps only two rows
    after rows within 1.5 of zero are stripped, so its slot is skipped and
    only [panel_1] survives: the second side of the stitch then names panel
    index 1, beyond the single decoded panel, and decoding raises
    [InvalidPatternDefError] instead of reproducing the stitch. *)
Lemma stitch_roundtrip_fails_on_thin_panel :
  panels_fit strap_pattern 4 /\ stitches_valid strap_pattern /\
  exists t,
    @pattern_as_tensors no_placement strap_pattern (Some 4) None None = Ok t /\
    dim1 (t_panel_seqs t) = 4 /\ t_stitches t = [(0, 6)%Z] /\
    @pattern_from_tensors no_placement (t_panel_seqs t) None None
       (Some (t_stitches t)) true strap_pattern = Raise InvalidPatternDefError.
Proof.
  split; [|split].
  - intros nm Hnm. unfold strap_pattern in Hnm. simpl in Hnm.
    apply elem_of_cons in Hnm as [-> | Hnm];
      [|apply elem_of_cons in Hnm as [-> | Hnm]; [|inversion Hnm]].
    + exists (rectangle 10 1). split; [reflexivity|]. split; [|simpl; lia].
      intros e He. simpl in He. repeat (apply elem_of_cons in He as [-> | He]);
        [simpl; lia .. | inversion He].
    + exists (rectangle 10 10). split; [reflexivity|]. split; [|simpl; lia].
      intros e He. simpl in He. repeat (apply elem_of_cons in He as [-> | He]);
        [simpl; lia .. | inversion He].
  - intros st Hst. unfold strap_pattern in Hst. simpl in Hst.
    apply list_elem_of_singleton in Hst. subst st. simpl. split.
    + split; [repeat constructor|]. exists (rectangle 10 1).
      split; [reflexivity | simpl; lia].
    + split; [repeat constructor|]. exists (rectangle 10 10).
      split; [reflexivity | simpl; lia].
  - eexists. split; [vm_compute; reflexivity|].
    split; [reflexivity|]. split; [reflexivity|]. vm_compute. reflexivity.
Qed.

(** C1 (amended): for every pattern whose panels each have at most L edges,
    whose stitches reference existing panels and edges, and each of whose
    panels keeps at least three edge rows once the rows within 1.5 of zero
    are stripped, encoding with [pattern_as_tensors] and
    [pad_panels_to_len = L] (any panel padding, and a stitch capacity not
    below the number of stitches) succeeds with a panel tensor of per-panel
    edge dimension L, decoding the result with [pattern_from_tensors]
    ([padded=True], with or without the placement tensors) succeeds, and
    every real stitch [i], stored in column [i] as the two integers
    [panel_index * L + edge_index], is decoded as the same two edge ids on
    the slots named after the positions of its two panels in the encoder's
    traversal order. *)
Theorem stitch_roundtrip `{ext : External} (pat self : pattern) (L : nat)
    (pad_panels_num pad_stitches_num : option nat) (with_placement : bool)
    (i : nat) (st : stitch) :
  panels_fit pat L -> stitches_valid pat -> panels_survive pat ->
  (forall s, pad_stitches_num = Some s -> length (stitches pat) <= s) ->
  stitches pat !! i = Some st ->
  exists t pat' log s0 s1,
    pattern_as_tensors pat (Some L) pad_panels_num pad_stitches_num = Ok t /\
    dim1 (t_panel_seqs t) = L /\
    t_stitches t !! i = Some (encoded_stitch (panel_order pat) L st) /\
    pattern_from_tensors (t_panel_seqs t)
      (if with_placement then Some (t_rotations t) else None)
      (if with_placement then Some (t_translations t) else None)
      (Some (t_stitches t)) true self = Ok (pat', log) /\
    expected_side (panel_order pat) (fst st) = Ok s0 /\
    expected_side (panel_order pat) (snd st) = Ok s1 /\
    stitches pat' !! i = Some (s0, s1).
Proof.
  intros Hfit Hvalid Hsurv Hpad Hst.
  assert (Hbounds : forall st', st' ∈ stitches pat ->
            (side_panel (fst st') ∈ panel_order pat /\
             (0 <= side_edge (fst st') < Z.of_nat L)%Z) /\
            (side_panel (snd st') ∈ panel_order pat /\
             (0 <= side_edge (snd st') < Z.of_nat L)%Z)).
  { intros st' Hin. destruct (Hvalid st' Hin) as [H0 H1].
    split; apply (side_valid_bounds pat L); assumption. }
  assert (Hin : st ∈ stitches pat) by (eapply list_elem_of_lookup_2; exact Hst).
  destruct (Hbounds st Hin) as [[Hp0 He0] [Hp1 He1]].
  assert (Hne : panel_order pat <> []).
  { intros E. rewrite E in Hp0. inversion Hp0. }
  assert (HL : 0 < L) by lia.
  destruct (pattern_as_tensors_ok pat L pad_panels_num pad_stitches_num Hfit Hsurv Hne)
    as (t & seqs & pads & Henc & Hdim & Hslots & Hlen & Hseqs & Hpads & Hrl & Htl & Hcin & Hcout).
  { intros st' Hin'. destruct (Hbounds st' Hin') as [[? _] [? _]]. auto. }
  { exact Hpad. }
  set (rots := if with_placement then Some (t_rotations t) else None).
  set (transls := if with_placement then Some (t_translations t) else None).
  set (self0 := {| name := name self; panels := ∅;
                   panel_order := panel_order self; stitches := stitches self |}).
  destruct (decode_slots_total_covered (slots (t_panel_seqs t)) 0 rots transls self0 [] [])
    as (pat1 & order1 & log1 & Hdec).
  { subst rots. destruct with_placement; simpl; [rewrite Hrl, Hslots; lia | exact I]. }
  { subst transls. destruct with_placement; simpl; [rewrite Htl, Hslots; lia | exact I]. }
  pose proof Hdec as Hdec'. apply decode_slots_ok in Hdec' as [Horder _].
  rewrite Hslots, surviving_app, (surviving_all _ _ Hseqs), (surviving_none _ _ Hpads),
    app_nil_r, Hlen in Horder. simpl in Horder.
  destruct (rmap_total (decode_stitch L order1) (fun _ => True) (t_stitches t))
    as (sts & Hsts & _ & _).
  { intros col Hcol. apply list_elem_of_lookup_1 in Hcol as [k Hk].
    destruct (stitches pat !! k) as [st'|] eqn:Hk'.
    - rewrite (Hcin k st' Hk') in Hk. injection Hk as <-.
      destruct (Hbounds st' (list_elem_of_lookup_2 _ _ _ Hk')) as [[Hq0 Hf0] [Hq1 Hf1]].
      destruct (decode_encoded_side _ L _ Hq0 Hf0) as (s0' & _ & Hd0).
      destruct (decode_encoded_side _ L _ Hq1 Hf1) as (s1' & _ & Hd1).
      exists (s0', s1'). split; [|exact I].
      unfold decode_stitch, encoded_stitch. simpl fst. simpl snd.
      rewrite Horder, Hd0. simpl. rewrite Hd1. reflexivity.
    - apply lookup_ge_None in Hk'. rewrite (Hcout k col Hk Hk').
      rewrite Horder. destruct (decode_zero_column (panel_order pat) L HL Hne) as [y Hy].
      eauto. }
  destruct (decode_encoded_side _ L _ Hp0 He0) as (s0 & Hx0 & Hd0).
  destruct (decode_encoded_side _ L _ Hp1 He1) as (s1 & Hx1 & Hd1).
  destruct (rmap_ok_lookup _ _ _ i _ Hsts (Hcin i st Hst)) as (y & Hy & Hyi).
  assert (y = (s0, s1)) as ->.
  { unfold decode_stitch, encoded_stitch in Hy. simpl fst in Hy. simpl snd in Hy.
    rewrite Horder, Hd0 in Hy. simpl in Hy. rewrite Hd1 in Hy. simpl in Hy.
    injection Hy as <-. reflexivity. }
  eexists t, _, log1, s0, s1.
  split; [exact Henc|]. split; [exact Hdim|]. split; [exact (Hcin i st Hst)|].
  split; [|split; [exact Hx0 | split; [exact Hx1|]]].
  - unfold pattern_from_tensors. cbv zeta. fold self0. fold rots. fold transls.
    rewrite Hdec. simpl. unfold mbind, result_bind, rbind.
    rewrite Hdim, Hsts. reflexivity.
  - simpl. exact Hyi.
Qed.

(** The two-panel pattern, padded to six edges per panel, three panels and
    two stitch columns, decoded with its placement tensors. *)
Lemma stitch_roundtrip_witness :
  exists t pat' log,
    @pattern_as_tensors no_placement two_panel_pattern (Some 6) (Some 3) (Some 2) = Ok t /\
    @pattern_from_tensors no_placement (t_panel_seqs t)
      (Some (t_rotations t)) (Some (t_translations t))
      (Some (t_stitches t)) true two_panel_pattern = Ok (pat', log) /\
    stitches pat' !! 0 = Some ({| side_panel := "panel_0"; side_edge := 3 |},
                               {| side_panel := "panel_1"; side_edge := 2 |}).
Proof.
  destruct (@stitch_roundtrip no_placement two_panel_pattern two_panel_pattern 6
              (Some 3) (Some 2) true 0
              ({| side_panel := "back"; side_edge := 3 |},
               {| side_panel := "front"; side_edge := 2 |}))
    as (t & pat' & log & s0 & s1 & Henc & _ & _ & Hdec & Hs0 & Hs1 & Hst).
  - intros nm Hnm. unfold two_panel_pattern in Hnm. simpl in Hnm.
    apply elem_of_cons in Hnm as [-> | Hnm];
      [|apply elem_of_cons in Hnm as [-> | Hnm]; [|inversion Hnm]].
    + exists (rectangle 20 10). split; [reflexivity|]. split; [|simpl; lia].
      intros e He. simpl in He. repeat (apply elem_of_cons in He as [-> | He]);
        [simpl; lia .. | inversion He].
    + exists (rectangle 10 10). split; [reflexivity|]. split; [|simpl; lia].
      intros e He. simpl in He. repeat (apply elem_of_cons in He as [-> | He]);
        [simpl; lia .. | inversion He].
  - intros st Hst. unfold two_panel_pattern in Hst. simpl in Hst.
    apply list_elem_of_singleton in Hst. subst st. simpl. split.
    + split; [repeat constructor|]. exists (rectangle 20 10).
      split; [reflexivity | simpl; lia].
    + split; [repeat constructor|]. exists (rectangle 10 10).
      split; [reflexivity | simpl; lia].
  - intros nm pnl rows Hnm Hpnl Hrows. unfold two_panel_pattern in Hnm. simpl in Hnm.
    apply elem_of_cons in Hnm as [-> | Hnm];
      [|apply elem_of_cons in Hnm as [-> | Hnm]; [|inversion Hnm]].
    + vm_compute in Hpnl. injection Hpnl as <-.
      vm_compute in Hrows. injection Hrows as <-. vm_compute. lia.
    + vm_compute in Hpnl. injection Hpnl as <-.
      vm_compute in Hrows. injection Hrows as <-. vm_compute. lia.
  - intros s [= <-]. simpl. lia.
  - reflexivity.
  - exists t, pat', log. split; [exact Henc|]. split; [exact Hdec|].
    vm_compute in Hs0. injection Hs0 as <-.
    vm_compute in Hs1. injection Hs1 as <-. exact Hst.
Defined.

End StitchRoundtrip.

(** ** C5, C10: deriving and re-deriving the data split *)

Section Splits.
Import Numeric Data DataSpec SplitSpec.
Context `{torch : Torch}.

Ltac split_matches :=
  repeat match goal with
         | |- context [match ?x with _ => _ end] => destruct x; cbn
         end.

(** Building loaders touches nothing but the batch size and the loaders. *)
Lemma new_loaders_frame bs sh (w : DatasetWrapper) :
  let w' := snd (new_loaders bs sh w) in
  dataset_len w' = dataset_len w /\ training w' = training w /\
  validation w' = validation w /\ test w' = test w /\
  split_info w' = split_info w /\
  batch_size w' = match bs with Some b => Some b | None => batch_size w end.
Proof.
  unfold new_loaders. destruct bs as [b|]; cbn.
  - split_matches; repeat split.
  - destruct (batch_size w) eqn:Hb; cbn; split_matches; repeat split; assumption.
Qed.


Lemma with_loaders_frame bs (w : DatasetWrapper) :
  let w' := snd (with_loaders bs w) in
  dataset_len w' = dataset_len w /\ training w' = training w /\
  validation w' = validation w /\ test w' = test w /\
  split_info w' = split_info w /\
  batch_size w' = match bs with Some b => Some b | None => batch_size w end.
Proof.
  unfold with_loaders. cbv zeta.
  destruct bs as [b|].
  - cbn [batch_size set_batch_size].
    destruct (new_loaders_frame None true (set_batch_size w (Some b)))
      as (H1 & H2 & H3 & H4 & H5 & H6).
    cbv zeta in *. rewrite H1, H2, H3, H4, H5, H6. repeat split.
  - destruct (batch_size w) eqn:Hb.
    + destruct (new_loaders_frame None true w) as (H1 & H2 & H3 & H4 & H5 & H6).
      cbv zeta in *. rewrite H1, H2, H3, H4, H5, H6. repeat split. exact Hb.
    + repeat split. exact Hb.
Qed.


(** [load_split] without a new [split_info] is the partition followed by
    the loaders. *)
Lemma load_split_none bs (w : DatasetWrapper) (g : rng_state) :
  load_split None bs {| wrapper := w; rng := g |} =
    match partition (dataset_len w) (split_info w) with
    | (Raise e, g') => (Raise e, {| wrapper := w; rng := default g g' |})
    | (Ok (tr, va, te), g') =>
        let w' := snd (with_loaders bs (set_sections w tr va te)) in
        (match fst (with_loaders bs (set_sections w tr va te)) with
         | Raise e => Raise e
         | Ok _ => Ok (training w', validation w', test w')
         end, {| wrapper := w'; rng := default g g' |})
    end.
Proof.
  unfold load_split, partition. cbn [wrapper rng].
  destruct (getitem (split_info w) "random_seed" ≫= torch_manual_seed) as [g0|e];
    [|reflexivity].
  destruct (_ ≫= _) as [[lengths with_test]|e]; [|reflexivity].
  destruct (random_split _ _ _) as [[parts|e] g']; [|destruct with_test; reflexivity].
  destruct parts as [|tr [|va [|te [|x parts]]]], with_test; try reflexivity.
  all: unfold with_loaders; cbv zeta.
  all: match goal with
       | |- context [batch_size ?v] => set (w1 := v); destruct (batch_size w1)
       end; [|reflexivity].
  all: destruct (new_loaders None true w1) as [[[]|e] w']; reflexivity.
Qed.

Lemma load_split_factored arg bs (s : world) :
  load_split arg bs s =
    match adopt arg (wrapper s) with
    | Raise e => (Raise e, {| wrapper := wrapper s; rng := rng s |})
    | Ok w => load_split None bs {| wrapper := w; rng := rng s |}
    end.
Proof.
  unfold load_split, adopt. cbn [wrapper rng].
  destruct arg as [si|]; [|reflexivity].
  destruct (bool_decide (si = ∅)); [reflexivity|].
  destruct (bool_decide (dom (split_info (wrapper s)) ⊆ dom si)); reflexivity.
Qed.

(** A partition that succeeds is the re-seeded partition of the stored
    seed and percentages, and conversely. *)
Lemma partition_ok_inv len (si : gmap string pyval) secs og :
  partition len si = (Ok secs, og) ->
  exists sd vp tp g',
    si !! "random_seed" = Some sd /\ si !! "valid_percent" = Some vp /\
    si !! "test_percent" = Some tp /\ og = Some g' /\
    reseeded_partition len sd vp tp secs g'.
Proof.
  unfold partition, getitem.
  destruct (si !! "random_seed") as [sd|]; [|discriminate].
  cbn [mbind result_bind rbind].
  destruct (torch_manual_seed sd) as [g0|] eqn:Hseed; [|discriminate].
  destruct (si !! "valid_percent") as [vp|]; [|discriminate].
  cbn [mbind result_bind rbind].
  destruct (percent_size len vp) as [valid_size|] eqn:Hvs; [|discriminate].
  destruct (si !! "test_percent") as [tp|]; [|discriminate].
  cbn [mbind result_bind rbind].
  destruct (truthy tp) eqn:Htp.
  - destruct (percent_size len tp) as [test_size|] eqn:Hts; [|discriminate].
    cbn [mbind result_bind rbind].
    destruct (random_split _ _ _) as [[parts|e] g'] eqn:Hsplit; [|discriminate].
    destruct parts as [|tr [|va [|te [|x parts]]]]; try discriminate.
    intros [= <- <-]. exists sd, vp, tp, g'. repeat (split; [reflexivity|]).
    exists g0, valid_size. split; [exact Hseed|]. split; [exact Hvs|]. rewrite Htp.
    exists test_size, tr, va, te. auto.
  - destruct (random_split _ _ _) as [[parts|e] g'] eqn:Hsplit; [|discriminate].
    destruct parts as [|tr [|va [|te [|x parts]]]]; try discriminate.
    intros [= <- <-]. exists sd, vp, tp, g'. repeat (split; [reflexivity|]).
    exists g0, valid_size. split; [exact Hseed|]. split; [exact Hvs|]. rewrite Htp.
    exists tr, va. auto.
Qed.



(** Deriving the split leaves the dataset and [split_info] alone, and the
    batch size too unless one is passed and the partition succeeds. *)
Lemma load_split_none_frame bs (s : world) :
  dataset_len (wrapper (snd (load_split None bs s))) = dataset_len (wrapper s) /\
  split_info (wrapper (snd (load_split None bs s))) = split_info (wrapper s) /\
  (bs = None ->
   batch_size (wrapper (snd (load_split None bs s))) = batch_size (wrapper s)).
Proof.
  destruct s as [w g]. rewrite load_split_none. cbn [wrapper].
  destruct (partition _ _) as [[[[tr va] te]|e] g']; [|repeat split].
  cbv zeta. cbn [snd wrapper].
  destruct (with_loaders_frame bs (set_sections w tr va te)) as (H1 & _ & _ & _ & H5 & H6).
  cbv zeta in *. rewrite H1, H5, H6. split; [reflexivity|]. split; [reflexivity|].
  intros ->. reflexivity.
Qed.



(** Everything a derivation that returns went through, and what it has
    left behind. *)
Lemma load_split_none_inv bs (w : DatasetWrapper) (g : rng_state) secs :
  fst (load_split None bs {| wrapper := w; rng := g |}) = Ok secs ->
  exists sd vp tp g',
    split_info w !! "random_seed" = Some sd /\
    split_info w !! "valid_percent" = Some vp /\
    split_info w !! "test_percent" = Some tp /\
    reseeded_partition (dataset_len w) sd vp tp secs g' /\
    fst (with_loaders bs (set_sections w secs.1.1 secs.1.2 secs.2)) = Ok tt /\
    snd (load_split None bs {| wrapper := w; rng := g |})
    = {| wrapper := snd (with_loaders bs (set_sections w secs.1.1 secs.1.2 secs.2));
         rng := g' |}.
Proof.
  rewrite load_split_none.
  destruct (partition _ _) as [[[[tr va] te]|e] og] eqn:Hp; [|discriminate].
  cbv zeta. cbn [fst snd].
  destruct (partition_ok_inv _ _ _ _ Hp) as (sd & vp & tp & g' & H1 & H2 & H3 & -> & Hre).
  destruct (with_loaders_frame bs (set_sections w tr va te)) as (_ & K2 & K3 & K4 & _).
  cbv zeta in *. rewrite K2, K3, K4. cbn [set_sections training validation test].
  destruct (fst (with_loaders bs _)) as [[]|e] eqn:Hl; [|discriminate].
  intros [= <-]. exists sd, vp, tp, g'. cbn [fst snd default]. auto 10.
Qed.


(** The re-seeded partition is a function of the length, the seed and the
    percentages. *)
Lemma reseeded_partition_functional len sd vp tp secs1 g1 secs2 g2 :
  reseeded_partition len sd vp tp secs1 g1 ->
  reseeded_partition len sd vp tp secs2 g2 ->
  secs1 = secs2 /\ g1 = g2.
Proof.
  intros (g0 & vs & Hs & Hv & H1) (g0' & vs' & Hs' & Hv' & H2).
  rewrite Hs in Hs'. injection Hs' as <-. rewrite Hv in Hv'. injection Hv' as <-.
  destruct (truthy tp).
  - destruct H1 as (ts & tr & va & te & Ht & Hsp & ->).
    destruct H2 as (ts' & tr' & va' & te' & Ht' & Hsp' & ->).
    rewrite Ht in Ht'. injection Ht' as <-. rewrite Hsp in Hsp'.
    injection Hsp' as <- <- <- <-. split; reflexivity.
  - destruct H1 as (tr & va & Hsp & ->). destruct H2 as (tr' & va' & Hsp' & ->).
    rewrite Hsp in Hsp'. injection Hsp' as <- <- <-. split; reflexivity.
Qed.

Lemma adopt_keeps_length arg w w' :
  adopt arg w = Ok w' -> dataset_len w' = dataset_len w.
Proof.
  unfold adopt. destruct arg as [si|]; [|intros [= <-]; reflexivity].
  destruct (bool_decide (si = ∅)); [intros [= <-]; reflexivity|].
  destruct (bool_decide (dom (split_info w) ⊆ dom si)); [|discriminate].
  intros [= <-]. reflexivity.
Qed.


Lemma adopt_keeps_batch_size arg w w' :
  adopt arg w = Ok w' -> batch_size w' = batch_size w.
Proof.
  unfold adopt. destruct arg as [si|]; [|intros [= <-]; reflexivity].
  destruct (bool_decide (si = ∅)); [intros [= <-]; reflexivity|].
  destruct (bool_decide (dom (split_info w) ⊆ dom si)); [|discriminate].
  intros [= <-]. reflexivity.
Qed.


Lemma stored_seed (si : gmap string pyval) sd vp tp :
  <["test_percent" := tp]> (<["valid_percent" := vp]> (<["random_seed" := sd]> si))
    !! "random_seed" = Some sd.
Proof.
  rewrite lookup_insert_ne by discriminate.
  rewrite lookup_insert_ne by discriminate.
  apply lookup_insert_eq.
Qed.



Lemma new_split_keeps_length vp tp sd now (s : world) :
  dataset_len (wrapper (snd (new_split vp tp sd now s))) = dataset_len (wrapper s).
Proof.
  unfold new_split.
  match goal with
  | |- context [load_split None None ?s0] =>
      destruct (load_split_none_frame None s0) as [Hl _]; rewrite Hl
  end.
  reflexivity.
Qed.

Lemma new_split_keeps_batch_size vp tp sd now (s : world) :
  batch_size (wrapper (snd (new_split vp tp sd now s))) = batch_size (wrapper s).
Proof.
  unfold new_split.
  match goal with
  | |- context [load_split None None ?s0] =>
      destruct (load_split_none_frame None s0) as (_ & _ & Hb); rewrite Hb by reflexivity
  end.
  reflexivity.
Qed.

End Splits.



(** Under the toy runtime the batch size is part of the outcome: a stored
    split that puts every item into validation is returned when no batch
    size is known, and raises once the loaders have to be built, the
    training loader being asked to shuffle no items. *)
Lemma load_split_outcome_depends_on_batch_size :
  let all_validation : gmap string Data.pyval :=
    <["random_seed" := Data.VInt 42]>
      (<["valid_percent" := Data.VInt 100]> (<["test_percent" := Data.VNone]> ∅)) in
  (exists secs,
     fst (@Data.load_split DataSpec.toy_torch (Some all_validation) None
            SplitSpec.toy_world) = Ok secs) /\
  fst (@Data.load_split DataSpec.toy_torch (Some all_validation) (Some 4)
         SplitSpec.toy_world) = Raise ValueError.
Proof.
  cbv zeta. split; [eexists; vm_compute; reflexivity | vm_compute; reflexivity].
Qed.

(** C10: [new_split] called with [random_seed = 0] behaves exactly as when
    no seed is given: the seed stored in [split_info] and used to seed the
    generator is the current time [now], so the call does the same as one
    with the seed [now]; unless the clock itself reads 0 the stored seed is
    not 0, and two such calls made at different times store different
    seeds. *)
Theorem zero_seed_is_replaced_by_time `{torch : Data.Torch}
    (valid_percent test_percent : Data.pyval) (now now' : Z) (s : Data.world) :
  Data.new_split valid_percent test_percent (Data.VInt 0) now s
  = Data.new_split valid_percent test_percent Data.VNone now s /\
  Data.new_split valid_percent test_percent (Data.VInt 0) now s
  = Data.new_split valid_percent test_percent (Data.VInt now) now s /\
  Data.split_info (Data.wrapper
     (snd (Data.new_split valid_percent test_percent (Data.VInt 0) now s)))
    !! "random_seed" = Some (Data.VInt now) /\
  (now <> 0%Z ->
   Data.split_info (Data.wrapper
      (snd (Data.new_split valid_percent test_percent (Data.VInt 0) now s)))
     !! "random_seed" <> Some (Data.VInt 0)) /\
  (now <> now' ->
   Data.split_info (Data.wrapper
      (snd (Data.new_split valid_percent test_percent (Data.VInt 0) now s)))
     !! "random_seed"
   <> Data.split_info (Data.wrapper
        (snd (Data.new_split valid_percent test_percent (Data.VInt 0) now' s)))
       !! "random_seed").
Proof.
  assert (Hstored : forall n,
    Data.split_info (Data.wrapper
      (snd (Data.new_split valid_percent test_percent (Data.VInt 0) n s)))
      !! "random_seed" = Some (Data.VInt n)).
  { intros n. unfold Data.new_split.
    match goal with
    | |- context [Data.load_split None None ?s0] =>
        destruct (load_split_none_frame None s0) as (_ & Hsi & _); rewrite Hsi
    end.
    cbn [Data.truthy Data.wrapper Data.set_split_info Data.split_info].
    change (negb (0 =? 0)%Z) with false. cbv iota. apply stored_seed. }
  split; [reflexivity|]. split; [|split; [apply Hstored | split]].
  - unfold Data.new_split. cbn [Data.truthy].
    change (negb (0 =? 0)%Z) with false. cbv iota.
    destruct (Z.eqb_spec now 0) as [-> | Hne]; reflexivity.
  - intros Hne. rewrite Hstored. intros [= E]. contradiction.
  - intros Hne. rewrite !Hstored. intros [= E]. contradiction.
Qed.

(** A 10/10 split of a 50-item dataset requested with seed 0 at time 1000. *)
Lemma zero_seed_is_replaced_by_time_witness :
  Data.split_info (Data.wrapper
     (snd (@Data.new_split DataSpec.toy_torch (Data.VInt 10) (Data.VInt 10)
             (Data.VInt 0) 1000
             (@Data.Build_world DataSpec.toy_torch (DataSpec.fresh_wrapper 50) 7%Z))))
    !! "random_seed" <> Some (Data.VInt 0).
Proof.
  apply (@zero_seed_is_replaced_by_time DataSpec.toy_torch (Data.VInt 10)
           (Data.VInt 10) 1000 2000
           (@Data.Build_world DataSpec.toy_torch (DataSpec.fresh_wrapper 50) 7%Z)).
  discriminate.
Defined.

(** Under the toy generator, the same request with seed 0 made one second
    later yields another training set. *)
Lemma zero_seed_splits_differ :
  fst (@Data.new_split DataSpec.toy_torch (Data.VInt 10) (Data.VInt 10) (Data.VInt 0)
         1000 (@Data.Build_world DataSpec.toy_torch (DataSpec.fresh_wrapper 50) 7%Z))
  <> fst (@Data.new_split DataSpec.toy_torch (Data.VInt 10) (Data.VInt 10) (Data.VInt 0)
         1001 (@Data.Build_world DataSpec.toy_torch (DataSpec.fresh_wrapper 50) 7%Z)).
Proof. vm_compute. discriminate. Qed.

(** ** C7: normalisation statistics *)

Section NormStats.
Import Numeric Data.

Lemma per_column_length f width rs : length (per_column f width rs) = width.
Proof. unfold per_column. rewrite length_map, length_seq. reflexivity. Qed.

Lemma per_column_lookup f width rs j :
  j < width -> per_column f width rs !! j = Some (f (column j rs)).
Proof.
  intros Hj. unfold per_column.
  change (map (fun j0 => f (column j0 rs)) (seq 0 width))
    with ((fun j0 => f (column j0 rs)) <$> seq 0 width).
  rewrite list_lookup_fmap, lookup_seq_lt by exact Hj. reflexivity.
Qed.

(** The running minimum is a lower bound of everything folded in and of
    its starting value, and is one of them. *)
Lemma fold_Qmin_spec l : forall x,
  (fold_left Qmin l x <= x)%Q /\
  (forall y, y ∈ l -> (fold_left Qmin l x <= y)%Q) /\
  (exists y, y ∈ x :: l /\ (fold_left Qmin l x == y)%Q).
Proof.
  induction l as [|a l IH]; intros x; simpl.
  - split; [apply Qle_refl|]. split; [intros y Hy; inversion Hy|].
    exists x. split; [constructor | reflexivity].
  - destruct (IH (Qmin x a)) as (Hle & Hall & (y & Hy & Heq)).
    split; [eapply Qle_trans; [exact Hle | apply Q.le_min_l]|].
    split.
    + intros z Hz. apply elem_of_cons in Hz as [-> | Hz].
      * eapply Qle_trans; [exact Hle | apply Q.le_min_r].
      * apply Hall. exact Hz.
    + apply elem_of_cons in Hy as [-> | Hy].
      * destruct (Q.min_spec x a) as [[_ E] | [_ E]].
        -- exists x. split; [constructor|]. rewrite Heq. exact E.
        -- exists a. split; [constructor; constructor|]. rewrite Heq. exact E.
      * exists y. split; [constructor; constructor; exact Hy | exact Heq].
Qed.

Lemma fold_Qmax_spec l : forall x,
  (x <= fold_left Qmax l x)%Q /\
  (forall y, y ∈ l -> (y <= fold_left Qmax l x)%Q).
Proof.
  induction l as [|a l IH]; intros x; simpl.
  - split; [apply Qle_refl|]. intros y Hy; inversion Hy.
  - destruct (IH (Qmax x a)) as (Hle & Hall).
    split; [eapply Qle_trans; [apply Q.le_max_l | exact Hle]|].
    intros z Hz. apply elem_of_cons in Hz as [-> | Hz].
    + eapply Qle_trans; [apply Q.le_max_r | exact Hle].
    + apply Hall. exact Hz.
Qed.

Lemma Qminimum_spec c :
  c <> [] ->
  (forall x, x ∈ c -> (Qminimum c <= x)%Q) /\
  (exists x, x ∈ c /\ (Qminimum c == x)%Q).
Proof.
  destruct c as [|x c]; [congruence|]. intros _. simpl.
  destruct (fold_Qmin_spec c x) as (Hle & Hall & Hex).
  split; [|exact Hex].
  intros y Hy. apply elem_of_cons in Hy as [-> | Hy]; [exact Hle | apply Hall; exact Hy].
Qed.

Lemma Qmaximum_spec c x : x ∈ c -> (x <= Qmaximum c)%Q.
Proof.
  destruct c as [|a c]; [intros H; inversion H|]. simpl.
  destruct (fold_Qmax_spec c a) as (Hle & Hall).
  intros Hy. apply elem_of_cons in Hy as [-> | Hy]; [exact Hle | apply Hall; exact Hy].
Qed.

Lemma isclose_false_differ tmin tmax :
  isclose default_rtol default_atol tmin tmax = false -> ~ (tmax - tmin == 0)%Q.
Proof.
  unfold isclose. intros Hfar Heq.
  assert (Hclose : Qle_bool (Qabs (tmin - tmax))
                     (default_atol + default_rtol * Qabs tmax) = true).
  { apply Qle_bool_iff.
    assert (E : (tmin - tmax == 0)%Q).
    { assert (E0 : (tmin - tmax == - (tmax - tmin))%Q) by ring.
      rewrite E0, Heq. reflexivity. }
    rewrite E. change (Qabs 0) with 0%Q.
    assert (H0 : (0 <= default_rtol * Qabs tmax)%Q).
    { apply Qmult_le_0_compat; [discriminate | apply Qabs_nonneg]. }
    assert (H1 : (0 <= default_atol)%Q) by discriminate.
    exact (Qplus_le_compat 0 default_atol 0 (default_rtol * Qabs tmax) H1 H0). }
  congruence.
Qed.

Lemma not_close_to_zero_nonzero tmin :
  isclose default_rtol default_atol tmin 0 = false -> ~ (tmin == 0)%Q.
Proof.
  intros Hfar Heq.
  assert (Hclose : isclose default_rtol default_atol tmin 0 = true).
  { apply isclose_zero. rewrite Heq. discriminate. }
  congruence.
Qed.

Lemma norm_scale_nonzero tmin tmax : ~ (norm_scale tmin tmax == 0)%Q.
Proof.
  unfold norm_scale.
  destruct (isclose default_rtol default_atol tmin tmax) eqn:E1.
  - destruct (isclose default_rtol default_atol tmin 0) eqn:E2; simpl.
    + discriminate.
    + apply not_close_to_zero_nonzero. exact E2.
  - apply isclose_false_differ. exact E1.
Qed.

Lemma column_nonempty j rs : rs <> [] -> column j rs <> [].
Proof. destruct rs; [congruence | discriminate]. Qed.

End NormStats.

(** C7: [_get_norm_stats] returns, for a batch with at least one row, the
    per-dimension minimum as shift and a scale every component of which is
    non-zero: the maximum minus the minimum for a dimension where the two
    are not close (in particular they then differ), otherwise the minimum
    itself when it is not close to zero, otherwise exactly 1. *)
Theorem norm_stats_scale_nonzero (input_batch : Data.tensor2) (padded : bool) :
  let rs := if padded
            then Data._unpad Data.default_unpad_tolerance (Data.rows input_batch)
            else Data.rows input_batch in
  let close := Numeric.isclose Numeric.default_rtol Numeric.default_atol in
  (rs <> [] ->
   exists shift scale, Data._get_norm_stats input_batch padded = Ok (shift, scale)) /\
  (forall shift scale,
     Data._get_norm_stats input_batch padded = Ok (shift, scale) ->
     length shift = Data.ncols input_batch /\
     length scale = Data.ncols input_batch /\
     (forall j s, scale !! j = Some s -> ~ (s == 0)%Q) /\
     forall j, j < Data.ncols input_batch ->
       let tmin := Data.Qminimum (Data.column j rs) in
       let tmax := Data.Qmaximum (Data.column j rs) in
       shift !! j = Some tmin /\
       (forall x, x ∈ Data.column j rs -> (tmin <= x <= tmax)%Q) /\
       (exists x, x ∈ Data.column j rs /\ (tmin == x)%Q) /\
       exists s, scale !! j = Some s /\
         (close tmin tmax = false -> s = (tmax - tmin)%Q /\ ~ (tmax == tmin)%Q) /\
         (close tmin tmax = true -> close tmin 0%Q = false -> s = tmin) /\
         (close tmin tmax = true -> close tmin 0%Q = true -> s = 1%Q)).
Proof.
  intros rs close. unfold Data._get_norm_stats. fold rs.
  split.
  - intros Hne. destruct rs as [|r rs']; [congruence|]. eauto.
  - intros shift scale Hrun.
    destruct rs as [|r rs'] eqn:Hrs; [discriminate|].
    assert (Hne : rs <> []) by (rewrite Hrs; discriminate).
    rewrite <- Hrs in *. injection Hrun as <- <-.
    set (mins := Data.per_column Data.Qminimum (Data.ncols input_batch) rs).
    set (maxs := Data.per_column Data.Qmaximum (Data.ncols input_batch) rs).
    assert (Hscale : forall j, j < Data.ncols input_batch ->
              map (fun '(tmin, tmax) => Data.norm_scale tmin tmax) (combine mins maxs) !! j
              = Some (Data.norm_scale (Data.Qminimum (Data.column j rs))
                                      (Data.Qmaximum (Data.column j rs)))).
    { intros j Hj.
      change (map ?f ?l) with (f <$> l).
      rewrite list_lookup_fmap.
      assert (Hz : combine mins maxs !! j
                   = Some (Data.Qminimum (Data.column j rs), Data.Qmaximum (Data.column j rs))).
      { change (combine mins maxs) with (zip mins maxs).
        apply lookup_zip_with_Some. eexists _, _. split; [reflexivity|].
        split; apply per_column_lookup; exact Hj. }
      rewrite Hz. reflexivity. }
    assert (Hlen : length (map (fun '(tmin, tmax) => Data.norm_scale tmin tmax)
                              (combine mins maxs)) = Data.ncols input_batch).
    { rewrite length_map, length_combine. subst mins maxs.
      rewrite !per_column_length. lia. }
    split; [apply per_column_length|]. split; [exact Hlen|]. split.
    + intros j s Hs. pose proof (lookup_lt_Some _ _ _ Hs) as Hj. rewrite Hlen in Hj.
      rewrite (Hscale j Hj) in Hs. injection Hs as <-. apply norm_scale_nonzero.
    + intros j Hj. cbv zeta.
      set (tmin := Data.Qminimum (Data.column j rs)).
      set (tmax := Data.Qmaximum (Data.column j rs)).
      destruct (Qminimum_spec (Data.column j rs) (column_nonempty j rs Hne)) as [Hlow Hatt].
      split; [apply per_column_lookup; exact Hj|].
      split; [intros x Hx; split; [apply Hlow; exact Hx | apply Qmaximum_spec; exact Hx]|].
      split; [exact Hatt|].
      exists (Data.norm_scale tmin tmax). split; [apply Hscale; exact Hj|].
      unfold Data.norm_scale. fold close. split; [|split].
      * intros E. rewrite E. split; [reflexivity|].
        intros Heq. apply (isclose_false_differ tmin tmax E). rewrite Heq. ring.
      * intros E1 E2. rewrite E1, E2. reflexivity.
      * intros E1 E2. rewrite E1, E2. reflexivity.
Qed.

(** Translations of two panels: the first coordinate varies, the second is
    constant and non-zero, the third is constantly zero. *)
Lemma norm_stats_scale_nonzero_witness :
  Data._get_norm_stats
    {| Data.ncols := 3; Data.rows := [[0; 5; 0]; [4; 5; 0]]%Q |} false
  = Ok ([0; 5; 0]%Q, [4 - 0; 5; 1]%Q) /\
  forall j s, [4 - 0; 5; 1]%Q !! j = Some s -> ~ (s == 0)%Q.
Proof.
  split; [reflexivity|].
  destruct (norm_stats_scale_nonzero
              {| Data.ncols := 3; Data.rows := [[0; 5; 0]; [4; 5; 0]]%Q |} false)
    as [_ Hall].
  destruct (Hall [0; 5; 0]%Q [4 - 0; 5; 1]%Q eq_refl) as (_ & _ & Hnz & _).
  exact Hnz.
Defined.

(** ** C6: stored statistics have priority *)

(** C6: when the configuration already has a ['standardize'] entry,
    [standardize] (of [Garment3DPatternFullDataset] and of
    [GarmentPanelDataset]) does the same whatever training subset is passed,
    leaves the whole configuration -- in particular ['standardize'] --
    identical, and, when it succeeds, appends the transforms built from the
    stored statistics to the transform list cleared of earlier
    standardisation transforms. *)
Theorem standardize_keeps_stored_stats `{torch : Data.Torch}
    (ds : Data.Dataset) (stats : Data.cfg)
    (training_arg : option (option Data.batch)) :
  Data.config ds !! "standardize" = Some stats ->
  (Data.Garment3DPatternFullDataset_standardize training_arg ds
   = Data.Garment3DPatternFullDataset_standardize None ds /\
   Data.config (snd (Data.Garment3DPatternFullDataset_standardize training_arg ds))
   = Data.config ds /\
   (fst (Data.Garment3DPatternFullDataset_standardize training_arg ds) = Ok tt ->
    exists gt_shift gt_scale f_shift f_scale t1 t2,
      Data.cfg_item stats "gt_shift" = Ok gt_shift /\
      Data.cfg_item stats "gt_scale" = Ok gt_scale /\
      Data.cfg_item stats "f_shift" = Ok f_shift /\
      Data.cfg_item stats "f_scale" = Ok f_scale /\
      Data.GTtandartization gt_shift gt_scale = Ok t1 /\
      Data.FeatureStandartization f_shift f_scale = Ok t2 /\
      Data.transforms (snd (Data.Garment3DPatternFullDataset_standardize training_arg ds))
      = filter (fun t => Data.is_gt_std t = false /\ Data.is_feature_std t = false)
               (Data.transforms ds) ++ [t1; t2])) /\
  (Data.GarmentPanelDataset_standardize training_arg ds
   = Data.GarmentPanelDataset_standardize None ds /\
   Data.config (snd (Data.GarmentPanelDataset_standardize training_arg ds))
   = Data.config ds /\
   (fst (Data.GarmentPanelDataset_standardize training_arg ds) = Ok tt ->
    exists shift scale t,
      Data.cfg_item stats "shift" = Ok shift /\
      Data.cfg_item stats "scale" = Ok scale /\
      Data.FeatureStandartization shift scale = Ok t /\
      Data.transforms (snd (Data.GarmentPanelDataset_standardize training_arg ds))
      = filter (fun t => Data.is_feature_std t = false) (Data.transforms ds) ++ [t])).
Proof.
  intros Hstats. split.
  - unfold Data.Garment3DPatternFullDataset_standardize. rewrite Hstats.
    split; [reflexivity|].
    destruct (Data.cfg_item stats "gt_shift") as [gsh|] eqn:E1; simpl;
      [|split; [reflexivity | discriminate]].
    destruct (Data.cfg_item stats "gt_scale") as [gsc|] eqn:E2; simpl;
      [|split; [reflexivity | discriminate]].
    destruct (Data.GTtandartization gsh gsc) as [t1|] eqn:E3; simpl;
      [|split; [reflexivity | discriminate]].
    destruct (Data.cfg_item stats "f_shift") as [fsh|] eqn:E4; simpl;
      [|split; [reflexivity | discriminate]].
    destruct (Data.cfg_item stats "f_scale") as [fsc|] eqn:E5; simpl;
      [|split; [reflexivity | discriminate]].
    destruct (Data.FeatureStandartization fsh fsc) as [t2|] eqn:E6; simpl;
      [|split; [reflexivity | discriminate]].
    split; [reflexivity|]. intros _.
    exists gsh, gsc, fsh, fsc, t1, t2.
    repeat (split; [assumption || reflexivity|]).
    rewrite <- app_assoc. reflexivity.
  - unfold Data.GarmentPanelDataset_standardize. rewrite Hstats.
    split; [reflexivity|].
    destruct (Data.cfg_item stats "shift") as [sh|] eqn:E1; simpl;
      [|split; [reflexivity | discriminate]].
    destruct (Data.cfg_item stats "scale") as [sc|] eqn:E2; simpl;
      [|split; [reflexivity | discriminate]].
    destruct (Data.FeatureStandartization sh sc) as [t|] eqn:E3; simpl;
      [|split; [reflexivity | discriminate]].
    split; [reflexivity|]. intros _.
    exists sh, sc, t. repeat (split; [assumption || reflexivity|]). reflexivity.
Qed.

(** A restored dataset standardised with a training batch at hand. *)
Lemma standardize_keeps_stored_stats_witness :
  Data.config (snd (@Data.Garment3DPatternFullDataset_standardize DataSpec.toy_torch
                      (Some (Some DataSpec.small_batch)) DataSpec.restored_dataset))
  = Data.config DataSpec.restored_dataset /\
  fst (@Data.Garment3DPatternFullDataset_standardize DataSpec.toy_torch
         (Some (Some DataSpec.small_batch)) DataSpec.restored_dataset) = Ok tt.
Proof.
  split.
  - apply (@standardize_keeps_stored_stats DataSpec.toy_torch
             DataSpec.restored_dataset DataSpec.restored_stats
             (Some (Some DataSpec.small_batch))).
    reflexivity.
  - vm_compute. reflexivity.
Defined.

(** ** C2: stitch tags to stitches *)

Section TagsToStitches.
Import Numeric Data DataSpec.

(** Compared with zero, the positional tolerance has no effect: a tag is a
    candidate as soon as one component exceeds the default absolute
    tolerance 1e-8. *)
Lemma positional_tolerance_against_zero (tag : list Q) (r : Q) :
  all_isclose_positional tag (repeat 0%Q (length tag)) r = true <->
  Forall (fun a => (Qabs a <= default_atol)%Q) tag.
Proof.
  unfold all_isclose_positional, all_close.
  induction tag as [|a tag IH]; simpl.
  - split; [constructor | reflexivity].
  - rewrite andb_true_iff, IH, isclose_zero. split.
    + intros [Ha Hrest]. constructor; assumption.
    + intros H. inversion H; subst. auto.
Qed.

End TagsToStitches.

(** C2 (code evaluated at the failing inputs): two edges whose tags are
    within 0.01 of zero are both kept as candidates and reported as a
    stitch, where the specified rule discards them; and two edges whose
    tags agree within 0.1 in every component are not reported, where the
    specified rule stitches them. *)
Theorem tags_to_stitches_tolerances :
  Data.tags_to_stitches DataSpec.faint_tags = [((0, 0), (0, 1))] /\
  DataSpec.tags_to_stitches_spec DataSpec.faint_tags = [] /\
  Data.tags_to_stitches DataSpec.nearby_tags = [] /\
  DataSpec.tags_to_stitches_spec DataSpec.nearby_tags = [((0, 0), (0, 1))].
Proof. repeat split; vm_compute; reflexivity. Qed.

(** ** C9: [SampleToTensor] *)

(** C9 (code evaluated at the failing input): for the default sample, whose
    ground truth is an array, [SampleToTensor] returns the ground truth
    wrapped in a one-element tuple, not the tensor itself as specified;
    features and name are as specified. *)
Theorem SampleToTensor_wraps_ground_truth :
  Data.SampleToTensor DataSpec.default_sample
  = Ok {| Data.features := Data.PTensor {| Data.shape := [1]; Data.data := [0%Q] |};
          Data.ground_truth :=
            Data.PTuple [Data.PTensor {| Data.shape := [1]; Data.data := [0%Q] |}];
          Data.name := "datapoint" |} /\
  DataSpec.SampleToTensor_spec DataSpec.default_sample
  = Ok {| Data.features := Data.PTensor {| Data.shape := [1]; Data.data := [0%Q] |};
          Data.ground_truth := Data.PTensor {| Data.shape := [1]; Data.data := [0%Q] |};
          Data.name := "datapoint" |}.
Proof. split; reflexivity. Qed.

(** Whenever the ground truth is not a dictionary, what [SampleToTensor]
    returns differs from the specified conversion exactly by that tuple. *)
Lemma SampleToTensor_tuple (sample s' : Data.Sample) :
  (forall d, Data.ground_truth sample <> Data.PDict d) ->
  Data.SampleToTensor sample = Ok s' ->
  exists t,
    Data.ground_truth s' = Data.PTuple [Data.PTensor t] /\
    DataSpec.SampleToTensor_spec sample
    = Ok {| Data.features := Data.features s';
            Data.ground_truth := Data.PTensor t; Data.name := Data.name s' |}.
Proof.
  intros Hnd. unfold Data.SampleToTensor, DataSpec.SampleToTensor_spec.
  destruct sample as [f gt nm]. simpl in *.
  destruct gt as [|a|a|t|items|d]; simpl; try discriminate.
  - destruct f as [|fa|fa|ft|fi|fd]; simpl; try discriminate;
      intros [= <-]; eexists; split; reflexivity.
  - destruct f as [|fa|fa|ft|fi|fd]; simpl; try discriminate;
      intros [= <-]; eexists; split; reflexivity.
  - exfalso. apply (Hnd d). reflexivity.
Qed.

(** On dictionaries of arrays the code and the specified conversion agree. *)
Lemma SampleToTensor_dict (sample : Data.Sample) d :
  Data.ground_truth sample = Data.PDict d ->
  Data.SampleToTensor sample = DataSpec.SampleToTensor_spec sample.
Proof.
  intros Hd. unfold Data.SampleToTensor, DataSpec.SampleToTensor_spec.
  rewrite Hd. reflexivity.
Qed.

(** ** C8: equilibrium detection *)

(** C8 (code evaluated at the failing input): on the first call after the
    first snapshot of a loaded garment, [is_static] returns the bare boolean
    [False], not a (boolean, count) pair. *)
Theorem is_static_first_call_is_bare (threshold percent : Q)
    (verts : list MayaScene.point) :
  (g ← MayaScene.update_verts_info verts MayaSpec.loaded_garment;
   MayaScene.is_static threshold percent g) = Ok (MayaScene.Bare false) /\
  MayaScene.is_static threshold percent MayaSpec.loaded_garment
  = Ok (MayaScene.Bare false).
Proof. split; reflexivity. Qed.

(** Once two snapshots of the same size exist, the result is a pair: the
    count of vertices that moved by more than the threshold, and whether
    that count is zero or below the allowed percentage of the vertex
    count. *)
Lemma is_static_pair (threshold percent : Q) (cur last : list MayaScene.point) :
  length cur = length last ->
  let g := {| MayaScene.loaded_to_maya := true;
              MayaScene.last_verts := Some last;
              MayaScene.current_verts := Some cur |} in
  let n := MayaSpec.moved threshold cur last in
  exists b, MayaScene.is_static threshold percent g = Ok (MayaScene.Pair b n) /\
    (b = true <->
     n = 0 \/ (inject_Z (Z.of_nat n)
               < inject_Z (Z.of_nat (length cur)) * (1 # 100) * percent)%Q).
Proof.
  intros Hlen g n. unfold MayaScene.is_static. simpl.
  unfold MayaScene.broadcast_rows. rewrite Hlen, Nat.eqb_refl. simpl.
  assert (Hn : length (filter (fun d => MayaScene.exceeds threshold d = true)
                         (map MayaScene.l1_displacement (combine cur last))) = n).
  { subst n. unfold MayaSpec.moved. generalize (combine cur last). intros l.
    induction l as [|pr l IH]; [reflexivity|].
    simpl map. rewrite !filter_cons.
    destruct (decide (MayaScene.exceeds threshold (MayaScene.l1_displacement pr) = true));
      simpl; rewrite IH; reflexivity. }
  rewrite Hn.
  set (limit := (inject_Z (Z.of_nat (length last)) * (1 # 100) * percent)%Q).
  destruct (Nat.eqb_spec n 0) as [E | E]; simpl.
  - exists true. split; [reflexivity|]. split; auto.
  - destruct (Qle_bool limit (inject_Z (Z.of_nat n))) eqn:Hle; simpl.
    + exists false. split; [reflexivity|]. split; [discriminate|].
      intros [H | H]; [contradiction|].
      apply Qle_bool_iff in Hle. fold limit in H.
      exfalso. apply (Qlt_not_le _ _ H). exact Hle.
    + exists true. split; [reflexivity|]. split; [|reflexivity].
      intros _. right. fold limit.
      apply Qnot_le_lt. intros H. apply Qle_bool_iff in H. congruence.
Qed.

(** ** What a successful encoding says about its input and output *)

Section EncoderInversion.
Import Numeric PatternConverter PatternSpec CodecSpec.
Context `{ext : External}.

Lemma rmap_ok_Forall2 {A B} (f : A -> result B) (l : list A) (r : list B) :
  rmap f l = Ok r -> Forall2 (fun x y => f x = Ok y) l r.
Proof.
  revert r. induction l as [|x l IH]; intros r; simpl.
  - intros [= <-]. constructor.
  - destruct (f x) as [y|e] eqn:Hx; simpl; [|discriminate].
    destruct (rmap f l) as [ys|e] eqn:Hr; simpl; [|discriminate].
    intros [= <-]. constructor; [exact Hx | apply IH; reflexivity].
Qed.

Lemma list_index_ok_elem x l i : list_index x l = Ok i -> x ∈ l /\ l !! i = Some x.
Proof.
  revert i. induction l as [|y l IH]; intros i; simpl; [discriminate|].
  destruct (String.eqb_spec x y) as [-> | Hne].
  - intros [= <-]. split; [constructor | reflexivity].
  - destruct (list_index x l) as [j|e]; simpl; [|discriminate].
    intros [= <-]. destruct (IH j eq_refl) as [Hin Hj].
    split; [constructor; exact Hin | exact Hj].
Qed.

Lemma edge_as_vector_inv verts e r :
  _edge_as_vector verts e = Ok r ->
  fst (endpoints e) < length verts /\ snd (endpoints e) < length verts.
Proof.
  unfold _edge_as_vector.
  destruct (verts !! fst (endpoints e)) as [v0|] eqn:H0; [|discriminate].
  destruct (verts !! snd (endpoints e)) as [v1|] eqn:H1; [|discriminate].
  intros _. split; eapply lookup_lt_Some; eassumption.
Qed.

Lemma edge_sequence_of_inv pnl rows :
  edge_sequence_of pnl = Ok rows ->
  panel_well_formed pnl /\ length rows = length (edges pnl).
Proof.
  unfold edge_sequence_of. intros Hr. split.
  - intros e He. apply list_elem_of_lookup_1 in He as [k Hk].
    destruct (rmap_ok_lookup _ _ _ _ _ Hr Hk) as (r & Hv & _).
    eapply edge_as_vector_inv. exact Hv.
  - eapply rmap_ok_length. exact Hr.
Qed.

(** A panel is encoded only if it exists, is well formed, and has between
    one and [L] edges; its rows are then its edge vectors followed by zero
    rows up to [L]. *)
Lemma panel_as_numeric_inv pat nm L es rot tr :
  panel_as_numeric pat nm (Some L) = Ok (es, rot, tr) ->
  exists pnl rows,
    panels pat !! nm = Some pnl /\ edge_sequence_of pnl = Ok rows /\
    1 <= length rows <= L /\ es = rows ++ repeat zero_row (L - length rows) /\
    length es = L.
Proof.
  unfold panel_as_numeric, getitem.
  destruct (panels pat !! nm) as [pnl|] eqn:Hpnl; simpl; [|discriminate].
  unfold mbind, result_bind, rbind.
  destruct (rmap (_edge_as_vector (vertices pnl)) (edges pnl)) as [rows|] eqn:Hrows;
    [|discriminate].
  destruct (Nat.ltb_spec L (length rows)) as [Hgt | Hle]; [discriminate|].
  destruct (Nat.ltb_spec (length rows) L) as [Hlt | Hge].
  - destruct rows as [|r0 rows']; [discriminate|].
    intros [= <- <- <-]. exists pnl, (r0 :: rows').
    split; [reflexivity|]. split; [exact Hrows|].
    split; [simpl in *; lia|]. split; [reflexivity|].
    simpl in *. rewrite length_app, repeat_length. lia.
  - destruct rows as [|r0 rows']; [discriminate|].
    intros [= <- <- <-]. exists pnl, (r0 :: rows').
    split; [reflexivity|]. split; [exact Hrows|].
    split; [simpl in *; lia|].
    replace (L - length (r0 :: rows')) with 0 by lia.
    simpl repeat. rewrite app_nil_r. split; [reflexivity | lia].
Qed.

Lemma fill_stitches_inv order L sts : forall idx arr arr',
  fill_stitches order L idx sts arr = Ok arr' ->
  (sts <> [] -> idx + length sts <= length arr) /\
  (forall st, st ∈ sts -> side_panel (fst st) ∈ order /\ side_panel (snd st) ∈ order).
Proof.
  induction sts as [|[s0 s1] sts IH]; intros idx arr arr' Hrun.
  - split; [congruence | intros st H; inversion H].
  - simpl in Hrun.
    destruct (Nat.leb_spec (length arr) idx) as [Hle | Hlt]; [discriminate|].
    destruct (list_index (side_panel s0) order) as [p0|] eqn:H0; simpl in Hrun;
      [|discriminate].
    destruct (list_index (side_panel s1) order) as [p1|] eqn:H1; simpl in Hrun;
      [|discriminate].
    apply IH in Hrun as [Hlen Hin]. rewrite length_insert in Hlen. split.
    + intros _. simpl. destruct sts as [|st sts']; [simpl; lia|].
      specialize (Hlen ltac:(discriminate)). simpl in *. lia.
    + intros st Hst. apply elem_of_cons in Hst as [-> | Hst]; [|apply Hin; exact Hst].
      simpl. split; [apply (list_index_ok_elem _ _ _ H0) | apply (list_index_ok_elem _ _ _ H1)].
Qed.

(** Everything a successful run of [pattern_as_tensors] went through. *)
Lemma pattern_as_tensors_inv pat pl pn ps t :
  pattern_as_tensors pat pl pn ps = Ok t ->
  exists lens numerics k,
    let L := dim1 (t_panel_seqs t) in
    let seqs := map (fun x => fst (fst x)) numerics in
    rmap (fun nm => pnl ← getitem (panels pat) nm; Ok (length (edges pnl)))
         (panel_order pat) = Ok lens /\
    (match pl with Some l => L = l | None => L = foldr Nat.max 0 lens end) /\
    rmap (fun nm => panel_as_numeric pat nm (Some L)) (panel_order pat) = Ok numerics /\
    numerics <> [] /\
    k = default 0 pn - length numerics /\
    slots (t_panel_seqs t)
      = seqs ++ repeat (map (fun _ => zero_row) (hd [] seqs)) k /\
    t_panel_lens t = lens ++ repeat 0 k /\
    length (t_rotations t) = length numerics + k /\
    length (t_translations t) = length numerics + k /\
    t_num_panels t = size (panels pat) /\
    t_num_stitches t = length (stitches pat) /\
    length (stitches pat) <= default (length (stitches pat)) ps /\
    fill_stitches (panel_order pat) L 0 (stitches pat)
      (repeat (0, 0)%Z (default (length (stitches pat)) ps)) = Ok (t_stitches t).
Proof.
  unfold pattern_as_tensors. cbv zeta.
  destruct (rmap (fun nm => pnl ← getitem (panels pat) nm; Ok (length (edges pnl)))
                 (panel_order pat)) as [lens|] eqn:Hlens; [|discriminate].
  unfold mbind at 1, result_bind at 1, rbind at 1.
  set (maxlen := match pl with
                 | Some l => Ok l
                 | None => match lens with
                           | [] => Raise ValueError
                           | _ :: _ => Ok (foldr Nat.max 0 lens)
                           end
                 end).
  destruct maxlen as [L|] eqn:HL; [|discriminate].
  unfold mbind at 1, result_bind at 1, rbind at 1.
  destruct (rmap (fun nm => panel_as_numeric pat nm (Some L)) (panel_order pat))
    as [numerics|] eqn:Hnum; [|discriminate].
  unfold mbind at 1, result_bind at 1, rbind at 1.
  assert (HLspec : match pl with Some l => L = l | None => L = foldr Nat.max 0 lens end).
  { subst maxlen. destruct pl as [l|]; [injection HL as <-; reflexivity|].
    destruct lens; [discriminate | injection HL as <-; reflexivity]. }
  clear HL maxlen.
  set (ncols := default (length (stitches pat)) ps).
  destruct numerics as [|num0 numerics'].
  { (* no panel: every path ends in an exception *)
    simpl map. destruct pn as [n|]; simpl.
    - destruct n as [|n]; simpl; [|discriminate].
      destruct (ncols <? length (stitches pat)); [discriminate|].
      destruct (fill_stitches _ _ _ _ _); simpl; discriminate.
    - destruct (ncols <? length (stitches pat)); [discriminate|].
      destruct (fill_stitches _ _ _ _ _); simpl; discriminate. }
  set (numerics := num0 :: numerics') in *.
  intros Hrun.
  assert (Hcases :
    exists k, k = default 0 pn - length numerics /\
      (let seqs := map (fun x => fst (fst x)) numerics in
       (ncols <? length (stitches pat)) = false /\
       exists cols,
         fill_stitches (panel_order pat) L 0 (stitches pat) (repeat (0, 0)%Z ncols) = Ok cols /\
         t = {| t_panel_seqs :=
                  {| dim1 := L;
                     slots := seqs ++ repeat (map (fun _ => zero_row) (hd [] seqs)) k |};
                t_panel_lens := lens ++ repeat 0 k;
                t_num_panels := size (panels pat);
                t_rotations :=
                  map (fun x => snd (fst x)) numerics
                    ++ repeat (map (fun _ => 0%Q) (snd (fst num0))) k;
                t_translations :=
                  map snd numerics ++ repeat (map (fun _ => 0%Q) (snd num0)) k;
                t_stitches := cols;
                t_num_stitches := length (stitches pat) |})).
  { exists (default 0 pn - length numerics). split; [reflexivity|]. cbv zeta.
    revert Hrun. subst numerics. cbn [map fst snd hd].
    destruct pn as [n|]; cbn [default from_option].
    - destruct (Nat.ltb_spec (length (fst (fst num0) :: map (fun x => fst (fst x)) numerics')) n)
        as [Hlt | Hge].
      + cbv beta iota. unfold mbind, result_bind, rbind. fold ncols.
        destruct (ncols <? length (stitches pat)); [discriminate|].
        destruct (fill_stitches _ _ _ _ _) as [cols|]; [|discriminate].
        intros [= <-]. split; [reflexivity|]. exists cols. split; [reflexivity|].
        cbn [length]. rewrite !length_map. reflexivity.
      + cbv beta iota. unfold mbind, result_bind, rbind. fold ncols.
        destruct (ncols <? length (stitches pat)); [discriminate|].
        destruct (fill_stitches _ _ _ _ _) as [cols|]; [|discriminate].
        intros [= <-]. split; [reflexivity|]. exists cols. split; [reflexivity|].
        cbn [length] in *. rewrite length_map in Hge.
        replace (id n - S (length numerics')) with 0 by (unfold id; lia).
        simpl repeat. rewrite !app_nil_r. reflexivity.
    - cbv beta iota. unfold mbind, result_bind, rbind. fold ncols.
      destruct (ncols <? length (stitches pat)); [discriminate|].
      destruct (fill_stitches _ _ _ _ _) as [cols|]; [|discriminate].
      intros [= <-]. split; [reflexivity|]. exists cols. split; [reflexivity|].
      cbn [Nat.sub repeat]. rewrite !app_nil_r. reflexivity. }
  destruct Hcases as (k & Hk & Hlt & cols & Hfill & ->).
  exists lens, numerics, k. cbn [t_panel_seqs dim1 slots t_panel_lens t_rotations
                                 t_translations t_stitches t_num_panels t_num_stitches].
  split; [reflexivity|]. split; [exact HLspec|]. split; [exact Hnum|].
  split; [discriminate|]. split; [exact Hk|]. split; [reflexivity|].
  split; [reflexivity|].
  split; [rewrite length_app, repeat_length, length_map; reflexivity|].
  split; [rewrite length_app, repeat_length, length_map; reflexivity|].
  split; [reflexivity|]. split; [reflexivity|].
  split; [apply Nat.ltb_ge in Hlt; exact Hlt | exact Hfill].
Qed.

End EncoderInversion.

Section EncoderFacts.
Import Numeric PatternConverter PatternSpec CodecSpec.

Lemma numerics_rows `{ext : External} pat L order numerics :
  rmap (fun nm => panel_as_numeric pat nm (Some L)) order = Ok numerics ->
  length numerics = length order /\
  Forall (fun num => length (fst (fst num)) = L) numerics /\
  forall nm, nm ∈ order ->
    exists pnl, panels pat !! nm = Some pnl /\ panel_well_formed pnl /\
                1 <= length (edges pnl) <= L.
Proof.
  intros Hnum. split; [eapply rmap_ok_length; exact Hnum|]. split.
  - apply Forall_lookup. intros i [[es rot] tr] Hi.
    apply rmap_ok_Forall2 in Hnum.
    destruct (Forall2_lookup_r _ _ _ _ _ Hnum Hi) as (nm & _ & Hrun).
    apply panel_as_numeric_inv in Hrun as (pnl & rows & _ & _ & _ & _ & Hlen).
    exact Hlen.
  - intros nm Hnm. apply list_elem_of_lookup_1 in Hnm as [i Hi].
    destruct (rmap_ok_lookup _ _ _ _ _ Hnum Hi) as ([[es rot] tr] & Hrun & _).
    apply panel_as_numeric_inv in Hrun as (pnl & rows & Hpnl & Hrows & Hlen & _ & _).
    apply edge_sequence_of_inv in Hrows as [Hwf Hl].
    exists pnl. split; [exact Hpnl|]. split; [exact Hwf | lia].
Qed.

Lemma lookup_repeat {A} (x : A) n i : i < n -> repeat x n !! i = Some x.
Proof.
  revert i. induction n as [|n IH]; intros i Hi; [lia|].
  destruct i as [|i]; simpl; [reflexivity | apply IH; lia].
Qed.

Lemma panel_lens_values pat order lens :
  rmap (fun nm => pnl ← getitem (panels pat) nm; Ok (length (edges pnl))) order = Ok lens ->
  Forall2 (fun nm c => exists pnl, panels pat !! nm = Some pnl /\ c = length (edges pnl))
          order lens.
Proof.
  intros Hl. apply rmap_ok_Forall2 in Hl.
  eapply Forall2_impl; [exact Hl|]. intros nm c Hc. simpl in Hc.
  unfold getitem in Hc. destruct (panels pat !! nm) as [pnl|]; [|discriminate].
  simpl in Hc. injection Hc as <-. eauto.
Qed.


(** X1: whenever [pattern_as_tensors] returns, its tensors are rectangular
    and consistently sized: the edge dimension is the requested
    [pad_panels_to_len] (the largest edge count when none is requested),
    every panel slot has exactly that many rows, the number of slots is the
    larger of the panel count and [pad_panels_num], the per-panel edge
    counts, rotations and translations have one entry per slot, no edge
    count exceeds the edge dimension, and the stitch array has exactly
    [pad_stitches_num] columns (the number of stitches when none is
    requested), never fewer than there are stitches. *)
Theorem encoded_tensors_are_rectangular `{ext : PatternConverter.External}
    (pat : PatternConverter.pattern)
    (pad_panels_to_len pad_panels_num pad_stitches_num : option nat)
    (t : PatternConverter.pattern_tensors) :
  PatternConverter.pattern_as_tensors pat pad_panels_to_len pad_panels_num pad_stitches_num
  = Ok t ->
  let L := PatternConverter.dim1 (PatternConverter.t_panel_seqs t) in
  let n := length (PatternConverter.slots (PatternConverter.t_panel_seqs t)) in
  (forall l, pad_panels_to_len = Some l -> L = l) /\
  (pad_panels_to_len = None ->
   Forall (fun c => c <= L) (PatternConverter.t_panel_lens t) /\
   L ∈ PatternConverter.t_panel_lens t) /\
  Forall (fun s => length s = L) (PatternConverter.slots (PatternConverter.t_panel_seqs t)) /\
  0 < length (PatternConverter.panel_order pat) /\
  n = Nat.max (length (PatternConverter.panel_order pat)) (default 0 pad_panels_num) /\
  length (PatternConverter.t_panel_lens t) = n /\
  length (PatternConverter.t_rotations t) = n /\
  length (PatternConverter.t_translations t) = n /\
  Forall (fun c => c <= L) (PatternConverter.t_panel_lens t) /\
  length (PatternConverter.t_stitches t)
  = default (length (PatternConverter.stitches pat)) pad_stitches_num /\
  length (PatternConverter.stitches pat) <= length (PatternConverter.t_stitches t) /\
  PatternConverter.t_num_stitches t = length (PatternConverter.stitches pat) /\
  PatternConverter.t_num_panels t = size (PatternConverter.panels pat).
Proof.
  intros Hrun L n.
  destruct (pattern_as_tensors_inv _ _ _ _ _ Hrun)
    as (lens & numerics & k & Hlens & HL & Hnum & Hne & Hk & Hslots & Hpl & Hrot & Htr
        & Hnp & Hns & Hcap & Hfill).
  cbv zeta in *. fold L in HL, Hnum, Hfill.
  destruct (numerics_rows _ _ _ _ Hnum) as (Hnlen & Hrows & Hpanels).
  pose proof (panel_lens_values _ _ _ Hlens) as Hvals.
  pose proof (Forall2_length _ _ _ Hvals) as Hllen.
  assert (Hn0 : 0 < length numerics) by (destruct numerics; [congruence | simpl; lia]).
  assert (Hlens_le : Forall (fun c => c <= L) lens).
  { apply Forall_lookup. intros i c Hc.
    destruct (Forall2_lookup_r _ _ _ _ _ Hvals Hc) as (nm & Hnm & pnl & Hpnl & ->).
    destruct (Hpanels nm (list_elem_of_lookup_2 _ _ _ Hnm)) as (pnl' & Hpnl' & _ & Hle).
    rewrite Hpnl in Hpnl'. injection Hpnl' as <-. lia. }
  assert (Hall_le : Forall (fun c => c <= L) (PatternConverter.t_panel_lens t)).
  { rewrite Hpl. apply Forall_app. split; [exact Hlens_le|].
    apply Forall_forall. intros c Hc. apply list_elem_of_In, repeat_spec in Hc. lia. }
  assert (Hslots_len : n = length numerics + k).
  { subst n. rewrite Hslots, length_app, length_map, repeat_length. reflexivity. }
  assert (Hcols : length (PatternConverter.t_stitches t)
                  = default (length (PatternConverter.stitches pat)) pad_stitches_num).
  { destruct (stitches pat) as [|st sts] eqn:Hst.
    - simpl in Hfill. injection Hfill as <-. apply repeat_length.
    - destruct (fill_stitches_inv _ _ _ _ _ _ Hfill) as [Hin Hsides].
      destruct (fill_stitches_spec (panel_order pat) L (st :: sts) 0
                  (repeat (0, 0)%Z (default (length (st :: sts)) pad_stitches_num)))
        as (arr' & Hrun' & Hlen' & _).
      + apply Hin. discriminate.
      + exact Hsides.
      + rewrite Hfill in Hrun'. injection Hrun' as <-.
        rewrite Hlen', repeat_length. reflexivity. }
  split; [intros l ->; exact HL|].
  split.
  { intros ->. split; [exact Hall_le|]. rewrite Hpl. apply elem_of_app. left.
    rewrite HL. clear -Hllen Hnlen Hn0.
    assert (Hne : lens <> []) by (destruct lens; [simpl in *; lia | discriminate]).
    clear Hllen Hnlen Hn0.
    induction lens as [|c lens IH]; [congruence|].
    destruct lens as [|c' lens'].
    - simpl. rewrite Nat.max_0_r. constructor.
    - specialize (IH ltac:(discriminate)).
      change (foldr Nat.max 0 (c :: c' :: lens'))
        with (Nat.max c (foldr Nat.max 0 (c' :: lens'))).
      destruct (Nat.max_spec c (foldr Nat.max 0 (c' :: lens'))) as [[_ ->] | [_ ->]].
      + constructor. exact IH.
      + constructor. }
  split.
  { rewrite Hslots. apply Forall_app. split.
    - apply Forall_fmap. exact Hrows.
    - apply Forall_forall. intros s Hs. apply list_elem_of_In, repeat_spec in Hs.
      subst s. rewrite length_map.
      destruct numerics as [|num0 rest]; [congruence|]. simpl.
      inversion Hrows; subst. assumption. }
  split; [lia|].
  split; [rewrite Hslots_len, Hk; destruct pad_panels_num; simpl; lia|].
  split; [rewrite Hpl, length_app, repeat_length; lia|].
  split; [lia|]. split; [lia|]. split; [exact Hall_le|].
  split; [exact Hcols|]. split; [rewrite Hcols; exact Hcap|].
  split; [exact Hns | exact Hnp].
Qed.

(** The two-panel pattern padded to six edges, three panels, two stitch
    columns. *)
Lemma encoded_tensors_are_rectangular_witness :
  exists t,
    @PatternConverter.pattern_as_tensors PatternSpec.no_placement
      PatternSpec.two_panel_pattern (Some 6) (Some 3) (Some 2) = Ok t /\
    PatternConverter.dim1 (PatternConverter.t_panel_seqs t) = 6 /\
    length (PatternConverter.slots (PatternConverter.t_panel_seqs t)) = 3 /\
    length (PatternConverter.t_stitches t) = 2.
Proof.
  eexists. split; [vm_compute; reflexivity|].
  destruct (@encoded_tensors_are_rectangular PatternSpec.no_placement
              PatternSpec.two_panel_pattern (Some 6) (Some 3) (Some 2) _ eq_refl)
    as (HL & _ & _ & _ & Hn & _ & _ & _ & _ & Hc & _).
  split; [apply HL; reflexivity|]. split; [exact Hn | exact Hc].
Defined.

(** X2: [pattern_as_tensors] never truncates or skips silently.  If it
    returns, the traversal order is not empty, every panel it names exists,
    has in-range edge endpoints and between one and [dim1] edges, both sides
    of every stitch name a panel of the traversal order, column [j] of the
    stitch array holds the flat edge indices (panel position times [dim1]
    plus edge id) of stitch [j], and every further column is zero. *)
Theorem encoding_succeeds_only_on_valid_input `{ext : PatternConverter.External}
    (pat : PatternConverter.pattern)
    (pad_panels_to_len pad_panels_num pad_stitches_num : option nat)
    (t : PatternConverter.pattern_tensors) :
  PatternConverter.pattern_as_tensors pat pad_panels_to_len pad_panels_num pad_stitches_num
  = Ok t ->
  let L := PatternConverter.dim1 (PatternConverter.t_panel_seqs t) in
  PatternConverter.panel_order pat <> [] /\
  (forall nm, nm ∈ PatternConverter.panel_order pat ->
     exists pnl, PatternConverter.panels pat !! nm = Some pnl /\
                 PatternSpec.panel_well_formed pnl /\
                 1 <= length (PatternConverter.edges pnl) <= L) /\
  (forall st, st ∈ PatternConverter.stitches pat ->
     PatternConverter.side_panel (fst st) ∈ PatternConverter.panel_order pat /\
     PatternConverter.side_panel (snd st) ∈ PatternConverter.panel_order pat) /\
  (forall j st, PatternConverter.stitches pat !! j = Some st ->
     PatternConverter.t_stitches t !! j
     = Some (PatternSpec.encoded_stitch (PatternConverter.panel_order pat) L st)) /\
  (forall k col, PatternConverter.t_stitches t !! k = Some col ->
     length (PatternConverter.stitches pat) <= k -> col = (0, 0)%Z).
Proof.
  intros Hrun L.
  destruct (pattern_as_tensors_inv _ _ _ _ _ Hrun)
    as (lens & numerics & k & Hlens & HL & Hnum & Hne & Hk & Hslots & Hpl & Hrot & Htr
        & Hnp & Hns & Hcap & Hfill).
  cbv zeta in *. fold L in HL, Hnum, Hfill.
  destruct (numerics_rows _ _ _ _ Hnum) as (Hnlen & Hrows & Hpanels).
  destruct (fill_stitches_inv _ _ _ _ _ _ Hfill) as [_ Hsides].
  destruct (fill_stitches_spec (panel_order pat) L (stitches pat) 0
              (repeat (0, 0)%Z (default (length (stitches pat)) pad_stitches_num)))
    as (arr' & Hrun' & Hlen' & Hin' & Hout').
  { rewrite repeat_length. simpl. exact Hcap. }
  { exact Hsides. }
  rewrite Hfill in Hrun'. injection Hrun' as <-.
  split.
  { intros Hnil. rewrite Hnil in Hnlen. destruct numerics; [congruence | discriminate]. }
  split; [exact Hpanels|]. split; [exact Hsides|]. split.
  - intros j st Hj. exact (Hin' j st Hj).
  - intros c col Hc Hle. rewrite Hout' in Hc by (right; simpl; lia).
    apply list_elem_of_lookup_2, list_elem_of_In, repeat_spec in Hc. exact Hc.
Qed.

(** The strap pattern is accepted; its single stitch lands in column 0 and
    column 1 is padding. *)
Lemma encoding_succeeds_only_on_valid_input_witness :
  exists t,
    @PatternConverter.pattern_as_tensors PatternSpec.no_placement
      PatternSpec.two_panel_pattern (Some 6) (Some 3) (Some 2) = Ok t /\
    PatternConverter.panel_order PatternSpec.two_panel_pattern <> [] /\
    forall col, PatternConverter.t_stitches t !! 1 = Some col -> col = (0, 0)%Z.
Proof.
  eexists. split; [vm_compute; reflexivity|].
  destruct (@encoding_succeeds_only_on_valid_input PatternSpec.no_placement
              PatternSpec.two_panel_pattern (Some 6) (Some 3) (Some 2) _ eq_refl)
    as (Hne & _ & _ & _ & Hpad).
  split; [exact Hne|]. intros col Hcol. apply (Hpad 1 col Hcol). vm_compute. lia.
Defined.

(** X3: what the encoder stores per panel.  If [pattern_as_tensors]
    returns, slot [i] of the panel tensor is the edge sequence of the
    [i]-th panel of the traversal order followed by all-zero rows up to
    [dim1], the recorded edge count of that slot is the panel's number of
    edges, and every slot after the last panel holds only zero rows with a
    recorded edge count of zero. *)
Theorem encoded_slots_hold_padded_edge_sequences `{ext : PatternConverter.External}
    (pat : PatternConverter.pattern)
    (pad_panels_to_len pad_panels_num pad_stitches_num : option nat)
    (t : PatternConverter.pattern_tensors) :
  PatternConverter.pattern_as_tensors pat pad_panels_to_len pad_panels_num pad_stitches_num
  = Ok t ->
  let L := PatternConverter.dim1 (PatternConverter.t_panel_seqs t) in
  (forall i nm, PatternConverter.panel_order pat !! i = Some nm ->
     exists pnl rows,
       PatternConverter.panels pat !! nm = Some pnl /\
       PatternSpec.edge_sequence_of pnl = Ok rows /\
       PatternConverter.slots (PatternConverter.t_panel_seqs t) !! i
       = Some (rows ++ repeat PatternConverter.zero_row (L - length rows)) /\
       PatternConverter.t_panel_lens t !! i = Some (length (PatternConverter.edges pnl))) /\
  (forall i s, length (PatternConverter.panel_order pat) <= i ->
     PatternConverter.slots (PatternConverter.t_panel_seqs t) !! i = Some s ->
     s = repeat PatternConverter.zero_row L /\
     PatternConverter.t_panel_lens t !! i = Some 0).
Proof.
  intros Hrun L.
  destruct (pattern_as_tensors_inv _ _ _ _ _ Hrun)
    as (lens & numerics & k & Hlens & HL & Hnum & Hne & Hk & Hslots & Hpl & Hrot & Htr
        & Hnp & Hns & Hcap & Hfill).
  cbv zeta in *. fold L in HL, Hnum, Hfill.
  destruct (numerics_rows _ _ _ _ Hnum) as (Hnlen & Hrows & Hpanels).
  pose proof (panel_lens_values _ _ _ Hlens) as Hvals.
  pose proof (Forall2_length _ _ _ Hvals) as Hllen.
  split.
  - intros i nm Hi.
    destruct (rmap_ok_lookup _ _ _ _ _ Hnum Hi) as ([[es rot] tr] & Hone & Hnumi).
    destruct (panel_as_numeric_inv _ _ _ _ _ _ Hone) as (pnl & rows & Hpnl & Hseq & Hb & Hes & _).
    exists pnl, rows. split; [exact Hpnl|]. split; [exact Hseq|]. split.
    + rewrite Hslots, lookup_app_l by (rewrite length_map; eapply lookup_lt_Some; exact Hnumi).
      rewrite list_lookup_fmap, Hnumi. simpl. rewrite Hes. reflexivity.
    + destruct (Forall2_lookup_l _ _ _ _ _ Hvals Hi) as (c & Hc & pnl' & Hpnl' & ->).
      rewrite Hpnl in Hpnl'. injection Hpnl' as <-.
      rewrite Hpl, lookup_app_l by (eapply lookup_lt_Some; exact Hc). exact Hc.
  - intros i s Hle Hs.
    rewrite Hslots in Hs. rewrite lookup_app_r in Hs by (rewrite length_map; lia).
    pose proof (lookup_lt_Some _ _ _ Hs) as Hik. rewrite repeat_length, length_map in Hik.
    apply list_elem_of_lookup_2, list_elem_of_In, repeat_spec in Hs. subst s.
    split.
    + destruct numerics as [|num0 rest]; [congruence|]. simpl.
      inversion Hrows as [|? ? Hlen0 _]; subst.
      clear -Hlen0. revert Hlen0. generalize (fst (fst num0)). intros l <-.
      induction l as [|r l IH]; simpl; [reflexivity | f_equal; exact IH].
    + rewrite Hpl, lookup_app_r by lia.
      apply lookup_repeat. lia.
Qed.

(** In the two-panel pattern padded to three slots the third slot is all
    zero. *)
Lemma encoded_slots_hold_padded_edge_sequences_witness :
  exists t,
    @PatternConverter.pattern_as_tensors PatternSpec.no_placement
      PatternSpec.two_panel_pattern (Some 6) (Some 3) (Some 2) = Ok t /\
    forall s, PatternConverter.slots (PatternConverter.t_panel_seqs t) !! 2 = Some s ->
      s = repeat PatternConverter.zero_row 6.
Proof.
  eexists. split; [vm_compute; reflexivity|].
  destruct (@encoded_slots_hold_padded_edge_sequences PatternSpec.no_placement
              PatternSpec.two_panel_pattern (Some 6) (Some 3) (Some 2) _ eq_refl)
    as [_ Hpad].
  intros s Hs. apply (Hpad 2 s); [vm_compute; lia | exact Hs].
Defined.

End EncoderFacts.

(* ===================================================================== *)
(** ** Decoder: stitches                                                  *)
(* ===================================================================== *)

Section DecoderStitches.
Import Numeric PatternConverter PatternSpec CodecSpec.

Lemma py_getitem_ok_elem {A} (l : list A) (i : Z) (x : A) :
  py_getitem l i = Ok x -> x ∈ l.
Proof.
  unfold py_getitem. cbv zeta.
  destruct (_ || _)%bool; [discriminate|].
  destruct (l !! _) as [y|] eqn:Hy; [|discriminate].
  intros [= <-]. eapply list_elem_of_lookup_2. exact Hy.
Qed.

Lemma py_getitem_negative {A} (l : list A) (i : Z) :
  (- Z.of_nat (length l) <= i < 0)%Z ->
  exists x, l !! Z.to_nat (i + Z.of_nat (length l)) = Some x /\ py_getitem l i = Ok x.
Proof.
  intros Hi. unfold py_getitem. cbv zeta.
  assert (H0 : (i <? 0)%Z = true) by (apply Z.ltb_lt; lia).
  assert (H1 : (i + Z.of_nat (length l) <? 0)%Z = false) by (apply Z.ltb_ge; lia).
  assert (H2 : (Z.of_nat (length l) <=? i + Z.of_nat (length l))%Z = false)
    by (apply Z.leb_gt; lia).
  rewrite H0, H1, H2. simpl.
  destruct (lookup_lt_is_Some_2 l (Z.to_nat (i + Z.of_nat (length l)))) as [x Hx]; [lia|].
  rewrite Hx. eauto.
Qed.

Lemma py_getitem_below {A} (l : list A) (i : Z) :
  (i < - Z.of_nat (length l))%Z -> py_getitem l i = Raise IndexError.
Proof.
  intros Hi. unfold py_getitem. cbv zeta.
  assert (H0 : (i <? 0)%Z = true) by (apply Z.ltb_lt; lia).
  assert (H1 : (i + Z.of_nat (length l) <? 0)%Z = true) by (apply Z.ltb_lt; lia).
  rewrite H0, H1. reflexivity.
Qed.

Lemma decode_side_inv epp order id s :
  decode_side epp order id = Ok s ->
  side_panel s ∈ order /\ side_edge s = (id mod Z.of_nat epp)%Z.
Proof.
  unfold decode_side. cbv zeta.
  destruct (_ >? _)%Z; [discriminate|].
  destruct (py_getitem order (id / Z.of_nat epp)) as [nm|e] eqn:Hnm; simpl; [|discriminate].
  intros [= <-]. simpl. split; [eapply py_getitem_ok_elem; exact Hnm | reflexivity].
Qed.

Lemma decode_stitch_inv epp order col st :
  decode_stitch epp order col = Ok st ->
  decode_side epp order (fst col) = Ok (fst st) /\
  decode_side epp order (snd col) = Ok (snd st).
Proof.
  unfold decode_stitch.
  destruct (decode_side epp order (fst col)) as [s0|e]; simpl; [|discriminate].
  destruct (decode_side epp order (snd col)) as [s1|e]; simpl; [|discriminate].
  intros [= <-]. auto.
Qed.

Lemma pattern_from_tensors_stitches `{ext : External} rep rots transls cols padded pat pat' log :
  pattern_from_tensors rep rots transls (Some cols) padded pat = Ok (pat', log) ->
  padded = true /\
  rmap (decode_stitch (dim1 rep) (panel_order pat')) cols = Ok (stitches pat').
Proof.
  unfold pattern_from_tensors. cbv zeta.
  destruct (decode_slots 0 (slots rep) rots transls padded _ [] [])
    as [[[pat1 order1] log1] | e]; simpl; [|discriminate].
  destruct padded; simpl; [|discriminate].
  destruct (rmap (decode_stitch (dim1 rep) order1) cols) as [sts|e] eqn:Hsts; simpl;
    [|discriminate].
  intros [= <- <-]. simpl. auto.
Qed.

(** X4: stitches decoded by [pattern_from_tensors] always point at decoded
    panels.  If it returns for a stitch array, then decoding was padded,
    the pattern has exactly one stitch per column of the array (padding
    columns included), and both sides of every stitch name a panel that is
    in the new panel order and among the new panels, with the column entry
    reduced modulo the edge dimension as edge id. *)
Theorem decoded_stitches_name_decoded_panels `{ext : PatternConverter.External}
    (rep : PatternConverter.tensor3) (rots transls : option (list (list Q)))
    (cols : list (Z * Z)) (padded : bool)
    (pat pat' : PatternConverter.pattern) (log : list PatternConverter.message) :
  PatternConverter.pattern_from_tensors rep rots transls (Some cols) padded pat
  = Ok (pat', log) ->
  padded = true /\
  length (PatternConverter.stitches pat') = length cols /\
  forall j st, PatternConverter.stitches pat' !! j = Some st ->
    exists col, cols !! j = Some col /\
      PatternConverter.side_panel (fst st) ∈ PatternConverter.panel_order pat' /\
      PatternConverter.side_panel (snd st) ∈ PatternConverter.panel_order pat' /\
      is_Some (PatternConverter.panels pat' !! PatternConverter.side_panel (fst st)) /\
      is_Some (PatternConverter.panels pat' !! PatternConverter.side_panel (snd st)) /\
      PatternConverter.side_edge (fst st)
      = (fst col mod Z.of_nat (PatternConverter.dim1 rep))%Z /\
      PatternConverter.side_edge (snd st)
      = (snd col mod Z.of_nat (PatternConverter.dim1 rep))%Z.
Proof.
  intros Hrun.
  destruct (pattern_from_tensors_stitches _ _ _ _ _ _ _ _ Hrun) as [-> Hsts].
  destruct (pattern_from_tensors_ok _ _ _ _ _ _ _ Hrun) as [Horder Hdom].
  split; [reflexivity|]. split; [eapply rmap_ok_length; exact Hsts|].
  intros j st Hj.
  apply rmap_ok_Forall2 in Hsts.
  destruct (Forall2_lookup_r _ _ _ _ _ Hsts Hj) as (col & Hcol & Hdec).
  apply decode_stitch_inv in Hdec as [H0 H1].
  apply decode_side_inv in H0 as [Hp0 He0]. apply decode_side_inv in H1 as [Hp1 He1].
  exists col. split; [exact Hcol|]. split; [exact Hp0|]. split; [exact Hp1|].
  split; [apply Hdom; rewrite <- Horder; exact Hp0|].
  split; [apply Hdom; rewrite <- Horder; exact Hp1|]. auto.
Qed.

(** Two four-edge slots and two stitch columns, the second one padding:
    two stitches come back. *)
Lemma decoded_stitches_name_decoded_panels_witness :
  exists pat' log,
    @PatternConverter.pattern_from_tensors PatternSpec.no_placement
      CodecSpec.two_boxes
      None None (Some [(3, 6); (0, 0)]%Z) true PatternSpec.two_panel_pattern
    = Ok (pat', log) /\
    length (PatternConverter.stitches pat') = 2.
Proof.
  assert (Hrun : exists pat' log,
    @PatternConverter.pattern_from_tensors PatternSpec.no_placement
      CodecSpec.two_boxes
      None None (Some [(3, 6); (0, 0)]%Z) true PatternSpec.two_panel_pattern
    = Ok (pat', log)).
  { eexists. eexists. vm_compute. reflexivity. }
  destruct Hrun as (pat' & log & Hrun). exists pat', log. split; [exact Hrun|].
  destruct (decoded_stitches_name_decoded_panels _ _ _ _ _ _ _ _ Hrun) as (_ & Hlen & _).
  exact Hlen.
Defined.

(** X5: a negative entry of the stitch array is never reported as an
    invalid pattern definition.  With a positive edge dimension [epp] and
    [n] decoded panels, an id in [-n * epp, 0) is resolved by Python's
    negative indexing to the panel counted from the end of the panel
    order, with the non-negative remainder as edge id; an id below
    [-n * epp] raises [IndexError]. *)
Theorem negative_edge_id_wraps_around
    (edges_per_panel : nat) (in_panel_order : list string) (pattern_edge_id : Z) :
  0 < edges_per_panel -> (pattern_edge_id < 0)%Z ->
  let n := Z.of_nat (length in_panel_order) in
  let panel_id := (pattern_edge_id / Z.of_nat edges_per_panel)%Z in
  ((- (n * Z.of_nat edges_per_panel) <= pattern_edge_id)%Z ->
   exists nm,
     in_panel_order !! Z.to_nat (n + panel_id) = Some nm /\
     (0 <= pattern_edge_id mod Z.of_nat edges_per_panel < Z.of_nat edges_per_panel)%Z /\
     PatternConverter.decode_side edges_per_panel in_panel_order pattern_edge_id
     = Ok {| PatternConverter.side_panel := nm;
             PatternConverter.side_edge :=
               (pattern_edge_id mod Z.of_nat edges_per_panel)%Z |}) /\
  ((pattern_edge_id < - (n * Z.of_nat edges_per_panel))%Z ->
   PatternConverter.decode_side edges_per_panel in_panel_order pattern_edge_id
   = Raise IndexError).
Proof.
  intros Hepp Hneg n panel_id.
  assert (Hpid : (panel_id < 0)%Z) by (apply Z.div_lt_upper_bound; lia).
  assert (Hguard : (panel_id >? n - 1)%Z = false).
  { destruct (Z.gtb_spec panel_id (n - 1)); [lia | reflexivity]. }
  split.
  - intros Hlow.
    assert (Hge : (- n <= panel_id)%Z) by (apply Z.div_le_lower_bound; lia).
    destruct (py_getitem_negative in_panel_order panel_id ltac:(lia)) as (nm & Hnm & Hget).
    exists nm. split; [rewrite Z.add_comm; exact Hnm|].
    split; [apply Z.mod_pos_bound; lia|].
    unfold decode_side. cbv zeta. fold panel_id. fold n. rewrite Hguard, Hget.
    reflexivity.
  - intros Hlow.
    assert (Hlt : (panel_id < - n)%Z) by (apply Z.div_lt_upper_bound; lia).
    unfold decode_side. cbv zeta. fold panel_id. fold n. rewrite Hguard.
    rewrite (py_getitem_below in_panel_order panel_id) by lia. reflexivity.
Qed.

(** With four edges per panel and two panels, id -1 is edge 3 of the last
    panel. *)
Lemma negative_edge_id_wraps_around_witness :
  PatternConverter.decode_side 4 ["panel_0"; "panel_1"]%string (-1)
  = Ok {| PatternConverter.side_panel := "panel_1"%string;
          PatternConverter.side_edge := 3%Z |}.
Proof.
  destruct (negative_edge_id_wraps_around 4 ["panel_0"; "panel_1"]%string (-1)
              ltac:(lia) ltac:(lia)) as [Hin _].
  destruct (Hin ltac:(vm_compute; discriminate)) as (nm & Hnm & _ & Hdec).
  vm_compute in Hnm. injection Hnm as <-. exact Hdec.
Defined.

End DecoderStitches.

(* ===================================================================== *)
(** ** Decoder: the panels it builds                                      *)
(* ===================================================================== *)

Section DecodedPanels.
Import Numeric PatternConverter PatternSpec CodecSpec.
Context `{ext : External}.

Lemma attempt_ok_inv idx slot rots transls pat pat' msgs :
  attempt idx slot rots transls pat = Ok (pat', msgs) ->
  3 <= length (strip_padding slot) /\
  exists rot transl old,
    pat' = with_panel pat (slot_name idx)
             (placed rot transl (rebuilt old (strip_padding slot))).
Proof.
  unfold attempt.
  destruct (optional_item rots idx) as [rot|e]; simpl; [|discriminate].
  destruct (optional_item transls idx) as [transl|e]; simpl; [|discriminate].
  unfold mbind, result_bind, rbind. rewrite panel_from_numeric_padded.
  destruct (Nat.ltb_spec (length (strip_padding slot)) 3) as [Hlt | Hge]; [discriminate|].
  assert (Hne : strip_padding slot <> []).
  { destruct (strip_padding slot); [simpl in Hge; lia | discriminate]. }
  rewrite (panel_from_numeric_rows _ _ _ _ _ Hne). intros [= <- <-].
  split; [exact Hge|]. eauto.
Qed.

Lemma decode_slots_panels rep : forall idx rots transls pat in_order log pat' order' log',
  decode_slots idx rep rots transls true pat in_order log = Ok (pat', order', log') ->
  forall nm pnl, panels pat' !! nm = Some pnl ->
    panels pat !! nm = Some pnl \/
    exists j slot rot transl old,
      rep !! j = Some slot /\ nm = slot_name (idx + j) /\
      3 <= length (strip_padding slot) /\
      pnl = placed rot transl (rebuilt old (strip_padding slot)).
Proof.
  induction rep as [|slot rest IH];
    intros idx rots transls pat in_order log pat' order' log' Hrun nm pnl Hpnl.
  - simpl in Hrun. injection Hrun as <- <- <-. left. exact Hpnl.
  - rewrite decode_slots_step in Hrun.
    destruct (attempt idx slot rots transls pat) as [[pat1 msgs] | e] eqn:Hatt.
    + apply attempt_ok_inv in Hatt as (Hge & rot & transl & old & ->).
      destruct (IH _ _ _ _ _ _ _ _ _ Hrun nm pnl Hpnl)
        as [Hold | (j & s & rot' & transl' & old' & Hj & -> & Hs & ->)].
      * simpl in Hold. destruct (decide (nm = slot_name idx)) as [-> | Hne].
        -- rewrite lookup_insert_eq in Hold. injection Hold as <-.
           right. exists 0, slot, rot, transl, old. rewrite Nat.add_0_r. auto.
        -- rewrite lookup_insert_ne in Hold by congruence. left. exact Hold.
      * right. exists (S j), s, rot', transl', old'.
        split; [exact Hj|]. split; [f_equal; lia | auto].
    + destruct e; try discriminate.
      destruct (IH _ _ _ _ _ _ _ _ _ Hrun nm pnl Hpnl)
        as [Hold | (j & s & rot' & transl' & old' & Hj & -> & Hs & ->)].
      * left. exact Hold.
      * right. exists (S j), s, rot', transl', old'.
        split; [exact Hj|]. split; [f_equal; lia | auto].
Qed.

Lemma pattern_from_tensors_panels rep rots transls st pat pat' log nm pnl :
  pattern_from_tensors rep rots transls st true pat = Ok (pat', log) ->
  panels pat' !! nm = Some pnl ->
  exists j slot rot transl old,
    slots rep !! j = Some slot /\ nm = slot_name j /\
    3 <= length (strip_padding slot) /\
    pnl = placed rot transl (rebuilt old (strip_padding slot)).
Proof.
  unfold pattern_from_tensors. cbv zeta.
  destruct (decode_slots 0 (slots rep) rots transls true _ [] [])
    as [[[pat1 order1] log1] | e] eqn:Hslots; simpl; [|discriminate].
  intros Hrun Hpnl.
  assert (Hp1 : panels pat1 !! nm = Some pnl).
  { destruct st as [columns|]; simpl in Hrun.
    - destruct (rmap _ columns); simpl in Hrun; [|discriminate].
      injection Hrun as <- <-. exact Hpnl.
    - injection Hrun as <- <-. exact Hpnl. }
  destruct (decode_slots_panels _ _ _ _ _ _ _ _ _ _ Hslots nm pnl Hp1) as [Hold | H].
  - simpl in Hold. rewrite lookup_empty in Hold. discriminate.
  - exact H.
Qed.

Lemma rebuilt_decoded old rows :
  3 <= length rows -> decoded_panel (rebuilt old rows) /\
  length (edges (rebuilt old rows)) = length rows.
Proof.
  intros Hlen.
  assert (Hne : rows <> []) by (destruct rows; [simpl in Hlen; lia | discriminate]).
  pose proof (rebuilt_edges_length old rows Hne) as Hel.
  pose proof (rebuilt_vertices old rows 0 Hne ltac:(lia)) as Hv0.
  assert (Hvl : length rows <= length (vertices (rebuilt old rows)) /\
                (returns_to_origin (landing rows) = false ->
                 length (vertices (rebuilt old rows)) = S (length rows)) /\
                (length (vertices (rebuilt old rows)) = length rows \/
                 length (vertices (rebuilt old rows)) = S (length rows))).
  { destruct (returns_to_origin (landing rows)) eqn:Hc.
    - destruct (rebuilt_closed old rows Hne Hc) as [Hl _]. split; [lia|].
      split; [discriminate | left; exact Hl].
    - destruct (rebuilt_open old rows Hne Hc) as [Hl _]. split; [lia|].
      split; [intros _; exact Hl | right; exact Hl]. }
  destruct Hvl as (Hvge & Hvopen & Hvcases).
  split; [|exact Hel]. split; [|split; [exact Hv0 | split; [lia | rewrite Hel; exact Hvcases]]].
  intros e He. apply list_elem_of_lookup_1 in He as [k Hk].
  pose proof (lookup_lt_Some _ _ _ Hk) as Hklt. rewrite Hel in Hklt.
  destruct (decide (k < length rows - 1)) as [Hin | Hlast].
  - destruct (rebuilt_inner_edge old rows k Hin) as (e' & He' & Hend).
    rewrite Hk in He'. injection He' as <-. rewrite Hend. simpl. lia.
  - assert (k = length rows - 1) by lia. subst k.
    destruct (returns_to_origin (landing rows)) eqn:Hc.
    + destruct (rebuilt_closed old rows Hne Hc) as [_ (e' & He' & Hend)].
      rewrite Hk in He'. injection He' as <-. rewrite Hend. simpl. lia.
    + destruct (rebuilt_open old rows Hne Hc) as (_ & _ & e' & He' & Hend).
      rewrite Hk in He'. injection He' as <-. rewrite Hend. simpl.
      specialize (Hvopen eq_refl). lia.
Qed.

Lemma surviving_NoDup rep : forall idx, NoDup (surviving idx rep).
Proof.
  induction rep as [|slot rest IH]; intros idx; [constructor|].
  rewrite surviving_cons.
  destruct (3 <=? length (strip_padding slot)); simpl; [|apply IH].
  constructor; [|apply IH].
  rewrite surviving_elem. intros (j & s & _ & Hname & _).
  apply slot_name_inj in Hname. lia.
Qed.

End DecodedPanels.

Section DecodedPatterns.
Import Numeric PatternConverter PatternSpec CodecSpec.

(** X6: every panel that padded [pattern_from_tensors] puts into the
    pattern is usable as it stands.  It comes from one slot of the tensor
    and is stored under that slot's name; it has one edge per non-padding
    row of the slot, at least three; every edge joins two existing
    vertices; its first vertex is the origin; it has as many vertices as
    edges, or one more when the outline does not close.  No panel of a
    previous pattern survives, and the new panel order lists each panel
    once. *)
Theorem decoded_panels_are_well_formed `{ext : PatternConverter.External}
    (rep : PatternConverter.tensor3) (rots transls : option (list (list Q)))
    (st : option (list (Z * Z)))
    (pat pat' : PatternConverter.pattern) (log : list PatternConverter.message) :
  PatternConverter.pattern_from_tensors rep rots transls st true pat = Ok (pat', log) ->
  NoDup (PatternConverter.panel_order pat') /\
  PatternConverter.name pat' = PatternConverter.name pat /\
  forall nm pnl, PatternConverter.panels pat' !! nm = Some pnl ->
    nm ∈ PatternConverter.panel_order pat' /\
    CodecSpec.decoded_panel pnl /\
    exists j slot,
      PatternConverter.slots rep !! j = Some slot /\
      nm = PatternConverter.slot_name j /\
      length (PatternConverter.edges pnl)
      = length (PatternConverter.strip_padding slot).
Proof.
  intros Hrun.
  destruct (pattern_from_tensors_ok _ _ _ _ _ _ _ Hrun) as [Horder Hdom].
  split; [rewrite Horder; apply surviving_NoDup|].
  split.
  { revert Hrun. unfold PatternConverter.pattern_from_tensors. cbv zeta.
    destruct (PatternConverter.decode_slots 0 _ rots transls true _ [] [])
      as [[[pat1 order1] log1] | e] eqn:Hslots; simpl; [|discriminate].
    assert (Hname : PatternConverter.name pat1 = PatternConverter.name pat).
    { clear -Hslots. revert Hslots.
      generalize 0 at 1. generalize (@nil string). generalize (@nil PatternConverter.message).
      set (p0 := {| PatternConverter.name := PatternConverter.name pat |}).
      change (PatternConverter.name pat) with (PatternConverter.name p0).
      generalize p0. clear p0.
      induction (PatternConverter.slots rep) as [|slot rest IH]; intros p0 lg ord idx Hrun.
      - simpl in Hrun. injection Hrun as <- _ _. reflexivity.
      - rewrite decode_slots_step in Hrun.
        destruct (PatternSpec.attempt idx slot rots transls p0) as [[p1 msgs] | e] eqn:Hatt.
        + apply attempt_ok_inv in Hatt as (_ & rot & transl & old & ->).
          apply IH in Hrun. exact Hrun.
        + destruct e; try discriminate. apply IH in Hrun. exact Hrun. }
    destruct st as [columns|]; simpl.
    - destruct (rmap _ columns); simpl; [|discriminate].
      intros [= <- <-]. exact Hname.
    - intros [= <- <-]. exact Hname. }
  intros nm pnl Hpnl.
  split; [rewrite Horder; apply Hdom; eauto|].
  destruct (pattern_from_tensors_panels _ _ _ _ _ _ _ _ _ Hrun Hpnl)
    as (j & slot & rot & transl & old & Hj & -> & Hs & ->).
  destruct (rebuilt_decoded old _ Hs) as [Hdec Hlen].
  split.
  - unfold CodecSpec.decoded_panel, PatternSpec.panel_well_formed in *.
    rewrite placed_vertices, placed_edges. exact Hdec.
  - exists j, slot. split; [exact Hj|]. split; [reflexivity|].
    rewrite placed_edges. exact Hlen.
Qed.

(** Decoding two rectangles gives two panels in order, without
    duplicates. *)
Lemma decoded_panels_are_well_formed_witness :
  exists pat' log,
    @PatternConverter.pattern_from_tensors PatternSpec.no_placement
      CodecSpec.two_boxes None None (Some [(3, 6); (0, 0)]%Z) true
      PatternSpec.two_panel_pattern = Ok (pat', log) /\
    NoDup (PatternConverter.panel_order pat').
Proof.
  assert (Hrun : exists pat' log,
    @PatternConverter.pattern_from_tensors PatternSpec.no_placement
      CodecSpec.two_boxes None None (Some [(3, 6); (0, 0)]%Z) true
      PatternSpec.two_panel_pattern = Ok (pat', log)).
  { eexists. eexists. vm_compute. reflexivity. }
  destruct Hrun as (pat' & log & Hrun). exists pat', log. split; [exact Hrun|].
  destruct (decoded_panels_are_well_formed _ _ _ _ _ _ _ Hrun) as [Hnd _].
  exact Hnd.
Defined.

End DecodedPatterns.

(* ===================================================================== *)
(** ** Decoder: one panel, frame and curvature                            *)
(* ===================================================================== *)

Section PanelDecoder.
Import Numeric PatternConverter PatternSpec CodecSpec.

Lemma panel_from_numeric_inv `{ext : External} nm seq rot transl padded pat pat' log :
  panel_from_numeric nm seq rot transl padded pat = Ok (pat', log) ->
  let rows := if padded then strip_padding seq else seq in
  rows <> [] /\ (padded = true -> 3 <= length rows) /\
  pat' = with_panel pat nm
           (placed rot transl (rebuilt (default panel_spec_template (panels pat !! nm)) rows)) /\
  log = rebuilt_log nm rows.
Proof.
  intros Hrun rows. subst rows. destruct padded.
  - rewrite panel_from_numeric_padded in Hrun.
    destruct (Nat.ltb_spec (length (strip_padding seq)) 3) as [Hlt | Hge]; [discriminate|].
    assert (Hne : strip_padding seq <> []).
    { destruct (strip_padding seq); [simpl in Hge; lia | discriminate]. }
    rewrite (panel_from_numeric_rows _ _ _ _ _ Hne) in Hrun. injection Hrun as <- <-.
    auto.
  - destruct seq as [|r seq].
    + unfold panel_from_numeric in Hrun. simpl in Hrun. discriminate.
    + assert (Hne : r :: seq <> []) by discriminate.
      rewrite (panel_from_numeric_rows _ _ _ _ _ Hne) in Hrun. injection Hrun as <- <-.
      split; [exact Hne|]. split; [discriminate | auto].
Qed.

Lemma lookup_removelast {A} (l : list A) k :
  k < length l - 1 -> removelast l !! k = l !! k.
Proof.
  intros Hk. destruct l as [|a l]; [simpl in Hk; lia|].
  assert (Hne : a :: l <> []) by discriminate.
  pose proof (removelast_length (a :: l)) as Hlen.
  rewrite (app_removelast_last a Hne) at 2.
  rewrite lookup_app_l by lia. reflexivity.
Qed.

Lemma lookup_last {A} (l : list A) (d x : A) :
  l !! (length l - 1) = Some x -> List.last l d = x.
Proof.
  induction l as [|a l IH]; [discriminate|].
  destruct l as [|b l].
  - simpl. intros [= <-]. reflexivity.
  - intros Hx. change (List.last (a :: b :: l) d) with (List.last (b :: l) d).
    apply IH. simpl in Hx. simpl. rewrite Nat.sub_0_r. exact Hx.
Qed.

Lemma rebuilt_edge_curvature old rows k r :
  rows !! k = Some r ->
  exists e, edges (rebuilt old rows) !! k = Some e /\
            curvature e = curvature (_edge_dict 0 0 (cx r, cy r)).
Proof.
  intros Hr. pose proof (lookup_lt_Some _ _ _ Hr) as Hk.
  pose proof (removelast_length rows) as Hlen.
  destruct (decide (k < length rows - 1)) as [Hin | Hlast].
  - assert (Hr' : removelast rows !! k = Some r) by (rewrite lookup_removelast; assumption).
    pose proof (edges_from_lookup (removelast rows) 0 k r Hr') as He.
    exists (_edge_dict (0 + k) (0 + k + 1) (cx r, cy r)). split; [|reflexivity].
    unfold rebuilt; cbv zeta. destruct (returns_to_origin (landing rows)); cbn [edges];
      (rewrite lookup_app_l; [exact He | rewrite edges_from_length; lia]).
  - assert (k = length rows - 1) by lia. subst k.
    unfold rebuilt; cbv zeta.
    rewrite (lookup_last rows zero_row r Hr).
    destruct (returns_to_origin (landing rows)); cbn [edges];
      (eexists; split;
       [rewrite lookup_app_r by (rewrite edges_from_length; lia);
        rewrite edges_from_length, Hlen, Nat.sub_diag; reflexivity
       | reflexivity]).
Qed.

(** X7: [panel_from_numeric] changes one panel and nothing else.  When it
    returns, the pattern's name, panel order and stitches are as before,
    every panel stored under another name is untouched, the panel stored
    under [panel_name] keeps its previous rotation and translation (those
    of the template if the panel is new) unless new ones are given, and
    its outline and the warning printed depend on the edge sequence alone:
    any other successful call on the same sequence, whatever the placement
    arguments and the pattern it updates, stores the same vertices and
    edges. *)
Theorem panel_from_numeric_updates_one_panel `{ext : PatternConverter.External}
    (panel_name : string) (edge_sequence : list PatternConverter.edge_row)
    (rot transl : option (list Q)) (padded : bool)
    (pat pat' : PatternConverter.pattern) (log : list PatternConverter.message) :
  PatternConverter.panel_from_numeric panel_name edge_sequence rot transl padded pat
  = Ok (pat', log) ->
  PatternConverter.name pat' = PatternConverter.name pat /\
  PatternConverter.panel_order pat' = PatternConverter.panel_order pat /\
  PatternConverter.stitches pat' = PatternConverter.stitches pat /\
  (forall other, other <> panel_name ->
     PatternConverter.panels pat' !! other = PatternConverter.panels pat !! other) /\
  exists pnl,
    PatternConverter.panels pat' !! panel_name = Some pnl /\
    (rot = None ->
     PatternConverter.rotation pnl
     = PatternConverter.rotation
         (default PatternConverter.panel_spec_template
                  (PatternConverter.panels pat !! panel_name))) /\
    (forall q, rot = Some q ->
     PatternConverter.rotation pnl = PatternConverter.quat_as_euler q) /\
    (transl = None ->
     PatternConverter.translation pnl
     = PatternConverter.translation
         (default PatternConverter.panel_spec_template
                  (PatternConverter.panels pat !! panel_name))) /\
    forall rot0 transl0 pat0 pat0' log0,
      PatternConverter.panel_from_numeric panel_name edge_sequence rot0 transl0 padded pat0
      = Ok (pat0', log0) ->
      log0 = log /\
      exists pnl0,
        PatternConverter.panels pat0' !! panel_name = Some pnl0 /\
        PatternConverter.vertices pnl0 = PatternConverter.vertices pnl /\
        PatternConverter.edges pnl0 = PatternConverter.edges pnl.
Proof.
  intros Hrun.
  destruct (panel_from_numeric_inv _ _ _ _ _ _ _ _ Hrun) as (Hne & _ & -> & ->).
  simpl. split; [reflexivity|]. split; [reflexivity|]. split; [reflexivity|].
  split; [intros other Hother; apply lookup_insert_ne; congruence|].
  eexists. split; [apply lookup_insert_eq|].
  split.
  { intros ->. unfold placed, rebuilt. cbv zeta.
    destruct transl, (returns_to_origin _); reflexivity. }
  split.
  { intros q ->. unfold placed. destruct transl; reflexivity. }
  split.
  { intros ->. unfold placed, rebuilt. cbv zeta.
    destruct rot, (returns_to_origin _); reflexivity. }
  intros rot0 transl0 pat0 pat0' log0 Hrun0.
  destruct (panel_from_numeric_inv _ _ _ _ _ _ _ _ Hrun0) as (_ & _ & -> & ->).
  split; [reflexivity|].
  eexists. split; [apply lookup_insert_eq|].
  rewrite !placed_vertices, !placed_edges.
  unfold rebuilt. cbv zeta. destruct (returns_to_origin _); split; reflexivity.
Qed.

(** A rectangle decoded into the two-panel pattern under a new name: the
    two existing panels are still there. *)
Lemma panel_from_numeric_updates_one_panel_witness :
  exists pat' log,
    @PatternConverter.panel_from_numeric PatternSpec.no_placement "sleeve"
      (CodecSpec.box_rows 20 10) None None false PatternSpec.two_panel_pattern
    = Ok (pat', log) /\
    PatternConverter.panels pat' !! "back"
    = PatternConverter.panels PatternSpec.two_panel_pattern !! "back" /\
    PatternConverter.stitches pat' = PatternConverter.stitches PatternSpec.two_panel_pattern.
Proof.
  assert (Hrun : exists pat' log,
    @PatternConverter.panel_from_numeric PatternSpec.no_placement "sleeve"
      (CodecSpec.box_rows 20 10) None None false PatternSpec.two_panel_pattern
    = Ok (pat', log)).
  { eexists. eexists. vm_compute. reflexivity. }
  destruct Hrun as (pat' & log & Hrun). exists pat', log. split; [exact Hrun|].
  destruct (panel_from_numeric_updates_one_panel _ _ _ _ _ _ _ _ Hrun)
    as (_ & _ & Hst & Hframe & _).
  split; [apply Hframe; discriminate | exact Hst].
Defined.

(** X8: curvature through the decoder.  In the panel [panel_from_numeric]
    stores, edge [k] is built from row [k] of the edge sequence (after
    padding removal when [padded]); it has no curvature entry when both
    curvature components of the row are within 0.01 of zero, and carries
    them unchanged otherwise. *)
Theorem decoded_edge_curvature `{ext : PatternConverter.External}
    (panel_name : string) (edge_sequence : list PatternConverter.edge_row)
    (rot transl : option (list Q)) (padded : bool)
    (pat pat' : PatternConverter.pattern) (log : list PatternConverter.message)
    (k : nat) (r : PatternConverter.edge_row) :
  PatternConverter.panel_from_numeric panel_name edge_sequence rot transl padded pat
  = Ok (pat', log) ->
  (if padded then PatternConverter.strip_padding edge_sequence else edge_sequence) !! k
  = Some r ->
  exists pnl e,
    PatternConverter.panels pat' !! panel_name = Some pnl /\
    PatternConverter.edges pnl !! k = Some e /\
    ((Qabs (PatternConverter.cx r) <= 1 # 100 /\ Qabs (PatternConverter.cy r) <= 1 # 100)%Q ->
     PatternConverter.curvature e = None) /\
    (~ (Qabs (PatternConverter.cx r) <= 1 # 100 /\ Qabs (PatternConverter.cy r) <= 1 # 100)%Q ->
     PatternConverter.curvature e = Some (PatternConverter.cx r, PatternConverter.cy r)).
Proof.
  intros Hrun Hr.
  destruct (panel_from_numeric_inv _ _ _ _ _ _ _ _ Hrun) as (Hne & _ & -> & ->).
  destruct (rebuilt_edge_curvature
              (default panel_spec_template (panels pat !! panel_name)) _ k r Hr)
    as (e & He & Hcurv).
  eexists. exists e. split; [apply lookup_insert_eq|].
  rewrite placed_edges. split; [exact He|].
  rewrite Hcurv. unfold _edge_dict. cbn [curvature fst snd].
  destruct (all_close_zero default_rtol (1 # 100) [cx r; cy r]) eqn:Hc.
  - split; [reflexivity|]. intros Hn. exfalso. apply Hn.
    apply all_close_zero_Forall in Hc.
    inversion Hc as [|? ? Hx H']; subst. inversion H' as [|? ? Hy _]; subst. auto.
  - split; [|reflexivity]. intros [Hx Hy].
    assert (Hc' : all_close_zero default_rtol (1 # 100) [cx r; cy r] = true)
      by (apply all_close_zero_Forall; repeat constructor; assumption).
    congruence.
Qed.

(** A curved first edge keeps its control point; a nearly straight one
    loses it. *)
Lemma decoded_edge_curvature_witness :
  exists pat' log pnl e,
    @PatternConverter.panel_from_numeric PatternSpec.no_placement "sleeve"
      ({| PatternConverter.dx := 20; PatternConverter.dy := 0;
          PatternConverter.cx := 1 # 2; PatternConverter.cy := 1 # 5 |}
         :: CodecSpec.box_rows 20 10) None None false PatternSpec.two_panel_pattern
    = Ok (pat', log) /\
    PatternConverter.panels pat' !! "sleeve" = Some pnl /\
    PatternConverter.edges pnl !! 0 = Some e /\
    PatternConverter.curvature e = Some (1 # 2, 1 # 5)%Q.
Proof.
  assert (Hrun : exists pat' log,
    @PatternConverter.panel_from_numeric PatternSpec.no_placement "sleeve"
      ({| PatternConverter.dx := 20; PatternConverter.dy := 0;
          PatternConverter.cx := 1 # 2; PatternConverter.cy := 1 # 5 |}
         :: CodecSpec.box_rows 20 10) None None false PatternSpec.two_panel_pattern
    = Ok (pat', log)).
  { eexists. eexists. vm_compute. reflexivity. }
  destruct Hrun as (pat' & log & Hrun).
  destruct (decoded_edge_curvature _ _ _ _ _ _ _ _ 0 _ Hrun eq_refl)
    as (pnl & e & Hpnl & He & _ & Hkeep).
  exists pat', log, pnl, e. split; [exact Hrun|]. split; [exact Hpnl|].
  split; [exact He|]. apply Hkeep. intros [Hx _]. vm_compute in Hx. apply Hx. reflexivity.
Defined.

End PanelDecoder.

(* ===================================================================== *)
(** ** Encoding a panel and decoding it again                             *)
(* ===================================================================== *)

Section PanelRoundtrip.
Import Numeric PatternConverter PatternSpec CodecSpec.

(** The row [_edge_as_vector] produces for an edge with in-range
    endpoints. *)
Lemma edge_as_vector_row verts e :
  fst (endpoints e) < length verts -> snd (endpoints e) < length verts ->
  exists r, _edge_as_vector verts e = Ok r /\
    dx r = (fst (nth (snd (endpoints e)) verts (0, 0)) -
            fst (nth (fst (endpoints e)) verts (0, 0)))%Q /\
    dy r = (snd (nth (snd (endpoints e)) verts (0, 0)) -
            snd (nth (fst (endpoints e)) verts (0, 0)))%Q /\
    (cx r, cy r) = default (0, 0)%Q (curvature e).
Proof.
  intros H0 H1. unfold _edge_as_vector.
  destruct (lookup_lt_is_Some_2 verts _ H0) as [v0 Hv0].
  destruct (lookup_lt_is_Some_2 verts _ H1) as [v1 Hv1].
  rewrite Hv0, Hv1. eexists. split; [reflexivity|]. cbn [dx dy cx cy].
  rewrite (nth_lookup_Some _ _ (0, 0)%Q _ Hv0), (nth_lookup_Some _ _ (0, 0)%Q _ Hv1).
  split; [reflexivity|]. split; [reflexivity|].
  destruct (default (0, 0)%Q (curvature e)); reflexivity.
Qed.

Lemma landing_take_S rows k r :
  rows !! k = Some r ->
  landing (take (S k) rows) = vadd (landing (take k rows)) (dx r, dy r).
Proof.
  intros Hr. rewrite (take_S_r _ _ _ Hr). apply landing_snoc.
Qed.

(** The partial sums of the displacements of a loop telescope. *)
Lemma loop_landing pnl n rows :
  loop_panel pnl n -> edge_sequence_of pnl = Ok rows ->
  forall k, k <= n ->
    (fst (landing (take k rows)) ==
       fst (nth (k mod n) (vertices pnl) (0, 0)) - fst (nth 0 (vertices pnl) (0, 0)))%Q /\
    (snd (landing (take k rows)) ==
       snd (nth (k mod n) (vertices pnl) (0, 0)) - snd (nth 0 (vertices pnl) (0, 0)))%Q.
Proof.
  intros (Hn & Hvl & Hel & Hends) Hrows.
  assert (Hrl : length rows = n).
  { apply edge_sequence_of_inv in Hrows as [_ Hl]. lia. }
  induction k as [|k IH]; intros Hk.
  - rewrite Nat.Div0.mod_0_l. simpl. split; ring.
  - destruct (IH ltac:(lia)) as [IHx IHy].
    rewrite Nat.mod_small in IHx, IHy by lia.
    destruct (lookup_lt_is_Some_2 (edges pnl) k ltac:(lia)) as [e He].
    destruct (rmap_ok_lookup _ _ _ _ _ Hrows He) as (r & Hvec & Hr).
    pose proof (Hends k e He) as Hend.
    destruct (edge_as_vector_row (vertices pnl) e) as (r' & Hvec' & Hdx & Hdy & _).
    { rewrite Hend. simpl. lia. }
    { rewrite Hend. simpl. pose proof (Nat.mod_upper_bound (S k) n). lia. }
    rewrite Hvec in Hvec'. injection Hvec' as <-.
    rewrite Hend in Hdx, Hdy. simpl fst in Hdx, Hdy. simpl snd in Hdx, Hdy.
    rewrite (landing_take_S rows k r Hr). unfold vadd. cbn [fst snd].
    rewrite Hdx, Hdy, IHx, IHy. split; ring.
Qed.

Lemma returns_to_origin_zero (p : vertex) :
  (fst p == 0)%Q -> (snd p == 0)%Q -> returns_to_origin p = true.
Proof.
  intros Hx Hy. apply returns_to_origin_iff.
  rewrite Hx, Hy. split; discriminate.
Qed.

End PanelRoundtrip.

Section PanelRoundtripStatement.
Import Numeric PatternConverter PatternSpec CodecSpec.

(** X9: a closed panel survives encoding and unpadded decoding.  For a
    panel whose [n] edges go round its [n] vertices in stored order,
    [panel_as_numeric] without padding returns one row per edge;
    [panel_from_numeric] applied to these rows without a rotation and a
    translation, under any name and pattern, returns without warning; and
    whenever it returns on these rows, with or without a rotation and a
    translation (whose conversion is scipy's and may raise), it has
    printed no warning and stored a panel with [n] vertices, vertex [k]
    being the original vertex [k] moved by the translation that takes
    vertex 0 to the origin, and with an edge [k] between the same two
    vertex indices as the original edge [k].  (The rows are those of
    [_edge_as_vector] as modelled here: end point minus start point.) *)
Theorem loop_panel_roundtrip `{ext : PatternConverter.External}
    (pat : PatternConverter.pattern) (nm : string) (pnl : PatternConverter.panel) (n : nat)
    (nm' : string) (self : PatternConverter.pattern) :
  PatternConverter.panels pat !! nm = Some pnl -> CodecSpec.loop_panel pnl n ->
  exists es q t,
    PatternConverter.panel_as_numeric pat nm None = Ok (es, q, t) /\
    length es = n /\
    (exists self',
       PatternConverter.panel_from_numeric nm' es None None false self = Ok (self', [])) /\
    forall (rot transl : option (list Q)) (self' : PatternConverter.pattern)
           (log : list PatternConverter.message),
      PatternConverter.panel_from_numeric nm' es rot transl false self = Ok (self', log) ->
      log = [] /\
      exists pnl',
        PatternConverter.panels self' !! nm' = Some pnl' /\
        length (PatternConverter.vertices pnl') = n /\
        length (PatternConverter.edges pnl') = n /\
        (forall k, k < n ->
           exists v', PatternConverter.vertices pnl' !! k = Some v' /\
             (fst v' == fst (nth k (PatternConverter.vertices pnl) (0, 0)) -
                        fst (nth 0 (PatternConverter.vertices pnl) (0, 0)))%Q /\
             (snd v' == snd (nth k (PatternConverter.vertices pnl) (0, 0)) -
                        snd (nth 0 (PatternConverter.vertices pnl) (0, 0)))%Q) /\
        (forall k e, PatternConverter.edges pnl !! k = Some e ->
           exists e', PatternConverter.edges pnl' !! k = Some e' /\
                      PatternConverter.endpoints e' = PatternConverter.endpoints e).
Proof.
  intros Hpnl Hloop. pose proof Hloop as (Hn & Hvl & Hel & Hends).
  (* encoding *)
  assert (Hseq : exists rows, edge_sequence_of pnl = Ok rows /\ length rows = n).
  { destruct (rmap_total (_edge_as_vector (vertices pnl)) (fun _ => True) (edges pnl))
      as (rows & Hrows & _ & Hlen).
    - intros e He. apply list_elem_of_lookup_1 in He as [k Hk].
      pose proof (Hends k e Hk) as Hend.
      pose proof (lookup_lt_Some _ _ _ Hk) as Hklt.
      destruct (edge_as_vector_row (vertices pnl) e) as (r & Hr & _).
      + rewrite Hend. simpl. lia.
      + rewrite Hend. simpl. pose proof (Nat.mod_upper_bound (S k) n). lia.
      + exists r. split; [exact Hr | exact I].
    - exists rows. split; [exact Hrows | lia]. }
  destruct Hseq as (rows & Hrows & Hrl).
  assert (Hne : rows <> []) by (destruct rows; [simpl in Hrl; lia | discriminate]).
  assert (Henc : panel_as_numeric pat nm None
                 = Ok (rows, euler_as_quat (rotation pnl), fst (panel_universal_translation pnl))).
  { unfold panel_as_numeric, getitem. rewrite Hpnl. simpl mbind.
    unfold edge_sequence_of in Hrows. rewrite Hrows. simpl.
    destruct rows; [congruence | reflexivity]. }
  (* decoding *)
  destruct (loop_landing pnl n rows Hloop Hrows n (Nat.le_refl n)) as [Hx Hy].
  rewrite Nat.Div0.mod_same in Hx, Hy.
  assert (Hclose : returns_to_origin (landing rows) = true).
  { rewrite <- (firstn_all rows), Hrl.
    apply returns_to_origin_zero; [rewrite Hx | rewrite Hy]; ring. }
  set (old := default panel_spec_template (panels self !! nm')).
  destruct (rebuilt_closed old rows Hne Hclose) as [Hvlen (elast & Helast & Hendlast)].
  exists rows, (euler_as_quat (rotation pnl)), (fst (panel_universal_translation pnl)).
  split; [exact Henc|]. split; [exact Hrl|].
  split.
  { rewrite (panel_from_numeric_rows _ _ _ _ _ Hne). fold old.
    unfold rebuilt_log. rewrite Hclose. eauto. }
  intros rot transl self' log.
  rewrite (panel_from_numeric_rows _ _ _ _ _ Hne). fold old.
  unfold rebuilt_log. rewrite Hclose. intros [= <- <-].
  split; [reflexivity|].
  exists (placed rot transl (rebuilt old rows)).
  split; [apply lookup_insert_eq|].
  rewrite placed_vertices, placed_edges.
  split; [lia|]. split; [rewrite rebuilt_edges_length by exact Hne; exact Hrl|].
  split.
  - intros k Hk. exists (landing (take k rows)).
    split; [apply rebuilt_vertices; [exact Hne | lia]|].
    destruct (loop_landing pnl n rows Hloop Hrows k ltac:(lia)) as [Hkx Hky].
    rewrite Nat.mod_small in Hkx, Hky by exact Hk. auto.
  - intros k e He. pose proof (lookup_lt_Some _ _ _ He) as Hk.
    rewrite (Hends k e He).
    destruct (decide (k < length rows - 1)) as [Hin | Hlast].
    + destruct (rebuilt_inner_edge old rows k Hin) as (e' & He' & Hend').
      exists e'. split; [exact He'|]. rewrite Hend'.
      rewrite Nat.mod_small by lia. f_equal. lia.
    + assert (k = length rows - 1) by lia. subst k.
      exists elast. split; [exact Helast|]. rewrite Hendlast.
      replace (S (length rows - 1)) with n by lia.
      rewrite Nat.Div0.mod_same. reflexivity.
Qed.

(** A rectangle whose first corner is at (5, 7) comes back with its first
    corner at the origin and four vertices. *)
Lemma loop_panel_roundtrip_witness :
  exists es q t self' pnl',
    @PatternConverter.panel_as_numeric PatternSpec.no_placement
      CodecSpec.one_panel_pattern "front" None = Ok (es, q, t) /\
    @PatternConverter.panel_from_numeric PatternSpec.no_placement "panel_0" es None None
      false CodecSpec.one_panel_pattern = Ok (self', []) /\
    PatternConverter.panels self' !! "panel_0" = Some pnl' /\
    length (PatternConverter.vertices pnl') = 4.
Proof.
  destruct (@loop_panel_roundtrip PatternSpec.no_placement CodecSpec.one_panel_pattern
              "front" CodecSpec.shifted_rectangle 4 "panel_0"
              CodecSpec.one_panel_pattern)
    as (es & q & t & Henc & _ & (self' & Hdec) & Hall).
  - reflexivity.
  - split; [lia|]. split; [reflexivity|]. split; [reflexivity|].
    intros k e Hk. destruct k as [|[|[|[|k]]]]; simpl in Hk;
      try (injection Hk as <-; reflexivity); discriminate.
  - destruct (Hall None None self' [] Hdec) as (_ & pnl' & Hpnl & Hlen & _).
    exists es, q, t, self', pnl'. auto.
Defined.

End PanelRoundtripStatement.

(* ===================================================================== *)
(** ** Standardisation transforms                                         *)
(* ===================================================================== *)

Section TensorOps.
Import Numeric Data DataTransforms.

Lemma broadcast_op_same_width mismatch f t v :
  ncols t = length v ->
  broadcast_op mismatch f t v
  = Ok {| ncols := ncols t; rows := map (fun r => zip_with f r v) (rows t) |}.
Proof. intros H. unfold broadcast_op. rewrite H, Nat.eqb_refl. reflexivity. Qed.

Lemma tensor_op_same_width f t v :
  ncols t = length v ->
  tensor_op f t v = Ok {| ncols := ncols t; rows := map (fun r => zip_with f r v) (rows t) |}.
Proof. apply broadcast_op_same_width. Qed.

Lemma array_op_same_width f t v :
  ncols t = length v ->
  array_op f t v = Ok {| ncols := ncols t; rows := map (fun r => zip_with f r v) (rows t) |}.
Proof. apply broadcast_op_same_width. Qed.

Lemma standardized_rows shift scale t :
  length shift = ncols t -> length scale = ncols t ->
  FeatureStandartization_call shift scale t
  = Ok {| ncols := ncols t;
          rows := map (fun r => zip_with Qdiv (zip_with Qminus r shift) scale) (rows t) |}.
Proof.
  intros Hsh Hsc. unfold FeatureStandartization_call.
  rewrite tensor_op_same_width by (symmetry; exact Hsh). simpl.
  rewrite tensor_op_same_width by (symmetry; exact Hsc). simpl.
  rewrite map_map. reflexivity.
Qed.

Lemma zip_entry (f : Q -> Q -> Q) r v j y :
  zip_with f r v !! j = Some y ->
  exists x s, r !! j = Some x /\ v !! j = Some s /\ y = f x s.
Proof.
  intros H. apply lookup_zip_with_Some in H as (x & s & -> & Hx & Hs). eauto.
Qed.

Lemma standardized_entry shift scale r j y :
  zip_with Qdiv (zip_with Qminus r shift) scale !! j = Some y ->
  exists x sh sc, r !! j = Some x /\ shift !! j = Some sh /\ scale !! j = Some sc /\
                  y = ((x - sh) / sc)%Q.
Proof.
  intros H. apply zip_entry in H as (d & sc & Hd & Hsc & ->).
  apply zip_entry in Hd as (x & sh & Hx & Hsh & ->).
  exists x, sh, sc. auto.
Qed.

Lemma column_elem j rs r x : r ∈ rs -> r !! j = Some x -> x ∈ column j rs.
Proof.
  intros Hr Hx. unfold column. apply list_elem_of_In, in_map_iff.
  exists r. split; [|apply list_elem_of_In; exact Hr].
  apply nth_lookup_Some with (d := 0%Q) in Hx. exact Hx.
Qed.

Lemma unit_range (x lo hi : Q) :
  (lo <= x)%Q -> (x <= hi)%Q -> ~ (hi - lo == 0)%Q ->
  (0 <= (x - lo) / (hi - lo) <= 1)%Q.
Proof.
  intros Hlo Hhi Hne.
  assert (Hpos : (0 < hi - lo)%Q).
  { apply Qle_lteq in Hlo. apply Qle_lteq in Hhi.
    assert (Hle : (lo <= hi)%Q) by (eapply Qle_trans; apply Qle_lteq; eassumption).
    apply Qle_lteq in Hle as [Hlt | Heq].
    - unfold Qminus. rewrite <- (Qplus_opp_r lo).
      apply Qplus_lt_l. exact Hlt.
    - exfalso. apply Hne. rewrite Heq. ring. }
  split.
  - apply Qle_shift_div_l; [exact Hpos|]. rewrite Qmult_0_l.
    unfold Qminus. rewrite <- (Qplus_opp_r lo). apply Qplus_le_l. exact Hlo.
  - apply Qle_shift_div_r; [exact Hpos|]. rewrite Qmult_1_l.
    unfold Qminus. apply Qplus_le_l. exact Hhi.
Qed.

End TensorOps.

Section TransformFacts.
Import Numeric Data DataTransforms.

(** X10: undoing the standardisation restores the features.  For a
    tensor whose rows have as many entries as the shift and the scale,
    and a scale without zero component, [FeatureStandartization] followed
    by the [prediction * scale + shift] of [_pred_to_pattern] and
    [_pattern_from_tenzor] both succeed and give back a tensor of the same
    shape with the same entries. *)
Theorem undo_standardization_restores_features
    (shift scale : list Q) (features : Data.tensor2) :
  DataTransforms.rectangular features ->
  length shift = Data.ncols features -> length scale = Data.ncols features ->
  Forall (fun s => ~ (s == 0)%Q) scale ->
  exists standardized restored,
    DataTransforms.FeatureStandartization_call shift scale features = Ok standardized /\
    DataTransforms.undo_standardization scale shift standardized = Ok restored /\
    DataTransforms.same_entries restored features.
Proof.
  intros Hrect Hsh Hsc Hnz.
  eexists. eexists. split; [apply standardized_rows; assumption|].
  unfold undo_standardization.
  rewrite array_op_same_width by (simpl; symmetry; exact Hsc). simpl.
  rewrite array_op_same_width by (simpl; symmetry; exact Hsh). simpl.
  split; [reflexivity|]. split; [reflexivity|]. simpl.
  rewrite !map_map.
  apply Forall2_fmap_l, Forall_Forall2_diag.
  eapply Forall_impl; [exact Hrect|]. intros r Hr. simpl in Hr.
  apply Forall2_same_length_lookup_2.
  - rewrite !length_zip_with. lia.
  - intros j y x Hy Hx.
    apply zip_entry in Hy as (m & sh & Hm & Hshj & ->).
    apply zip_entry in Hm as (q & sc & Hq & Hscj & ->).
    apply standardized_entry in Hq as (x' & sh' & sc' & Hx' & Hsh' & Hsc' & ->).
    rewrite Hx in Hx'. injection Hx' as <-.
    rewrite Hshj in Hsh'. injection Hsh' as <-.
    rewrite Hscj in Hsc'. injection Hsc' as <-.
    assert (Hs : ~ (sc == 0)%Q).
    { rewrite Forall_forall in Hnz. apply Hnz. eapply list_elem_of_lookup_2. exact Hscj. }
    field. exact Hs.
Qed.

(** Two rows of three features, standardised with shift (1, 2, 3) and
    scale (2, 4, 5). *)
Lemma undo_standardization_restores_features_witness :
  exists standardized restored,
    DataTransforms.FeatureStandartization_call [1; 2; 3]%Q [2; 4; 5]%Q
      {| Data.ncols := 3; Data.rows := [[1; 2; 3]; [3; 2; 1]]%Q |} = Ok standardized /\
    DataTransforms.undo_standardization [2; 4; 5]%Q [1; 2; 3]%Q standardized = Ok restored /\
    DataTransforms.same_entries restored
      {| Data.ncols := 3; Data.rows := [[1; 2; 3]; [3; 2; 1]]%Q |}.
Proof.
  apply (undo_standardization_restores_features [1; 2; 3]%Q [2; 4; 5]%Q
           {| Data.ncols := 3; Data.rows := [[1; 2; 3]; [3; 2; 1]]%Q |}).
  - repeat constructor.
  - reflexivity.
  - reflexivity.
  - repeat constructor; discriminate.
Defined.

(** X11: the statistics of [_get_norm_stats] normalise to the unit
    range.  When [_get_norm_stats] returns shift and scale for a batch
    whose rows have the declared width, [GTtandartization] with these
    statistics returns a tensor of the same shape, and in every dimension
    whose minimum and maximum over the batch are not close, every entry
    lies between 0 and 1. *)
Theorem norm_stats_map_batch_into_unit_range
    (input_batch : Data.tensor2) (shift scale : list Q) :
  DataTransforms.rectangular input_batch ->
  Data._get_norm_stats input_batch false = Ok (shift, scale) ->
  exists normalized,
    DataTransforms.GTtandartization_call (Data.GTensor shift) (Data.GTensor scale)
      (DataTransforms.GtTensor input_batch) = Ok (DataTransforms.GtTensor normalized) /\
    Data.ncols normalized = Data.ncols input_batch /\
    length (Data.rows normalized) = length (Data.rows input_batch) /\
    forall i j r y,
      Data.rows normalized !! i = Some r -> r !! j = Some y ->
      Numeric.isclose Numeric.default_rtol Numeric.default_atol
        (Data.Qminimum (Data.column j (Data.rows input_batch)))
        (Data.Qmaximum (Data.column j (Data.rows input_batch))) = false ->
      (0 <= y <= 1)%Q.
Proof.
  intros Hrect Hstats. unfold _get_norm_stats in Hstats. simpl in Hstats.
  destruct (rows input_batch) as [|r0 rs0] eqn:Hrows; [discriminate|].
  rewrite <- Hrows in *. injection Hstats as <- <-.
  set (mins := per_column Qminimum (ncols input_batch) (rows input_batch)).
  set (maxs := per_column Qmaximum (ncols input_batch) (rows input_batch)).
  set (scale := map (fun '(tmin, tmax) => norm_scale tmin tmax) (combine mins maxs)).
  assert (Hml : length mins = ncols input_batch) by apply per_column_length.
  assert (Hsl : length scale = ncols input_batch).
  { subst scale. rewrite length_map, length_combine. subst mins maxs.
    rewrite !per_column_length. lia. }
  exists {| ncols := ncols input_batch;
            rows := map (fun r => zip_with Qdiv (zip_with Qminus r mins) scale)
                        (rows input_batch) |}.
  split.
  { unfold GTtandartization_call.
    rewrite tensor_op_same_width by (symmetry; exact Hml). simpl.
    rewrite tensor_op_same_width by (simpl; symmetry; exact Hsl). simpl.
    rewrite map_map. reflexivity. }
  split; [reflexivity|]. split; [simpl; apply length_map|].
  intros i j r y Hr Hy Hfar. simpl in Hr.
  change (map ?f ?l !! i) with ((f <$> l) !! i) in Hr.
  rewrite list_lookup_fmap in Hr.
  destruct (rows input_batch !! i) as [r1|] eqn:Hr1; [|discriminate].
  simpl in Hr. injection Hr as <-.
  apply standardized_entry in Hy as (x & sh & sc & Hx & Hsh & Hsc & ->).
  pose proof (lookup_lt_Some _ _ _ Hsh) as Hj. rewrite Hml in Hj.
  subst mins maxs. rewrite per_column_lookup in Hsh by exact Hj. injection Hsh as <-.
  subst scale.
  change (map ?f ?l !! j) with ((f <$> l) !! j) in Hsc.
  rewrite list_lookup_fmap in Hsc.
  assert (Hz : combine (per_column Qminimum (ncols input_batch) (rows input_batch))
                       (per_column Qmaximum (ncols input_batch) (rows input_batch)) !! j
               = Some (Qminimum (column j (rows input_batch)),
                       Qmaximum (column j (rows input_batch)))).
  { change (combine ?a ?b) with (zip a b).
    apply lookup_zip_with_Some. eexists _, _. split; [reflexivity|].
    split; apply per_column_lookup; exact Hj. }
  rewrite Hz in Hsc. simpl in Hsc. injection Hsc as <-.
  unfold norm_scale. rewrite Hfar.
  assert (Hin : x ∈ column j (rows input_batch)).
  { eapply column_elem; [eapply list_elem_of_lookup_2; exact Hr1 | exact Hx]. }
  assert (Hne : column j (rows input_batch) <> []).
  { apply column_nonempty. rewrite Hrows. discriminate. }
  destruct (Qminimum_spec _ Hne) as [Hlow _].
  apply unit_range.
  - apply Hlow. exact Hin.
  - apply Qmaximum_spec. exact Hin.
  - apply isclose_false_differ. exact Hfar.
Qed.

(** Translations of two panels: the first coordinate ranges over 0..4 and
    is mapped to 0 and 1. *)
Lemma norm_stats_map_batch_into_unit_range_witness :
  exists normalized,
    DataTransforms.GTtandartization_call (Data.GTensor [0; 5; 0]%Q)
      (Data.GTensor [4 - 0; 5; 1]%Q)
      (DataTransforms.GtTensor {| Data.ncols := 3; Data.rows := [[0; 5; 0]; [4; 5; 0]]%Q |})
    = Ok (DataTransforms.GtTensor normalized) /\
    Data.ncols normalized = 3.
Proof.
  destruct (norm_stats_map_batch_into_unit_range
              {| Data.ncols := 3; Data.rows := [[0; 5; 0]; [4; 5; 0]]%Q |}
              [0; 5; 0]%Q [4 - 0; 5; 1]%Q)
    as (normalized & Hrun & Hcols & _).
  - repeat constructor.
  - reflexivity.
  - exists normalized. split; [exact Hrun | exact Hcols].
Defined.

(** X12: [GTtandartization] on a dictionary ground truth works key by
    key.  With dictionaries of statistics, the returned dictionary has the
    keys of the ground truth in the same order; a value whose key has
    neither a shift nor a scale is returned as it is; a value whose key
    has both is shifted and then scaled exactly as [FeatureStandartization]
    does; a value with only one of them is only shifted or only scaled. *)
Theorem GTtandartization_updates_only_keys_with_stats
    (shift scale : gmap string (list Q)) (items : list (string * Data.tensor2))
    (new_gt : DataTransforms.gt_value) :
  DataTransforms.GTtandartization_call (Data.GDict shift) (Data.GDict scale)
    (DataTransforms.GtDict items) = Ok new_gt ->
  exists items',
    new_gt = DataTransforms.GtDict items' /\
    map fst items' = map fst items /\
    forall i key value, items !! i = Some (key, value) ->
      exists value',
        items' !! i = Some (key, value') /\
        (shift !! key = None -> scale !! key = None -> value' = value) /\
        (forall sh sc, shift !! key = Some sh -> scale !! key = Some sc ->
           DataTransforms.FeatureStandartization_call sh sc value = Ok value') /\
        (forall sh, shift !! key = Some sh -> scale !! key = None ->
           DataTransforms.tensor_op Qminus value sh = Ok value') /\
        (forall sc, shift !! key = None -> scale !! key = Some sc ->
           DataTransforms.tensor_op Qdiv value sc = Ok value').
Proof.
  unfold GTtandartization_call.
  match goal with
  | |- context [rmap ?f items] => set (per_key := f)
  end.
  destruct (rmap per_key items) as [items'|e] eqn:Hrun; simpl; [|discriminate].
  intros [= <-]. exists items'. split; [reflexivity|].
  apply rmap_ok_Forall2 in Hrun.
  assert (Hone : forall key value key' value',
            per_key (key, value) = Ok (key', value') ->
            key' = key /\
            (shift !! key = None -> scale !! key = None -> value' = value) /\
            (forall sh sc, shift !! key = Some sh -> scale !! key = Some sc ->
               FeatureStandartization_call sh sc value = Ok value') /\
            (forall sh, shift !! key = Some sh -> scale !! key = None ->
               tensor_op Qminus value sh = Ok value') /\
            (forall sc, shift !! key = None -> scale !! key = Some sc ->
               tensor_op Qdiv value sc = Ok value')).
  { intros key value key' value'. subst per_key. cbv beta iota.
    unfold stats_contains, stats_item, getitem, FeatureStandartization_call.
    simpl mbind. unfold mbind, result_bind, rbind.
    destruct (shift !! key) as [sh|] eqn:Hsh, (scale !! key) as [sc|] eqn:Hsc.
    - rewrite !bool_decide_eq_true_2 by eauto.
      destruct (tensor_op Qminus value sh) as [v1|e] eqn:E1; [|discriminate].
      destruct (tensor_op Qdiv v1 sc) as [v2|e] eqn:E2; [|discriminate].
      intros [= <- <-]. split; [reflexivity|].
      split; [discriminate|].
      split; [intros ? ? [= <-] [= <-]; rewrite E1; exact E2|].
      split; [discriminate | discriminate].
    - rewrite bool_decide_eq_true_2 by eauto.
      rewrite bool_decide_eq_false_2 by (intros [? ?]; discriminate).
      destruct (tensor_op Qminus value sh) as [v1|e] eqn:E1; [|discriminate].
      intros [= <- <-]. split; [reflexivity|].
      split; [discriminate|]. split; [discriminate|].
      split; [intros ? [= <-] _; exact E1 | discriminate].
    - rewrite bool_decide_eq_false_2 by (intros [? ?]; discriminate).
      rewrite bool_decide_eq_true_2 by eauto.
      destruct (tensor_op Qdiv value sc) as [v2|e] eqn:E2; [|discriminate].
      intros [= <- <-]. split; [reflexivity|].
      split; [discriminate|]. split; [discriminate|].
      split; [discriminate | intros ? _ [= <-]; exact E2].
    - rewrite !bool_decide_eq_false_2 by (intros [? ?]; discriminate).
      intros [= <- <-]. split; [reflexivity|].
      split; [reflexivity|]. split; [discriminate|]. split; discriminate. }
  split.
  - clear -Hrun Hone. induction Hrun as [|[key value] [key' value'] l l' Hxy _ IH];
      [reflexivity|].
    simpl. destruct (Hone _ _ _ _ Hxy) as [-> _]. f_equal. exact IH.
  - intros i key value Hi.
    destruct (Forall2_lookup_l _ _ _ _ _ Hrun Hi) as ([key' value'] & Hi' & Hxy).
    destruct (Hone _ _ _ _ Hxy) as [-> Hrest].
    exists value'. split; [exact Hi' | exact Hrest].
Qed.

(** A ground truth with outlines and stitches, statistics for the outlines
    only: the stitches come back untouched. *)
Lemma GTtandartization_updates_only_keys_with_stats_witness :
  exists items',
    DataTransforms.GTtandartization_call
      (Data.GDict (<["outlines" := [0; 0]%Q]> ∅))
      (Data.GDict (<["outlines" := [2; 2]%Q]> ∅))
      (DataTransforms.GtDict
         [("outlines"%string, {| Data.ncols := 2; Data.rows := [[4; 6]]%Q |});
          ("stitches"%string, {| Data.ncols := 2; Data.rows := [[0; 5]]%Q |})])
    = Ok (DataTransforms.GtDict items') /\
    items' !! 1 = Some ("stitches"%string, {| Data.ncols := 2; Data.rows := [[0; 5]]%Q |}).
Proof.
  assert (Hrun : exists new_gt,
    DataTransforms.GTtandartization_call
      (Data.GDict (<["outlines" := [0; 0]%Q]> ∅))
      (Data.GDict (<["outlines" := [2; 2]%Q]> ∅))
      (DataTransforms.GtDict
         [("outlines"%string, {| Data.ncols := 2; Data.rows := [[4; 6]]%Q |});
          ("stitches"%string, {| Data.ncols := 2; Data.rows := [[0; 5]]%Q |})])
    = Ok new_gt).
  { eexists. vm_compute. reflexivity. }
  destruct Hrun as (new_gt & Hrun).
  destruct (GTtandartization_updates_only_keys_with_stats _ _ _ _ Hrun)
    as (items' & -> & _ & Hkeys).
  exists items'. split; [exact Hrun|].
  destruct (Hkeys 1 _ _ eq_refl) as (value' & Hi & Hsame & _).
  rewrite Hi. rewrite (Hsame eq_refl eq_refl). reflexivity.
Defined.

End TransformFacts.

(* ===================================================================== *)
(** ** [standardize]: calling it again                                    *)
(* ===================================================================== *)

Section StandardizeAgain.
Import Numeric Data DataTransforms.
Context `{torch : Torch}.

Ltac name_stats :=
  match goal with
  | |- context [<["standardize" := ?s]> _] =>
      let stats := fresh "stats" in
      set (stats := s); cbv beta iota zeta; clearbody stats
  end.

Lemma filter_again {A} (P : A -> Prop) `{forall x, Decision (P x)} (l : list A) :
  filter P (filter P l) = filter P l.
Proof.
  induction l as [|x l IH]; [reflexivity|].
  rewrite filter_cons. destruct (decide (P x)) as [Hx | Hx]; [|exact IH].
  rewrite filter_cons. destruct (decide (P x)); [|contradiction].
  f_equal. exact IH.
Qed.

Lemma FeatureStandartization_kind sh sc t :
  FeatureStandartization sh sc = Ok t -> is_feature_std t = true /\ is_gt_std t = false.
Proof.
  unfold FeatureStandartization.
  destruct (cfg_tensor sh); simpl; [|discriminate].
  destruct (cfg_tensor sc); simpl; [|discriminate].
  intros [= <-]. auto.
Qed.

Lemma GTtandartization_kind sh sc t :
  GTtandartization sh sc = Ok t -> is_gt_std t = true /\ is_feature_std t = false.
Proof.
  unfold GTtandartization.
  destruct (gt_stats_of sh); simpl; [|discriminate].
  destruct (gt_stats_of sc); simpl; [|discriminate].
  intros [= <-]. auto.
Qed.

(** What a successful call has done, in terms of the statistics it ended
    up using. *)
Lemma panel_standardize_ok training_arg ds ds1 :
  GarmentPanelDataset_standardize training_arg ds = (Ok tt, ds1) ->
  exists stats sh sc t,
    config ds1 !! "standardize" = Some stats /\
    cfg_item stats "shift" = Ok sh /\ cfg_item stats "scale" = Ok sc /\
    FeatureStandartization sh sc = Ok t /\
    transforms ds1 = filter (fun t => is_feature_std t = false) (transforms ds) ++ [t].
Proof.
  unfold GarmentPanelDataset_standardize.
  destruct (config ds !! "standardize") as [stats|] eqn:Hc.
  - destruct (cfg_item stats "shift") as [sh|] eqn:E1; simpl; [|discriminate].
    destruct (cfg_item stats "scale") as [sc|] eqn:E2; simpl; [|discriminate].
    destruct (FeatureStandartization sh sc) as [t|] eqn:E3; simpl; [|discriminate].
    intros [= <-]. exists stats, sh, sc, t. simpl. auto.
  - destruct training_arg as [[b|]|]; [|simpl; discriminate | simpl; discriminate].
    unfold full_batch, full_gt_batch. cbn [mbind result_bind rbind].
    destruct (_get_distribution_stats (b_features b) true) as [feature_mean feature_stds].
    destruct (zero_first_two feature_mean) as [fm|]; cbn [mbind result_bind rbind];
      [|discriminate].
    name_stats.
    destruct (cfg_item stats "shift") as [sh|] eqn:E1; simpl; [|discriminate].
    destruct (cfg_item stats "scale") as [sc|] eqn:E2; simpl; [|discriminate].
    destruct (FeatureStandartization sh sc) as [t|] eqn:E3; simpl; [|discriminate].
    intros [= <-]. exists stats, sh, sc, t. simpl.
    split; [apply lookup_insert_eq | auto].
Qed.

Lemma panel_standardize_stored training_arg ds stats sh sc t :
  config ds !! "standardize" = Some stats ->
  cfg_item stats "shift" = Ok sh -> cfg_item stats "scale" = Ok sc ->
  FeatureStandartization sh sc = Ok t ->
  GarmentPanelDataset_standardize training_arg ds
  = (Ok tt, {| config := config ds;
               transforms := filter (fun t => is_feature_std t = false) (transforms ds)
                             ++ [t] |}).
Proof.
  intros Hc E1 E2 E3. unfold GarmentPanelDataset_standardize.
  rewrite Hc, E1. simpl. rewrite E2. simpl. rewrite E3. reflexivity.
Qed.

Lemma pattern_standardize_ok training_arg ds ds1 :
  Garment3DPatternDataset_standardize training_arg ds = (Ok tt, ds1) ->
  exists stats sh sc fsh fsc t1 t2,
    config ds1 !! "standardize" = Some stats /\
    cfg_item stats "shift" = Ok sh /\ cfg_item stats "scale" = Ok sc /\
    cfg_item stats "f_shift" = Ok fsh /\ cfg_item stats "f_scale" = Ok fsc /\
    GTtandartization sh sc = Ok t1 /\ FeatureStandartization fsh fsc = Ok t2 /\
    transforms ds1
    = filter (fun t => is_gt_std t = false /\ is_feature_std t = false) (transforms ds)
      ++ [t1; t2].
Proof.
  unfold Garment3DPatternDataset_standardize.
  destruct (config ds !! "standardize") as [stats|] eqn:Hc.
  - destruct (cfg_item stats "shift") as [sh|] eqn:E1; simpl; [|discriminate].
    destruct (cfg_item stats "scale") as [sc|] eqn:E2; simpl; [|discriminate].
    destruct (GTtandartization sh sc) as [t1|] eqn:E3; simpl; [|discriminate].
    destruct (cfg_item stats "f_shift") as [fsh|] eqn:E4; simpl; [|discriminate].
    destruct (cfg_item stats "f_scale") as [fsc|] eqn:E5; simpl; [|discriminate].
    destruct (FeatureStandartization fsh fsc) as [t2|] eqn:E6; simpl; [|discriminate].
    intros [= <-]. exists stats, sh, sc, fsh, fsc, t1, t2. simpl.
    rewrite <- app_assoc. repeat (split; [assumption || reflexivity|]). reflexivity.
  - destruct training_arg as [[b|]|]; [|simpl; discriminate | simpl; discriminate].
    unfold full_batch, full_gt_batch. cbn [mbind result_bind rbind].
    destruct (_get_distribution_stats (gb_features b) false) as [feature_mean feature_stds].
    destruct (_get_distribution_stats (gb_ground_truth b) true) as [gt_mean gt_stds].
    destruct (zero_first_two gt_mean) as [gm|]; cbn [mbind result_bind rbind];
      [|discriminate].
    name_stats.
    destruct (cfg_item stats "shift") as [sh|] eqn:E1; simpl; [|discriminate].
    destruct (cfg_item stats "scale") as [sc|] eqn:E2; simpl; [|discriminate].
    destruct (GTtandartization sh sc) as [t1|] eqn:E3; simpl; [|discriminate].
    destruct (cfg_item stats "f_shift") as [fsh|] eqn:E4; simpl; [|discriminate].
    destruct (cfg_item stats "f_scale") as [fsc|] eqn:E5; simpl; [|discriminate].
    destruct (FeatureStandartization fsh fsc) as [t2|] eqn:E6; simpl; [|discriminate].
    intros [= <-]. exists stats, sh, sc, fsh, fsc, t1, t2. simpl.
    split; [apply lookup_insert_eq|].
    rewrite <- app_assoc. repeat (split; [assumption || reflexivity|]). reflexivity.
Qed.

Lemma pattern_standardize_stored training_arg ds stats sh sc fsh fsc t1 t2 :
  config ds !! "standardize" = Some stats ->
  cfg_item stats "shift" = Ok sh -> cfg_item stats "scale" = Ok sc ->
  cfg_item stats "f_shift" = Ok fsh -> cfg_item stats "f_scale" = Ok fsc ->
  GTtandartization sh sc = Ok t1 -> FeatureStandartization fsh fsc = Ok t2 ->
  Garment3DPatternDataset_standardize training_arg ds
  = (Ok tt, {| config := config ds;
               transforms :=
                 filter (fun t => is_gt_std t = false /\ is_feature_std t = false)
                        (transforms ds) ++ [t1; t2] |}).
Proof.
  intros Hc E1 E2 E4 E5 E3 E6. unfold Garment3DPatternDataset_standardize.
  rewrite Hc, E1. simpl. rewrite E2. simpl. rewrite E3. simpl.
  rewrite E4. simpl. rewrite E5. simpl. rewrite E6. simpl.
  rewrite <- app_assoc. reflexivity.
Qed.

Lemma full_standardize_ok training_arg ds ds1 :
  Garment3DPatternFullDataset_standardize training_arg ds = (Ok tt, ds1) ->
  exists stats sh sc fsh fsc t1 t2,
    config ds1 !! "standardize" = Some stats /\
    cfg_item stats "gt_shift" = Ok sh /\ cfg_item stats "gt_scale" = Ok sc /\
    cfg_item stats "f_shift" = Ok fsh /\ cfg_item stats "f_scale" = Ok fsc /\
    GTtandartization sh sc = Ok t1 /\ FeatureStandartization fsh fsc = Ok t2 /\
    transforms ds1
    = filter (fun t => is_gt_std t = false /\ is_feature_std t = false) (transforms ds)
      ++ [t1; t2].
Proof.
  unfold Garment3DPatternFullDataset_standardize.
  destruct (config ds !! "standardize") as [stats|] eqn:Hc.
  - destruct (cfg_item stats "gt_shift") as [sh|] eqn:E1; simpl; [|discriminate].
    destruct (cfg_item stats "gt_scale") as [sc|] eqn:E2; simpl; [|discriminate].
    destruct (GTtandartization sh sc) as [t1|] eqn:E3; simpl; [|discriminate].
    destruct (cfg_item stats "f_shift") as [fsh|] eqn:E4; simpl; [|discriminate].
    destruct (cfg_item stats "f_scale") as [fsc|] eqn:E5; simpl; [|discriminate].
    destruct (FeatureStandartization fsh fsc) as [t2|] eqn:E6; simpl; [|discriminate].
    intros [= <-]. exists stats, sh, sc, fsh, fsc, t1, t2. simpl.
    rewrite <- app_assoc. repeat (split; [assumption || reflexivity|]). reflexivity.
  - destruct training_arg as [[b|]|]; [|simpl; discriminate | simpl; discriminate].
    unfold full_batch, full_gt_batch. cbn [mbind result_bind rbind].
    destruct (_get_distribution_stats (b_features b) false) as [feature_shift feature_scale].
    destruct (_get_distribution_stats (b_outlines b) true) as [panel_shift panel_scale].
    destruct (zero_first_two panel_shift) as [ps|]; cbn [mbind result_bind rbind];
      [|discriminate].
    destruct (_get_norm_stats (b_translations b) false) as [[tmin tsc]|];
      cbn [mbind result_bind rbind]; [|discriminate].
    destruct (_get_norm_stats (b_rotations b) false) as [[rmin rsc]|];
      cbn [mbind result_bind rbind]; [|discriminate].
    name_stats.
    destruct (cfg_item stats "gt_shift") as [sh|] eqn:E1; simpl; [|discriminate].
    destruct (cfg_item stats "gt_scale") as [sc|] eqn:E2; simpl; [|discriminate].
    destruct (GTtandartization sh sc) as [t1|] eqn:E3; simpl; [|discriminate].
    destruct (cfg_item stats "f_shift") as [fsh|] eqn:E4; simpl; [|discriminate].
    destruct (cfg_item stats "f_scale") as [fsc|] eqn:E5; simpl; [|discriminate].
    destruct (FeatureStandartization fsh fsc) as [t2|] eqn:E6; simpl; [|discriminate].
    intros [= <-]. exists stats, sh, sc, fsh, fsc, t1, t2. simpl.
    split; [apply lookup_insert_eq|].
    rewrite <- app_assoc. repeat (split; [assumption || reflexivity|]). reflexivity.
Qed.

Lemma full_standardize_stored training_arg ds stats sh sc fsh fsc t1 t2 :
  config ds !! "standardize" = Some stats ->
  cfg_item stats "gt_shift" = Ok sh -> cfg_item stats "gt_scale" = Ok sc ->
  cfg_item stats "f_shift" = Ok fsh -> cfg_item stats "f_scale" = Ok fsc ->
  GTtandartization sh sc = Ok t1 -> FeatureStandartization fsh fsc = Ok t2 ->
  Garment3DPatternFullDataset_standardize training_arg ds
  = (Ok tt, {| config := config ds;
               transforms :=
                 filter (fun t => is_gt_std t = false /\ is_feature_std t = false)
                        (transforms ds) ++ [t1; t2] |}).
Proof.
  intros Hc E1 E2 E4 E5 E3 E6. unfold Garment3DPatternFullDataset_standardize.
  rewrite Hc, E1. simpl. rewrite E2. simpl. rewrite E3. simpl.
  rewrite E4. simpl. rewrite E5. simpl. rewrite E6. simpl.
  rewrite <- app_assoc. reflexivity.
Qed.

Lemma refilter_one (t : transform) (l : list transform) :
  is_feature_std t = true ->
  filter (fun t => is_feature_std t = false)
         (filter (fun t => is_feature_std t = false) l ++ [t])
  = filter (fun t => is_feature_std t = false) l.
Proof.
  intros Ht. rewrite filter_app, filter_again.
  rewrite filter_cons. destruct (decide (is_feature_std t = false)); [congruence|].
  rewrite filter_nil. apply app_nil_r.
Qed.

Lemma refilter_two (t1 t2 : transform) (l : list transform) :
  is_gt_std t1 = true -> is_feature_std t2 = true ->
  filter (fun t => is_gt_std t = false /\ is_feature_std t = false)
         (filter (fun t => is_gt_std t = false /\ is_feature_std t = false) l ++ [t1; t2])
  = filter (fun t => is_gt_std t = false /\ is_feature_std t = false) l.
Proof.
  intros H1 H2. rewrite filter_app, filter_again.
  rewrite filter_cons.
  destruct (decide (is_gt_std t1 = false /\ is_feature_std t1 = false)) as [[? ?]|_];
    [congruence|].
  rewrite filter_cons.
  destruct (decide (is_gt_std t2 = false /\ is_feature_std t2 = false)) as [[? ?]|_];
    [congruence|].
  rewrite filter_nil. apply app_nil_r.
Qed.

End StandardizeAgain.

Section StandardizeTwice.
Import Numeric Data DataTransforms.

(** X13: [standardize] can be called again without harm.  For each of
    [GarmentPanelDataset], [Garment3DPatternDataset] and
    [Garment3DPatternFullDataset]: after a call that returned, a further
    call -- with any training subset or none -- returns as well and leaves
    the dataset exactly as it is, configuration and transform list; in
    particular the statistics are not recomputed and no second
    standardisation transform piles up. *)
Theorem standardize_twice_changes_nothing `{torch : Data.Torch}
    (ds ds1 : Data.Dataset) :
  (forall training again,
     Data.GarmentPanelDataset_standardize training ds = (Ok tt, ds1) ->
     Data.GarmentPanelDataset_standardize again ds1 = (Ok tt, ds1) /\
     length (filter (fun t => Data.is_feature_std t = true) (Data.transforms ds1)) = 1) /\
  (forall training again,
     DataTransforms.Garment3DPatternDataset_standardize training ds = (Ok tt, ds1) ->
     DataTransforms.Garment3DPatternDataset_standardize again ds1 = (Ok tt, ds1) /\
     length (filter (fun t => Data.is_feature_std t = true) (Data.transforms ds1)) = 1 /\
     length (filter (fun t => Data.is_gt_std t = true) (Data.transforms ds1)) = 1) /\
  (forall training again,
     Data.Garment3DPatternFullDataset_standardize training ds = (Ok tt, ds1) ->
     Data.Garment3DPatternFullDataset_standardize again ds1 = (Ok tt, ds1) /\
     length (filter (fun t => Data.is_feature_std t = true) (Data.transforms ds1)) = 1 /\
     length (filter (fun t => Data.is_gt_std t = true) (Data.transforms ds1)) = 1).
Proof.
  assert (Hnone : forall (P Q : transform -> Prop)
                         `{forall x, Decision (P x)} `{forall x, Decision (Q x)} l,
            (forall x, P x -> Q x -> False) -> filter P (filter Q l) = []).
  { intros P Q ? ? l Hex. induction l as [|x l IH]; [reflexivity|].
    rewrite (filter_cons Q). destruct (decide (Q x)) as [Hq | Hq]; [|exact IH].
    rewrite filter_cons. destruct (decide (P x)) as [Hp | Hp]; [|exact IH].
    exfalso. eauto. }
  split; [|split].
  - intros training again Hrun.
    destruct (panel_standardize_ok _ _ _ Hrun) as (stats & sh & sc & t & Hc & E1 & E2 & E3 & Htr).
    destruct (FeatureStandartization_kind _ _ _ E3) as [Hf _].
    split.
    + rewrite (panel_standardize_stored again ds1 stats sh sc t Hc E1 E2 E3).
      rewrite Htr, (refilter_one t _ Hf). destruct ds1 as [c trs]. simpl in *.
      rewrite Htr. reflexivity.
    + rewrite Htr, filter_app, Hnone by (intros x; simpl; congruence).
      rewrite filter_cons. destruct (decide (is_feature_std t = true)); [|congruence].
      reflexivity.
  - intros training again Hrun.
    destruct (pattern_standardize_ok _ _ _ Hrun)
      as (stats & sh & sc & fsh & fsc & t1 & t2 & Hc & E1 & E2 & E4 & E5 & E3 & E6 & Htr).
    destruct (GTtandartization_kind _ _ _ E3) as [Hg1 Hf1].
    destruct (FeatureStandartization_kind _ _ _ E6) as [Hf2 Hg2].
    split; [|split].
    + rewrite (pattern_standardize_stored again ds1 stats sh sc fsh fsc t1 t2
                 Hc E1 E2 E4 E5 E3 E6).
      rewrite Htr, (refilter_two t1 t2 _ Hg1 Hf2). destruct ds1 as [c trs]. simpl in *.
      rewrite Htr. reflexivity.
    + rewrite Htr, filter_app, Hnone by (intros x; simpl; intros ? [? ?]; congruence).
      rewrite !filter_cons.
      destruct (decide (is_feature_std t1 = true)); [congruence|].
      destruct (decide (is_feature_std t2 = true)); [|congruence]. reflexivity.
    + rewrite Htr, filter_app, Hnone by (intros x; simpl; intros ? [? ?]; congruence).
      rewrite !filter_cons.
      destruct (decide (is_gt_std t1 = true)); [|congruence].
      destruct (decide (is_gt_std t2 = true)); [congruence|]. reflexivity.
  - intros training again Hrun.
    destruct (full_standardize_ok _ _ _ Hrun)
      as (stats & sh & sc & fsh & fsc & t1 & t2 & Hc & E1 & E2 & E4 & E5 & E3 & E6 & Htr).
    destruct (GTtandartization_kind _ _ _ E3) as [Hg1 Hf1].
    destruct (FeatureStandartization_kind _ _ _ E6) as [Hf2 Hg2].
    split; [|split].
    + rewrite (full_standardize_stored again ds1 stats sh sc fsh fsc t1 t2
                 Hc E1 E2 E4 E5 E3 E6).
      rewrite Htr, (refilter_two t1 t2 _ Hg1 Hf2). destruct ds1 as [c trs]. simpl in *.
      rewrite Htr. reflexivity.
    + rewrite Htr, filter_app, Hnone by (intros x; simpl; intros ? [? ?]; congruence).
      rewrite !filter_cons.
      destruct (decide (is_feature_std t1 = true)); [congruence|].
      destruct (decide (is_feature_std t2 = true)); [|congruence]. reflexivity.
    + rewrite Htr, filter_app, Hnone by (intros x; simpl; intros ? [? ?]; congruence).
      rewrite !filter_cons.
      destruct (decide (is_gt_std t1 = true)); [|congruence].
      destruct (decide (is_gt_std t2 = true)); [congruence|]. reflexivity.
Qed.

(** A dataset standardised from a training batch, then once more without
    one. *)
Lemma standardize_twice_changes_nothing_witness :
  exists ds1,
    @Data.GarmentPanelDataset_standardize DataSpec.toy_torch
      (Some (Some DataSpec.small_batch)) DataTransforms.plain_dataset = (Ok tt, ds1) /\
    @Data.GarmentPanelDataset_standardize DataSpec.toy_torch None ds1 = (Ok tt, ds1).
Proof.
  assert (Hrun : exists ds1,
    @Data.GarmentPanelDataset_standardize DataSpec.toy_torch
      (Some (Some DataSpec.small_batch)) DataTransforms.plain_dataset = (Ok tt, ds1)).
  { eexists. vm_compute. reflexivity. }
  destruct Hrun as (ds1 & Hrun). exists ds1. split; [exact Hrun|].
  destruct (@standardize_twice_changes_nothing DataSpec.toy_torch
              DataTransforms.plain_dataset ds1) as [Hpanel _].
  destruct (Hpanel _ None Hrun) as [Hagain _]. exact Hagain.
Defined.

End StandardizeTwice.

(* ===================================================================== *)
(** ** Freshly computed statistics of [GarmentPanelDataset]               *)
(* ===================================================================== *)

Section FreshStats.
Import Numeric Data DataTransforms.

Lemma fold_Qplus_shift l : forall a, (fold_left Qplus l a == a + fold_left Qplus l 0)%Q.
Proof.
  induction l as [|x l IH]; intros a; simpl.
  - ring.
  - rewrite (IH (a + x)%Q), (IH (0 + x)%Q). ring.
Qed.

Lemma Qsum_cons x l : (Qsum (x :: l) == x + Qsum l)%Q.
Proof.
  unfold Qsum. simpl. rewrite (fold_Qplus_shift l (0 + x)%Q). ring.
Qed.








End FreshStats.
(* ===================================================================== *)
(** ** [load_split]: what a call leaves behind                            *)
(* ===================================================================== *)

Section LoadSplit.
Import Numeric Data DataSpec SplitSpec.
Context `{torch : Torch}.

Lemma world_eta (s : world) : {| wrapper := wrapper s; rng := rng s |} = s.
Proof. destruct s. reflexivity. Qed.

Lemma adopt_inv arg w w' :
  adopt arg w = Ok w' ->
  dataset_len w' = dataset_len w /\ batch_size w' = batch_size w /\
  loader_full w' = loader_full w /\ loader_train w' = loader_train w /\
  loader_validation w' = loader_validation w /\ loader_test w' = loader_test w.
Proof.
  unfold adopt. destruct arg as [si|]; [|intros [= <-]; repeat split].
  destruct (bool_decide (si = ∅)); [intros [= <-]; repeat split|].
  destruct (bool_decide (dom (split_info w) ⊆ dom si)); [|discriminate].
  intros [= <-]. repeat split.
Qed.

Lemma DataLoader_ok len d bs sh l :
  DataLoader len d bs sh = Ok l ->
  l = {| l_data := d; l_batch_size := bs; l_shuffle := sh |}.
Proof.
  unfold DataLoader. destruct (loader_init _ _ _); [|discriminate].
  intros [= <-]. reflexivity.
Qed.

(** The loaders of a wrapper on which [new_loaders] has succeeded. *)
Lemma new_loaders_ok sh (w : DatasetWrapper) (b : nat) :
  batch_size w = Some b ->
  fst (new_loaders None sh w) = Ok tt ->
  let w' := snd (new_loaders None sh w) in
  let mk (sec : option section) :=
    if section_truthy (dataset_len w) sec
    then match sec with
         | Some d => Some {| l_data := d; l_batch_size := b; l_shuffle := false |}
         | None => None
         end
    else None in
  loader_full w' = Some {| l_data := Whole; l_batch_size := b; l_shuffle := false |} /\
  loader_train w' = Some {| l_data := training w; l_batch_size := b; l_shuffle := sh |} /\
  loader_validation w' = mk (validation w) /\ loader_test w' = mk (test w).
Proof.
  intros Hb. unfold new_loaders. rewrite Hb. cbv zeta.
  destruct (DataLoader (dataset_len w) (training w) b sh) as [lt|] eqn:Ht;
    [|discriminate].
  apply DataLoader_ok in Ht. subst lt.
  cbn [validation test dataset_len set_loader_train set_loader_validation
       set_loader_test].
  destruct (section_truthy (dataset_len w) (validation w)) eqn:Tv.
  - destruct (validation w) as [dv|] eqn:Ev; [|discriminate].
    cbn [mbind result_bind rbind].
    destruct (DataLoader (dataset_len w) dv b false) as [lv|] eqn:Hv; [|discriminate].
    apply DataLoader_ok in Hv. subst lv. cbn [mbind result_bind rbind].
    destruct (section_truthy (dataset_len w) (test w)) eqn:Tt.
    + destruct (test w) as [dt|] eqn:Et; [|discriminate].
      cbn [mbind result_bind rbind].
      destruct (DataLoader (dataset_len w) dt b false) as [lte|] eqn:Hte; [|discriminate].
      apply DataLoader_ok in Hte. subst lte. cbn [mbind result_bind rbind].
      destruct (DataLoader (dataset_len w) Whole b false) as [lf|] eqn:Hf; [|discriminate].
      apply DataLoader_ok in Hf. subst lf. intros _. repeat split.
    + destruct (DataLoader (dataset_len w) Whole b false) as [lf|] eqn:Hf; [|discriminate].
      apply DataLoader_ok in Hf. subst lf. intros _. repeat split.
  - destruct (section_truthy (dataset_len w) (test w)) eqn:Tt.
    + destruct (test w) as [dt|] eqn:Et; [|discriminate].
      cbn [mbind result_bind rbind].
      destruct (DataLoader (dataset_len w) dt b false) as [lte|] eqn:Hte; [|discriminate].
      apply DataLoader_ok in Hte. subst lte. cbn [mbind result_bind rbind].
      destruct (DataLoader (dataset_len w) Whole b false) as [lf|] eqn:Hf; [|discriminate].
      apply DataLoader_ok in Hf. subst lf. intros _. repeat split.
    + destruct (DataLoader (dataset_len w) Whole b false) as [lf|] eqn:Hf; [|discriminate].
      apply DataLoader_ok in Hf. subst lf. intros _. repeat split.
Qed.

(** The wrapper after the loaders have been rebuilt for a known batch
    size, or left alone when none is known. *)
Lemma loaders_after (bs : option nat) (w : DatasetWrapper) :
  fst (with_loaders bs w) = Ok tt ->
  let w2 := snd (with_loaders bs w) in
  match (match bs with Some b => Some b | None => batch_size w end) with
  | Some b =>
      let mk (sec : option section) :=
        if section_truthy (dataset_len w) sec
        then match sec with
             | Some d => Some {| l_data := d; l_batch_size := b; l_shuffle := false |}
             | None => None
             end
        else None in
      batch_size w2 = Some b /\
      loader_full w2 = Some {| l_data := Whole; l_batch_size := b; l_shuffle := false |} /\
      loader_train w2 = Some {| l_data := training w; l_batch_size := b; l_shuffle := true |} /\
      loader_validation w2 = mk (validation w) /\ loader_test w2 = mk (test w)
  | None =>
      batch_size w2 = None /\ loader_full w2 = loader_full w /\
      loader_train w2 = loader_train w /\ loader_validation w2 = loader_validation w /\
      loader_test w2 = loader_test w
  end.
Proof.
  intros Hok. cbv zeta.
  destruct (with_loaders_frame bs w) as (_ & _ & _ & _ & _ & Hbs). cbv zeta in Hbs.
  unfold with_loaders in Hok |- *. cbv zeta in Hok |- *.
  destruct bs as [b|].
  - cbn [batch_size set_batch_size] in Hok |- *.
    split; [exact Hbs|].
    exact (new_loaders_ok true (set_batch_size w (Some b)) b eq_refl Hok).
  - destruct (batch_size w) as [b|] eqn:Hb.
    + split; [unfold with_loaders in Hbs; cbv zeta in Hbs; rewrite Hb in Hbs; exact Hbs|].
      exact (new_loaders_ok true w b Hb Hok).
    + repeat split. exact Hb.
Qed.

(** A derivation that returns does not depend on the state the generator
    was in. *)
Lemma load_split_none_any_rng bs (w : DatasetWrapper) (g g2 : rng_state) secs :
  fst (load_split None bs {| wrapper := w; rng := g |}) = Ok secs ->
  load_split None bs {| wrapper := w; rng := g2 |}
  = load_split None bs {| wrapper := w; rng := g |}.
Proof.
  rewrite !load_split_none.
  destruct (partition _ _) as [[[[tr va] te]|e] og] eqn:Hp; [|discriminate].
  destruct (partition_ok_inv _ _ _ _ Hp) as (sd & vp & tp & g' & _ & _ & _ & -> & _).
  reflexivity.
Qed.

End LoadSplit.

Section LoadSplitFacts.
Import Numeric Data DataSpec.

(** X15: an incomplete [split_info] is refused before anything changes.
    If the dictionary passed to [load_split] is not empty and lacks one of
    the keys of the stored [split_info], the call raises [ValueError] and
    leaves the wrapper and the random generator exactly as they were; an
    empty dictionary is treated like no dictionary at all. *)
Theorem load_split_rejects_incomplete_split_info `{torch : Data.Torch}
    (split_info_arg : gmap string Data.pyval) (batch_size_arg : option nat)
    (s : Data.world) (key : string) :
  split_info_arg <> ∅ ->
  is_Some (Data.split_info (Data.wrapper s) !! key) ->
  split_info_arg !! key = None ->
  Data.load_split (Some split_info_arg) batch_size_arg s = (Raise ValueError, s) /\
  Data.load_split (Some ∅) batch_size_arg s = Data.load_split None batch_size_arg s.
Proof.
  intros Hne Hkey Hmiss. split.
  - unfold load_split.
    rewrite bool_decide_eq_false_2 by exact Hne.
    rewrite bool_decide_eq_false_2.
    + rewrite world_eta. reflexivity.
    + intros Hsub. apply elem_of_dom in Hkey. apply Hsub in Hkey.
      apply elem_of_dom in Hkey as [x Hx]. congruence.
  - unfold load_split. rewrite bool_decide_eq_true_2 by reflexivity. reflexivity.
Qed.

(** A freshly built wrapper given only a seed. *)
Lemma load_split_rejects_incomplete_split_info_witness :
  @Data.load_split DataSpec.toy_torch (Some (<["random_seed" := Data.VInt 1]> ∅)) None
    (@Data.Build_world DataSpec.toy_torch (DataSpec.fresh_wrapper 50) 7%Z)
  = (Raise ValueError,
     @Data.Build_world DataSpec.toy_torch (DataSpec.fresh_wrapper 50) 7%Z).
Proof.
  apply (@load_split_rejects_incomplete_split_info DataSpec.toy_torch
           (<["random_seed" := Data.VInt 1]> ∅) None
           (@Data.Build_world DataSpec.toy_torch (DataSpec.fresh_wrapper 50) 7%Z)
           "valid_percent").
  - intros H. apply (f_equal (fun m => m !! "random_seed")) in H.
    rewrite lookup_insert_eq, lookup_empty in H. discriminate.
  - eexists. reflexivity.
  - reflexivity.
Defined.

(** X16: what a successful [load_split] has done.  The stored
    [split_info] has a seed that [int()] accepts (an integer, or a float,
    which is truncated) and that torch accepts as a seed, and both
    percentages; the subsets returned are the ones now stored in the
    wrapper, and they are exactly what [random_split] returns, with the
    generator re-seeded from the stored seed, for the lengths (rest,
    validation size, test size) -- the test size only when the test
    percentage is truthy, otherwise there is no test subset; these lengths
    add up to the size of the dataset; the generator is left in the state
    [random_split] leaves it in; and nothing of this depends on the state
    of the generator before the call. *)
Theorem load_split_uses_only_the_stored_seed `{torch : Data.Torch}
    (split_info_arg : option (gmap string Data.pyval)) (batch_size_arg : option nat)
    (s : Data.world) (tr : Data.section) (va te : option Data.section) :
  fst (Data.load_split split_info_arg batch_size_arg s) = Ok (tr, va, te) ->
  let s' := snd (Data.load_split split_info_arg batch_size_arg s) in
  let w' := Data.wrapper s' in
  let len := Data.dataset_len (Data.wrapper s) in
  exists seed_value seed g0 vp tp valid_size lengths tr_idx va_idx,
    Data.split_info w' !! "random_seed" = Some seed_value /\
    Data.as_int seed_value = Ok seed /\
    Data.manual_seed seed = Ok g0 /\
    Data.split_info w' !! "valid_percent" = Some vp /\
    Data.split_info w' !! "test_percent" = Some tp /\
    Data.percent_size len vp = Ok valid_size /\
    foldr Z.add 0%Z lengths = Z.of_nat len /\
    (if Data.truthy tp
     then exists test_size te_idx,
            Data.percent_size len tp = Ok test_size /\
            lengths = [(Z.of_nat len - valid_size - test_size)%Z; valid_size; test_size] /\
            Data.random_split len lengths g0
            = (Ok [tr_idx; va_idx; te_idx], Data.rng s') /\
            te = Some (Data.Subset te_idx)
     else lengths = [(Z.of_nat len - valid_size)%Z; valid_size] /\
          Data.random_split len lengths g0
          = (Ok [tr_idx; va_idx], Data.rng s') /\
          te = None) /\
    tr = Data.Subset tr_idx /\ va = Some (Data.Subset va_idx) /\
    Data.training w' = tr /\ Data.validation w' = va /\ Data.test w' = te /\
    Data.dataset_len w' = len /\
    forall g, Data.load_split split_info_arg batch_size_arg
                {| Data.wrapper := Data.wrapper s; Data.rng := g |}
              = Data.load_split split_info_arg batch_size_arg s.
Proof.
  intros Hok s' w' len. subst s' w' len.
  rewrite load_split_factored in Hok |- *.
  destruct (adopt split_info_arg (wrapper s)) as [w|e] eqn:Ha; [|discriminate].
  destruct (adopt_inv _ _ _ Ha) as (Hlen & _).
  assert (Hgen : forall g,
            load_split split_info_arg batch_size_arg {| wrapper := wrapper s; rng := g |}
            = load_split None batch_size_arg {| wrapper := w; rng := rng s |}).
  { intros g. rewrite load_split_factored. cbn [wrapper rng]. rewrite Ha.
    eapply load_split_none_any_rng. exact Hok. }
  destruct (load_split_none_inv _ _ _ _ Hok)
    as (sd & vp & tp & g' & H1 & H2 & H3 & Hre & _ & Hs1).
  rewrite Hs1. cbn [wrapper rng fst snd].
  destruct (with_loaders_frame batch_size_arg (set_sections w tr va te))
    as (Fl & Ftr & Fva & Fte & Fsi & _).
  cbv zeta in Fl, Ftr, Fva, Fte, Fsi. rewrite Fl, Ftr, Fva, Fte, Fsi.
  cbn [set_sections training validation test dataset_len split_info].
  rewrite <- Hlen.
  destruct Hre as (g0 & valid_size & Hseed & Hvs & Hrest).
  unfold torch_manual_seed in Hseed.
  destruct (as_int sd) as [seed|] eqn:Hint; [|discriminate].
  cbn [mbind result_bind rbind] in Hseed.
  destruct (truthy tp) eqn:Htruthy.
  - destruct Hrest as (test_size & tri & vai & tei & Hts & Hsplit & [= -> -> ->]).
    exists sd, seed, g0, vp, tp, valid_size,
      [(Z.of_nat (dataset_len w) - valid_size - test_size)%Z; valid_size; test_size],
      tri, vai.
    rewrite Htruthy.
    do 6 (split; [first [assumption | reflexivity]|]).
    split; [simpl; lia|].
    split; [exists test_size, tei; auto|].
    do 6 (split; [reflexivity|]).
    intros g. apply Hgen.
  - destruct Hrest as (tri & vai & Hsplit & [= -> -> ->]).
    exists sd, seed, g0, vp, tp, valid_size,
      [(Z.of_nat (dataset_len w) - valid_size)%Z; valid_size], tri, vai.
    rewrite Htruthy.
    do 6 (split; [first [assumption | reflexivity]|]).
    split; [simpl; lia|].
    split; [auto|].
    do 6 (split; [reflexivity|]).
    intros g. apply Hgen.
Qed.

End LoadSplitFacts.

Section LoadSplitWitnesses.
Import Numeric Data DataSpec.

(** A stored 10/10 split of 50 items, re-derived. *)
Lemma load_split_uses_only_the_stored_seed_witness :
  exists tr va te,
    fst (@Data.load_split DataSpec.toy_torch (Some SplitSpec.ten_ten_split) None
           SplitSpec.toy_world) = Ok (tr, va, te) /\
    Data.training (Data.wrapper
      (snd (@Data.load_split DataSpec.toy_torch (Some SplitSpec.ten_ten_split) None
              SplitSpec.toy_world))) = tr.
Proof.
  assert (Hrun : exists tr va te,
    fst (@Data.load_split DataSpec.toy_torch (Some SplitSpec.ten_ten_split) None
           SplitSpec.toy_world) = Ok (tr, va, te)).
  { eexists. eexists. eexists. vm_compute. reflexivity. }
  destruct Hrun as (tr & va & te & Hrun). exists tr, va, te. split; [exact Hrun|].
  destruct (@load_split_uses_only_the_stored_seed DataSpec.toy_torch _ _ _ _ _ _ Hrun)
    as (sd & seed & g0 & vp & tp & vs & lengths & tri & vai
        & _ & _ & _ & _ & _ & _ & _ & _ & _ & _ & Htr & _).
  exact Htr.
Defined.

End LoadSplitWitnesses.

Section LoadSplitLoaders.
Import Numeric Data DataSpec SplitSpec.

(** X17: [load_split] rebuilds the loaders whenever a batch size is known.
    After a successful call, with [b] the batch size passed or, failing
    that, the one set earlier: the wrapper's batch size is [b]; the full
    loader runs over the whole dataset and the training loader over the new
    training subset, the latter shuffling whatever its previous setting
    was; the validation and test loaders exist exactly when their subset
    exists and is not empty, and do not shuffle.  If no batch size is
    known, the loaders are not touched (they still point at the previous
    split). *)
Theorem load_split_rebuilds_loaders `{torch : Data.Torch}
    (split_info_arg : option (gmap string Data.pyval)) (batch_size_arg : option nat)
    (s : Data.world) (tr : Data.section) (va te : option Data.section) :
  fst (Data.load_split split_info_arg batch_size_arg s) = Ok (tr, va, te) ->
  let w := Data.wrapper s in
  let w' := Data.wrapper (snd (Data.load_split split_info_arg batch_size_arg s)) in
  match (match batch_size_arg with Some b => Some b | None => Data.batch_size w end) with
  | Some b =>
      let mk (sec : option Data.section) :=
        match sec with
        | Some (Data.Subset idx) =>
            if length idx =? 0 then None
            else Some {| Data.l_data := Data.Subset idx; Data.l_batch_size := b;
                         Data.l_shuffle := false |}
        | _ => None
        end in
      Data.batch_size w' = Some b /\
      Data.loader_full w'
      = Some {| Data.l_data := Data.Whole; Data.l_batch_size := b;
                Data.l_shuffle := false |} /\
      Data.loader_train w'
      = Some {| Data.l_data := tr; Data.l_batch_size := b; Data.l_shuffle := true |} /\
      Data.loader_validation w' = mk va /\ Data.loader_test w' = mk te
  | None =>
      Data.batch_size w' = None /\ Data.loader_full w' = Data.loader_full w /\
      Data.loader_train w' = Data.loader_train w /\
      Data.loader_validation w' = Data.loader_validation w /\
      Data.loader_test w' = Data.loader_test w
  end.
Proof.
  intros Hok w w'. subst w w'.
  rewrite load_split_factored in Hok |- *.
  destruct (adopt split_info_arg (wrapper s)) as [w0|e] eqn:Ha; [|discriminate].
  destruct (adopt_inv _ _ _ Ha) as (_ & Hbs & Hlf & Hlt & Hlv & Hlte).
  destruct (load_split_none_inv _ _ _ _ Hok)
    as (sd & vp & tp & g' & _ & _ & _ & Hre & Hmade & Hs1).
  rewrite Hs1. cbn [wrapper fst snd].
  pose proof (loaders_after batch_size_arg (set_sections w0 tr va te) Hmade) as Hload.
  cbv zeta in Hload.
  cbn [set_sections batch_size training validation test dataset_len
       loader_full loader_train loader_validation loader_test] in Hload.
  cbn [fst snd] in Hload.
  rewrite Hbs in Hload.
  assert (Hshape : exists tri vai, tr = Subset tri /\ va = Some (Subset vai) /\
                     (te = None \/ exists tei, te = Some (Subset tei))).
  { destruct Hre as (g0 & vs & _ & _ & Hrest). destruct (truthy tp).
    - destruct Hrest as (ts & tri & vai & tei & _ & _ & [= -> -> ->]). eauto 10.
    - destruct Hrest as (tri & vai & _ & [= -> -> ->]). eauto 10. }
  destruct Hshape as (tri & vai & -> & -> & Hte).
  destruct (match batch_size_arg with Some b => Some b | None => batch_size (wrapper s) end)
    as [b|].
  - cbv zeta in Hload. destruct Hload as (H1 & H2 & H3 & H4 & H6).
    split; [exact H1|]. split; [exact H2|]. split; [exact H3|].
    split.
    + rewrite H4. simpl. destruct (length vai =? 0); reflexivity.
    + rewrite H6. destruct Hte as [-> | (tei & ->)]; [reflexivity|].
      simpl. destruct (length tei =? 0); reflexivity.
  - destruct Hload as (H1 & H2 & H3 & H4 & H6).
    rewrite H1, H2, H3, H4, H6, Hlf, Hlt, Hlv, Hlte. repeat split.
Qed.

(** Re-deriving the stored split with batch size 8: the training loader
    shuffles. *)
Lemma load_split_rebuilds_loaders_witness :
  exists tr,
    Data.loader_train (Data.wrapper
      (snd (@Data.load_split DataSpec.toy_torch (Some SplitSpec.ten_ten_split) (Some 8)
              SplitSpec.toy_world)))
    = Some {| Data.l_data := tr; Data.l_batch_size := 8; Data.l_shuffle := true |}.
Proof.
  assert (Hrun : exists tr va te,
    fst (@Data.load_split DataSpec.toy_torch (Some SplitSpec.ten_ten_split) (Some 8)
           SplitSpec.toy_world) = Ok (tr, va, te)).
  { eexists. eexists. eexists. vm_compute. reflexivity. }
  destruct Hrun as (tr & va & te & Hrun). exists tr.
  pose proof (@load_split_rebuilds_loaders DataSpec.toy_torch _ _ _ _ _ _ Hrun) as H.
  cbv zeta in H. destruct H as (_ & _ & Htrain & _). exact Htrain.
Defined.

End LoadSplitLoaders.

Section SplitSizes.
Import Numeric Data DataSpec.
Context `{torch : Torch}.

Lemma py_int_Z (a : Q) (k : Z) : (a == inject_Z k)%Q -> py_int a = k.
Proof.
  intros Ha. unfold py_int.
  destruct (Qle_bool 0 a).
  - rewrite (Qfloor_comp _ _ Ha). apply Qfloor_Z.
  - rewrite (Qceiling_comp _ _ Ha). apply Qceiling_Z.
Qed.

Lemma py_int_between (a : Q) (k : Z) :
  (0 <= k)%Z -> (inject_Z k <= a)%Q -> (a < inject_Z k + 1)%Q -> py_int a = k.
Proof.
  intros Hk Hlo Hhi. unfold py_int.
  assert (H0 : (0 <= a)%Q).
  { apply Qle_trans with (inject_Z k); [|exact Hlo].
    change 0%Q with (inject_Z 0). rewrite <- Zle_Qle. exact Hk. }
  apply Qle_bool_iff in H0. rewrite H0.
  pose proof (Qfloor_le a) as F1. pose proof (Qlt_floor a) as F2.
  assert (G1 : (inject_Z (Qfloor a) < inject_Z (k + 1))%Q).
  { rewrite inject_Z_plus. eapply Qle_lt_trans; [exact F1 | exact Hhi]. }
  assert (G2 : (inject_Z k < inject_Z (Qfloor a + 1))%Q).
  { eapply Qle_lt_trans; [exact Hlo | exact F2]. }
  rewrite <- Zlt_Qlt in G1, G2. lia.
Qed.

(** With an integer percentage, on a dataset far below 2^53 items, the
    detour through a float does not change the quotient: rounding is exact
    on integers and otherwise too small to reach the next integer. *)
Lemma percent_size_int (len : nat) (p : Z) :
  (forall x n, (x == inject_Z n)%Q -> (0 <= n <= 2 ^ 53)%Z ->
     exists a, float_round x = Some a /\ (a == inject_Z n)%Q) ->
  (forall x, (1 # 100 <= x)%Q -> (x <= inject_Z (2 ^ 53))%Q ->
     exists a, float_round x = Some a /\
               (Qabs (a - x) <= x * (1 # 9007199254740992))%Q) ->
  (0 <= p)%Z -> (Z.of_nat len * p < 2 ^ 53)%Z ->
  percent_size len (VInt p) = Ok (Z.of_nat len * p / 100)%Z.
Proof.
  intros Hexact Hnear Hp Hsmall. unfold percent_size, as_float.
  set (n := (Z.of_nat len * p)%Z) in *.
  assert (Hn : (0 <= n)%Z) by (subst n; lia).
  pose proof (Z.div_mod n 100 ltac:(lia)) as Hdm.
  pose proof (Z.mod_pos_bound n 100 ltac:(lia)) as Hr.
  set (k := (n / 100)%Z) in *. set (r := (n mod 100)%Z) in *.
  assert (Hk : (0 <= k)%Z) by (subst k; apply Z.div_pos; lia).
  assert (HX : (inject_Z n == 100 * inject_Z k + inject_Z r)%Q).
  { rewrite Hdm, inject_Z_plus, inject_Z_mult. reflexivity. }
  assert (Hx : (inject_Z n / 100 == inject_Z n * (1 # 100))%Q) by reflexivity.
  assert (HR : (0 <= inject_Z r < 100)%Q).
  { split; [change 0%Q with (inject_Z 0); rewrite <- Zle_Qle; lia|].
    change 100%Q with (inject_Z 100). rewrite <- Zlt_Qlt. lia. }
  assert (HN : (inject_Z n < inject_Z (2 ^ 53))%Q) by (rewrite <- Zlt_Qlt; exact Hsmall).
  change (inject_Z (2 ^ 53)) with (9007199254740992 # 1)%Q in HN.
  destruct (Z.eq_dec r 0%Z) as [Hr0 | Hr0].
  - destruct (Hexact (inject_Z n / 100)%Q k) as (a & -> & Ha).
    + rewrite Hx, HX, Hr0. change (inject_Z 0) with 0%Q. field.
    + split; [exact Hk|]. lia.
    + cbn [mbind result_bind rbind]. rewrite (py_int_Z a k Ha). reflexivity.
  - assert (HR1 : (1 <= inject_Z r)%Q).
    { change 1%Q with (inject_Z 1). rewrite <- Zle_Qle. lia. }
    assert (HR99 : (inject_Z r <= 99)%Q).
    { change 99%Q with (inject_Z 99). rewrite <- Zle_Qle. lia. }
    assert (HK0 : (0 <= inject_Z k)%Q).
    { change 0%Q with (inject_Z 0). rewrite <- Zle_Qle. exact Hk. }
    destruct (Hnear (inject_Z n / 100)%Q) as (a & -> & Ha).
    + rewrite Hx. lra.
    + change (inject_Z (2 ^ 53)) with (9007199254740992 # 1)%Q. rewrite Hx. lra.
    + cbn [mbind result_bind rbind]. f_equal.
      apply Qabs_Qle_condition in Ha. destruct Ha as [Hlo Hhi].
      rewrite Hx in Hlo, Hhi.
      apply py_int_between; [exact Hk | lra | lra].
Qed.

End SplitSizes.

Section SplitSizesStatement.
Import Numeric Data DataSpec.

(** X18: the sizes [load_split] asks [random_split] for fit the dataset.
    For integer percentages that are not negative and together at most
    100, on a dataset of fewer than 2^53 / 100 items, and given two facts
    about rounding to a double (an integer up to 2^53 is its own double;
    the double of a value between 1/100 and 2^53 differs from it by at most
    the value times 2^-53), the float quotient [len * percent / 100]
    truncates to the integer quotient: the validation and test sizes are
    the integer parts of the exact shares, they are not negative, and the
    remaining training size [len - valid_size - test_size] is not negative
    either. *)
Theorem split_sizes_fit_dataset `{torch : Data.Torch} (len : nat)
    (valid_percent test_percent : Z) :
  (forall x n, (x == inject_Z n)%Q -> (0 <= n <= 2 ^ 53)%Z ->
     exists a, Data.float_round x = Some a /\ (a == inject_Z n)%Q) ->
  (forall x, (1 # 100 <= x)%Q -> (x <= inject_Z (2 ^ 53))%Q ->
     exists a, Data.float_round x = Some a /\
               (Qabs (a - x) <= x * (1 # 9007199254740992))%Q) ->
  (0 <= valid_percent)%Z -> (0 <= test_percent)%Z ->
  (valid_percent + test_percent <= 100)%Z ->
  (Z.of_nat len * 100 < 2 ^ 53)%Z ->
  exists valid_size test_size,
    Data.percent_size len (Data.VInt valid_percent) = Ok valid_size /\
    Data.percent_size len (Data.VInt test_percent) = Ok test_size /\
    valid_size = (Z.of_nat len * valid_percent / 100)%Z /\
    test_size = (Z.of_nat len * test_percent / 100)%Z /\
    (0 <= valid_size)%Z /\ (0 <= test_size)%Z /\
    (0 <= Z.of_nat len - valid_size - test_size)%Z.
Proof.
  intros Hexact Hnear Hvp Htp Hsum Hsmall.
  exists (Z.of_nat len * valid_percent / 100)%Z, (Z.of_nat len * test_percent / 100)%Z.
  split; [apply percent_size_int; try assumption; nia|].
  split; [apply percent_size_int; try assumption; nia|].
  split; [reflexivity|]. split; [reflexivity|].
  pose proof (Z.mul_div_le (Z.of_nat len * valid_percent) 100 ltac:(lia)) as Hv.
  pose proof (Z.mul_div_le (Z.of_nat len * test_percent) 100 ltac:(lia)) as Ht.
  split; [apply Z.div_pos; nia|]. split; [apply Z.div_pos; nia|].
  nia.
Qed.

Lemma toy_round_exact (x : Q) (n : Z) :
  (x == inject_Z n)%Q -> (0 <= n <= 2 ^ 53)%Z ->
  exists a, @Data.float_round DataSpec.toy_torch x = Some a /\ (a == inject_Z n)%Q.
Proof. intros Hx _. exists x. split; [reflexivity | exact Hx]. Qed.

Lemma toy_round_near (x : Q) :
  (1 # 100 <= x)%Q -> (x <= inject_Z (2 ^ 53))%Q ->
  exists a, @Data.float_round DataSpec.toy_torch x = Some a /\
            (Qabs (a - x) <= x * (1 # 9007199254740992))%Q.
Proof.
  intros Hlo _. exists x. split; [reflexivity|].
  apply Qabs_Qle_condition. split; lra.
Qed.

(** Ten and fifteen percent of 50 items: 5 and 7, leaving 38. *)
Lemma split_sizes_fit_dataset_witness :
  @Data.percent_size DataSpec.toy_torch 50 (Data.VInt 10) = Ok 5%Z /\
  @Data.percent_size DataSpec.toy_torch 50 (Data.VInt 15) = Ok 7%Z.
Proof.
  destruct (@split_sizes_fit_dataset DataSpec.toy_torch 50 10 15
              toy_round_exact toy_round_near)
    as (v & t & Hv & Ht & -> & -> & _); try lia.
  split; [exact Hv | exact Ht].
Defined.

End SplitSizesStatement.

(* ===================================================================== *)
(** ** [tags_to_stitches]: which pairs are reported                       *)
(* ===================================================================== *)

Section TagPairs.
Import Numeric Data TagsSpec.

Lemma before_irrefl e : ~ before e e.
Proof. unfold before. lia. Qed.

Lemma before_asym e1 e2 : before e1 e2 -> before e2 e1 -> False.
Proof. unfold before. lia. Qed.

Lemma sorted_app (l1 l2 : list (nat * nat)) :
  StronglySorted before l1 -> StronglySorted before l2 ->
  (forall x y, x ∈ l1 -> y ∈ l2 -> before x y) ->
  StronglySorted before (l1 ++ l2).
Proof.
  intros H1 H2 Hcross. induction H1 as [|a l1 Hs IH Hall]; [exact H2|].
  simpl. constructor.
  - apply IH. intros x y Hx Hy. apply Hcross; [constructor; exact Hx | exact Hy].
  - apply List.Forall_app. split; [exact Hall|].
    apply List.Forall_forall. intros y Hy. apply Hcross; [constructor|].
    apply list_elem_of_In. exact Hy.
Qed.

Lemma sorted_NoDup (l : list (nat * nat)) : StronglySorted before l -> NoDup l.
Proof.
  induction 1 as [|a l Hs IH Hall]; constructor; [|exact IH].
  intros Hin. rewrite List.Forall_forall in Hall.
  apply (before_irrefl a). apply Hall. apply list_elem_of_In. exact Hin.
Qed.

(** The candidates of one panel row, and of the whole tensor. *)
Lemma row_candidates (keep : nat * nat -> bool) (i : nat) : forall n start,
  let l := flat_map (fun j => if keep (i, j) then [(i, j)] else []) (seq start n) in
  StronglySorted before l /\
  forall e, e ∈ l <-> fst e = i /\ start <= snd e < start + n /\ keep e = true.
Proof.
  induction n as [|n IH]; intros start; cbv zeta.
  - simpl. split; [constructor|]. intros e. split; [intros H; inversion H | lia].
  - destruct (IH (S start)) as [Hs Hin]. cbv zeta in Hs, Hin.
    simpl seq. simpl flat_map.
    assert (Helem : forall e,
              e ∈ (if keep (i, start) then [(i, start)] else []) ++
                  flat_map (fun j => if keep (i, j) then [(i, j)] else []) (seq (S start) n)
              <-> fst e = i /\ start <= snd e < start + S n /\ keep e = true).
    { intros e. rewrite elem_of_app, Hin. split.
      - intros [H | (H1 & H2 & H3)]; [|split; [exact H1 | split; [lia | exact H3]]].
        destruct (keep (i, start)) eqn:Hk; [|inversion H].
        apply list_elem_of_singleton in H. subst e. simpl. split; [reflexivity|].
        split; [lia | exact Hk].
      - intros (H1 & H2 & H3). destruct (decide (snd e = start)) as [E | E].
        + left. destruct e as [a b]. simpl in *. subst a b. rewrite H3. constructor.
        + right. split; [exact H1|]. split; [lia | exact H3]. }
    split; [|exact Helem].
    apply sorted_app; [|exact Hs|].
    + destruct (keep (i, start)); repeat constructor.
    + intros x y Hx Hy. apply Hin in Hy as (Hy1 & Hy2 & _).
      destruct (keep (i, start)); [|inversion Hx].
      apply list_elem_of_singleton in Hx. subst x. right. simpl. split; [auto | lia].
Qed.

Lemma all_candidates (keep : nat * nat -> bool) (n1 : nat) : forall n0 start,
  let l := flat_map (fun i => flat_map (fun j => if keep (i, j) then [(i, j)] else [])
                                       (seq 0 n1)) (seq start n0) in
  StronglySorted before l /\
  forall e, e ∈ l <-> start <= fst e < start + n0 /\ snd e < n1 /\ keep e = true.
Proof.
  induction n0 as [|n0 IH]; intros start; cbv zeta.
  - simpl. split; [constructor|]. intros e. split; [intros H; inversion H | lia].
  - destruct (IH (S start)) as [Hs Hin]. cbv zeta in Hs, Hin.
    destruct (row_candidates keep start n1 0) as [Hrs Hrin]. cbv zeta in Hrs, Hrin.
    simpl seq. simpl flat_map. split.
    + apply sorted_app; [exact Hrs | exact Hs|].
      intros x y Hx Hy. apply Hrin in Hx as (Hx1 & _). apply Hin in Hy as (Hy1 & _).
      left. lia.
    + intros e. rewrite elem_of_app, Hin, Hrin. split.
      * intros [(H1 & H2 & H3) | (H1 & H2 & H3)]; (split; [lia | split; [lia | exact H3]]).
      * intros (H1 & H2 & H3). destruct (decide (fst e = start)) as [E | E].
        -- left. split; [exact E | split; [lia | exact H3]].
        -- right. split; [lia | split; [exact H2 | exact H3]].
Qed.

Lemma partners_elem tags x later a b :
  (a, b) ∈ partners tags x later <->
  a = x /\ b ∈ later /\
  all_isclose_positional (tag_at tags x) (tag_at tags b) (1 # 10) = true.
Proof.
  unfold partners. rewrite list_elem_of_In, in_map_iff. split.
  - intros (y & [= <- <-] & Hy). apply list_elem_of_In, list_elem_of_filter in Hy as [Hc Hy].
    auto.
  - intros (-> & Hb & Hc). exists b. split; [reflexivity|].
    apply list_elem_of_In, list_elem_of_filter. auto.
Qed.

Lemma all_pairs_sorted tags (l : list (nat * nat)) :
  StronglySorted before l ->
  NoDup (all_pairs tags l) /\
  forall a b, (a, b) ∈ all_pairs tags l <->
    a ∈ l /\ b ∈ l /\ before a b /\
    all_isclose_positional (tag_at tags a) (tag_at tags b) (1 # 10) = true.
Proof.
  induction 1 as [|x later Hs IH Hall].
  - simpl. split; [constructor|]. intros a b. split; [intros H; inversion H|].
    intros (H & _). inversion H.
  - destruct IH as [IHnd IHin]. rewrite List.Forall_forall in Hall.
    assert (Hx : x ∉ later).
    { intros Hin. apply (before_irrefl x). apply Hall, list_elem_of_In. exact Hin. }
    simpl all_pairs. split.
    + apply NoDup_app. split; [|split; [|exact IHnd]].
      * unfold partners. apply NoDup_fmap_2; [intros y z [= ->]; reflexivity|].
        apply NoDup_filter. apply sorted_NoDup. exact Hs.
      * intros [a b] Hp Hq. apply partners_elem in Hp as (-> & _).
        apply IHin in Hq as (Hq & _). contradiction.
    + intros a b. rewrite elem_of_app, partners_elem, IHin, !elem_of_cons. split.
      * intros [(-> & Hb & Hc) | (Ha & Hb & Hlt & Hc)].
        -- split; [left; reflexivity|]. split; [right; exact Hb|].
           split; [apply Hall, list_elem_of_In; exact Hb | exact Hc].
        -- auto.
      * intros ([-> | Ha] & [-> | Hb] & Hlt & Hc).
        -- exfalso. exact (before_irrefl _ Hlt).
        -- left. auto.
        -- exfalso. apply (before_asym _ _ Hlt). apply Hall, list_elem_of_In. exact Ha.
        -- right. auto.
Qed.

End TagPairs.

Section TagPairsStatement.
Import Numeric Data TagsSpec.

(** X19: exactly which pairs [tags_to_stitches] reports.  A pair of edge
    positions is in the result if and only if both are candidates (inside
    the tensor, with a tag that fails the code's closeness test against
    zero), the first comes before the second in panel-then-edge order, and
    the first tag passes the code's closeness test against the second.  So
    no edge is paired with itself, no pair is listed twice or in both
    orders, and an edge whose tag matches several others is listed once
    with each of them. *)
Theorem tags_to_stitches_pairs (stitch_tags : list (list (list Q))) :
  NoDup (Data.tags_to_stitches stitch_tags) /\
  forall e1 e2,
    (e1, e2) ∈ Data.tags_to_stitches stitch_tags <->
    TagsSpec.candidate stitch_tags e1 /\ TagsSpec.candidate stitch_tags e2 /\
    TagsSpec.before e1 e2 /\
    Data.all_isclose_positional (Data.tag_at stitch_tags e1) (Data.tag_at stitch_tags e2)
      (1 # 10) = true.
Proof.
  unfold tags_to_stitches. cbv zeta.
  set (zero_tag := repeat 0%Q (length (nth 0 (nth 0 stitch_tags []) []))).
  set (keep := fun e : nat * nat =>
                 negb (all_isclose_positional (tag_at stitch_tags e) zero_tag (1 # 100))).
  destruct (all_candidates keep (length (nth 0 stitch_tags [])) (length stitch_tags) 0)
    as [Hs Hin].
  cbv zeta in Hs, Hin. subst keep. cbv beta in Hs, Hin.
  destruct (all_pairs_sorted stitch_tags _ Hs) as [Hnd Hpairs].
  split; [exact Hnd|].
  intros e1 e2. rewrite Hpairs, !Hin. unfold candidate. fold zero_tag.
  rewrite !negb_true_iff. split.
  - intros ((A1 & A2 & A3) & (B1 & B2 & B3) & Hlt & Hc).
    repeat split; try assumption; lia.
  - intros ((A1 & A2 & A3) & (B1 & B2 & B3) & Hlt & Hc).
    repeat split; try assumption; lia.
Qed.

(** Three edges with one tag give three stitches. *)
Lemma tags_to_stitches_triple :
  Data.tags_to_stitches TagsSpec.triple_tags
  = [((0, 0), (0, 1)); ((0, 0), (0, 2)); ((0, 1), (0, 2))].
Proof. vm_compute. reflexivity. Qed.

End TagPairsStatement.

(* ===================================================================== *)
(** ** [_unpad] and the decoder's padding removal                         *)
(* ===================================================================== *)

Section Unpad.
Import Numeric Data PatternConverter.

Lemma not_all_close_zero rtol atol (v : list Q) :
  all_close_zero rtol atol v = false <-> Exists (fun a => (atol < Qabs a)%Q) v.
Proof.
  unfold all_close_zero. induction v as [|a v IH]; simpl.
  - split; [discriminate | intros H; inversion H].
  - rewrite andb_false_iff, IH. split.
    + intros [Ha | Hv]; [|right; exact Hv]. left.
      apply Qnot_le_lt. intros Hle. apply (isclose_zero rtol atol a) in Hle. congruence.
    + intros H. inversion H as [? ? Ha | ? ? Hv]; subst; [|right; exact Hv]. left.
      destruct (isclose rtol atol a 0) eqn:E; [|reflexivity].
      apply isclose_zero in E. exfalso. exact (Qlt_not_le _ _ Ha E).
Qed.

(** X20: what [_unpad] removes.  A row is kept exactly when one of its
    components exceeds the tolerance in absolute value; the rows kept stay
    in their order, and unpadding again removes nothing more.  With the
    tolerance 1.5 that [GarmentPanelDataset._pred_to_pattern] passes, the
    rows kept in a tensor of edge rows are exactly the rows
    [panel_from_numeric] keeps with [padded=True]. *)
Theorem unpad_keeps_rows_with_a_large_component
    (tolerance : Q) (element : list (list Q)) :
  (forall r, r ∈ Data._unpad tolerance element <->
             r ∈ element /\ Exists (fun a => (tolerance < Qabs a)%Q) r) /\
  Data._unpad tolerance element `sublist_of` element /\
  Data._unpad tolerance (Data._unpad tolerance element) = Data._unpad tolerance element /\
  forall edge_sequence : list PatternConverter.edge_row,
    Data._unpad 1.5%Q (map PatternConverter.row_components edge_sequence)
    = map PatternConverter.row_components (PatternConverter.strip_padding edge_sequence).
Proof.
  split; [|split; [|split]].
  - intros r. unfold _unpad. rewrite list_elem_of_filter, not_all_close_zero. tauto.
  - apply sublist_filter.
  - unfold _unpad. apply list_filter_filter_l. auto.
  - intros edge_sequence. unfold _unpad, strip_padding, is_padding.
    induction edge_sequence as [|r rows IH]; [reflexivity|].
    simpl map.
    destruct (decide (all_close_zero default_rtol 1.5 (row_components r) = false))
      as [Hkeep | Hdrop].
    + rewrite !filter_cons_True by exact Hkeep. simpl map. rewrite IH. reflexivity.
    + rewrite !filter_cons_False by exact Hdrop. exact IH.
Qed.

End Unpad.

(* ===================================================================== *)
(** ** Equilibrium detection: snapshots and thresholds                    *)
(* ===================================================================== *)

Section StaticCheck.
Import Numeric MayaScene MayaSpec.

Lemma l1_displacement_same (v : point) : (l1_displacement (v, v) == 0)%Q.
Proof.
  destruct v as [[x y] z]. unfold l1_displacement.
  assert (H : forall a : Q, (Qabs (a - a) == 0)%Q).
  { intros a. assert (E : (a - a == 0)%Q) by ring. rewrite E. reflexivity. }
  rewrite !H. ring.
Qed.

Lemma exceeds_false threshold d : (d <= threshold)%Q -> exceeds threshold d = false.
Proof.
  intros H. unfold exceeds. apply Qle_bool_iff in H. rewrite H. reflexivity.
Qed.

Lemma exceeds_true_iff threshold d : exceeds threshold d = true <-> (threshold < d)%Q.
Proof.
  unfold exceeds. rewrite negb_true_iff. split.
  - intros H. apply Qnot_le_lt. intros Hle. apply Qle_bool_iff in Hle. congruence.
  - intros H. destruct (Qle_bool d threshold) eqn:E; [|reflexivity].
    apply Qle_bool_iff in E. exfalso. exact (Qlt_not_le _ _ H E).
Qed.

Lemma count_exceeding_mono (t t' : Q) (ds : list Q) :
  (t <= t')%Q ->
  length (filter (fun d => exceeds t' d = true) ds)
  <= length (filter (fun d => exceeds t d = true) ds).
Proof.
  intros Ht. induction ds as [|d ds IH]; [reflexivity|].
  rewrite !filter_cons.
  destruct (decide (exceeds t' d = true)) as [H' | H'];
    destruct (decide (exceeds t d = true)) as [H | H]; simpl; try lia.
  exfalso. apply H. apply exceeds_true_iff. apply exceeds_true_iff in H'.
  eapply Qle_lt_trans; eassumption.
Qed.

Lemma none_exceeding (threshold : Q) (verts : list point) :
  (0 <= threshold)%Q ->
  filter (fun d => exceeds threshold d = true) (map l1_displacement (combine verts verts))
  = [].
Proof.
  intros Ht. induction verts as [|v verts IH]; [reflexivity|].
  simpl. rewrite filter_cons_False; [exact IH|].
  rewrite exceeds_false; [discriminate|].
  apply Qle_trans with 0%Q; [|exact Ht].
  apply Qle_lteq. right. apply (l1_displacement_same v).
Qed.

(** X21: a garment that did not move is static.  For a loaded garment and
    a threshold that is not negative, two consecutive snapshots with the
    same vertex positions make [is_static] return [(True, 0)], whatever
    percentage of moving vertices is allowed. *)
Theorem unchanged_snapshot_is_static (threshold allowed_non_static_percent : Q)
    (verts : list MayaScene.point) (g : MayaScene.MayaGarment) :
  MayaScene.loaded_to_maya g = true -> (0 <= threshold)%Q ->
  (g1 ← MayaScene.update_verts_info verts g;
   g2 ← MayaScene.update_verts_info verts g1;
   MayaScene.is_static threshold allowed_non_static_percent g2)
  = Ok (MayaScene.Pair true 0).
Proof.
  intros Hloaded Ht. unfold update_verts_info. rewrite Hloaded. simpl.
  unfold is_static. simpl.
  unfold broadcast_rows. rewrite Nat.eqb_refl. simpl.
  rewrite (none_exceeding threshold verts Ht). reflexivity.
Qed.

(** Two snapshots of the same two vertices. *)
Lemma unchanged_snapshot_is_static_witness :
  (g1 ← MayaScene.update_verts_info [(0, 0, 0); (1, 2, 3)]%Q MayaSpec.loaded_garment;
   g2 ← MayaScene.update_verts_info [(0, 0, 0); (1, 2, 3)]%Q g1;
   MayaScene.is_static (1 # 100) 0 g2)
  = Ok (MayaScene.Pair true 0).
Proof.
  apply (unchanged_snapshot_is_static (1 # 100) 0 [(0, 0, 0); (1, 2, 3)]%Q
           MayaSpec.loaded_garment).
  - reflexivity.
  - discriminate.
Defined.

(** X22: loosening the test never turns a static garment into a moving
    one.  If [is_static] reports the garment static with some threshold
    and allowed percentage, it also reports it static with any larger
    threshold and larger allowed percentage, and the number of moving
    vertices it counts does not grow. *)
Theorem is_static_is_monotone (threshold threshold' percent percent' : Q)
    (g : MayaScene.MayaGarment) (non_static_len : nat) :
  (threshold <= threshold')%Q -> (percent <= percent')%Q ->
  MayaScene.is_static threshold percent g = Ok (MayaScene.Pair true non_static_len) ->
  exists non_static_len',
    non_static_len' <= non_static_len /\
    MayaScene.is_static threshold' percent' g = Ok (MayaScene.Pair true non_static_len').
Proof.
  intros Ht Hp. unfold is_static.
  destruct (negb (loaded_to_maya g)); [discriminate|].
  destruct (last_verts g) as [last|]; [|discriminate].
  destruct (current_verts g) as [cur|]; [|discriminate].
  destruct (broadcast_rows cur last) as [pairs|e]; simpl; [|discriminate].
  set (ds := map l1_displacement pairs).
  pose proof (count_exceeding_mono threshold threshold' ds Ht) as Hmono.
  set (n := length (filter (fun d => exceeds threshold d = true) ds)) in *.
  set (n' := length (filter (fun d => exceeds threshold' d = true) ds)) in *.
  set (len := inject_Z (Z.of_nat (length cur))).
  destruct ((n =? 0) || negb (Qle_bool (len * (1 # 100) * percent) (inject_Z (Z.of_nat n))))
    eqn:Hstatic; [|discriminate].
  intros [= <-]. exists n'. split; [exact Hmono|].
  assert (Hstatic' : (n' =? 0)
                     || negb (Qle_bool (len * (1 # 100) * percent') (inject_Z (Z.of_nat n')))
                     = true).
  { apply orb_true_iff in Hstatic as [Hz | Hlt]; apply orb_true_iff.
    - apply Nat.eqb_eq in Hz. left. apply Nat.eqb_eq. lia.
    - right. apply negb_true_iff. apply negb_true_iff in Hlt.
      destruct (Qle_bool (len * (1 # 100) * percent') (inject_Z (Z.of_nat n'))) eqn:E;
        [|reflexivity].
      apply Qle_bool_iff in E.
      assert (Hle : Qle_bool (len * (1 # 100) * percent) (inject_Z (Z.of_nat n)) = true).
      { apply Qle_bool_iff.
        apply Qle_trans with (len * (1 # 100) * percent')%Q.
        - rewrite !(Qmult_comm (len * (1 # 100))).
          apply Qmult_le_compat_r; [exact Hp|].
          apply Qmult_le_0_compat; [|discriminate].
          subst len. change 0%Q with (inject_Z 0). rewrite <- Zle_Qle. lia.
        - eapply Qle_trans; [exact E|]. rewrite <- Zle_Qle. lia. }
      congruence. }
  rewrite Hstatic'. reflexivity.
Qed.

(** One of two vertices moved by 0.3: static at threshold 0.25 when 60
    percent may move, hence at threshold 1 when 80 percent may. *)
Lemma is_static_is_monotone_witness :
  exists non_static_len',
    non_static_len' <= 1 /\
    MayaScene.is_static 1 80
      {| MayaScene.loaded_to_maya := true;
         MayaScene.last_verts := Some [(0, 0, 0); (1, 2, 3)]%Q;
         MayaScene.current_verts := Some [(0, 0, 0); (1, 2, 33 # 10)]%Q |}
    = Ok (MayaScene.Pair true non_static_len').
Proof.
  apply (is_static_is_monotone (1 # 4) 1 60 80
           {| MayaScene.loaded_to_maya := true;
              MayaScene.last_verts := Some [(0, 0, 0); (1, 2, 3)]%Q;
              MayaScene.current_verts := Some [(0, 0, 0); (1, 2, 33 # 10)]%Q |} 1).
  - discriminate.
  - discriminate.
  - vm_compute. reflexivity.
Defined.

End StaticCheck.

(* ===================================================================== *)
(** ** [SampleToTensor] and [_dict_to_tensors]: what comes out            *)
(* ===================================================================== *)

Section ToTensor.
Import Numeric Data.

Lemma dict_to_tensors_inv d r :
  _dict_to_tensors d = Ok r ->
  map fst r = map fst d /\
  Forall2 (fun kv kt => exists a, snd kt = PTensor a /\
                                  (snd kv = PArray a \/ snd kv = PList a \/ snd kv = PTensor a))
          d r.
Proof.
  unfold _dict_to_tensors. intros Hr. apply rmap_ok_Forall2 in Hr.
  induction Hr as [|[k v] [k' t] d r Hone _ IH].
  - split; [reflexivity | constructor].
  - destruct IH as [IHk IHv].
    assert (Hk : k' = k /\ exists a, t = PTensor a /\
                   (v = PArray a \/ v = PList a \/ v = PTensor a)).
    { destruct v as [|a|a|a|items|items]; simpl in Hone; try discriminate;
        injection Hone as <- <-; (split; [reflexivity|]); exists a; auto. }
    destruct Hk as [-> Ht]. split; [simpl; f_equal; exact IHk|].
    constructor; [exact Ht | exact IHv].
Qed.

Lemma dict_of_tensors_again r :
  Forall (fun kt : string * value => exists a, snd kt = PTensor a) r ->
  _dict_to_tensors r = Ok r.
Proof.
  unfold _dict_to_tensors. induction 1 as [|[k t] r [a Ha] _ IH]; [reflexivity|].
  simpl in Ha. subst t. simpl. rewrite IH. reflexivity.
Qed.

(** X23: what [SampleToTensor] hands on.  When it returns, the name is
    the sample's, the features are a tensor, and a dictionary ground truth
    comes back as a dictionary with the same keys in the same order, every
    value a tensor of the shape of the original array, list or tensor
    (nothing is said about its numbers, which the conversion rounds to
    single precision).  Applied to its own result it always raises
    [TypeError]: [torch.from_numpy] does not accept the tensors it
    produced. *)
Theorem SampleToTensor_result (sample s' : Data.Sample) :
  Data.SampleToTensor sample = Ok s' ->
  Data.name s' = Data.name sample /\
  (exists t, Data.features s' = Data.PTensor t) /\
  (forall d, Data.ground_truth sample = Data.PDict d ->
     exists d',
       Data.ground_truth s' = Data.PDict d' /\ map fst d' = map fst d /\
       Forall2 (fun kv kt => exists a t,
                  snd kt = Data.PTensor t /\ Data.shape t = Data.shape a /\
                  (snd kv = Data.PArray a \/ snd kv = Data.PList a \/
                   snd kv = Data.PTensor a)) d d') /\
  Data.SampleToTensor s' = Raise TypeError.
Proof.
  unfold SampleToTensor. destruct sample as [f gt nm]. cbn [features ground_truth name].
  intros Hrun.
  destruct f as [|fa|fa|fa|fi|fi]; destruct gt as [|a|a|a|items|d];
    simpl in Hrun; try discriminate;
    try (injection Hrun as <-; simpl;
         split; [reflexivity|]; split; [eauto|]; split; [discriminate | reflexivity]).
  all: destruct (_dict_to_tensors d) as [r|e] eqn:Hd; simpl in Hrun; try discriminate.
  all: injection Hrun as <-; cbn [features ground_truth name].
  all: destruct (dict_to_tensors_inv _ _ Hd) as [Hkeys Hvals].
  all: split; [reflexivity|]; split; [eauto|]; split;
    [intros d0 [= <-]; exists r; split; [reflexivity|]; split; [exact Hkeys|];
     eapply Forall2_impl; [exact Hvals|];
     intros kv kt (a & Ha & Hsrc); exists a, a; auto|].
  all: rewrite dict_of_tensors_again; [reflexivity|].
  all: apply Forall_forall; intros kt Hkt.
  all: apply list_elem_of_lookup_1 in Hkt as [i Hi].
  all: destruct (Forall2_lookup_r _ _ _ _ _ Hvals Hi) as (kv & _ & a & Ha & _); eauto.
Qed.

(** The default sample converted once, then once more. *)
Lemma SampleToTensor_result_witness :
  exists s',
    Data.SampleToTensor DataSpec.default_sample = Ok s' /\
    Data.SampleToTensor s' = Raise TypeError.
Proof.
  assert (Hrun : exists s', Data.SampleToTensor DataSpec.default_sample = Ok s').
  { eexists. reflexivity. }
  destruct Hrun as (s' & Hrun). exists s'. split; [exact Hrun|].
  destruct (SampleToTensor_result _ _ Hrun) as (_ & _ & _ & Hagain). exact Hagain.
Defined.

End ToTensor.

(* ===================================================================== *)
(** ** Standardised training features                                     *)
(* ===================================================================== *)

Section ZeroMean.
Import Numeric Data DataTransforms.

Lemma standardized_column shift scale t j m s :
  rectangular t -> length shift = ncols t -> length scale = ncols t ->
  shift !! j = Some m -> scale !! j = Some s ->
  exists t', FeatureStandartization_call shift scale t = Ok t' /\
    column j (rows t') = map (fun x => ((x - m) / s)%Q) (column j (rows t)).
Proof.
  intros Hrect Hsh Hsc Hshj Hscj.
  eexists. split; [apply standardized_rows; assumption|]. simpl.
  unfold column. rewrite !map_map.
  apply map_ext_Forall. eapply Forall_impl; [exact Hrect|]. intros r Hr. simpl in Hr.
  pose proof (lookup_lt_Some _ _ _ Hshj) as Hj.
  destruct (lookup_lt_is_Some_2 r j ltac:(lia)) as [x Hx].
  rewrite (nth_lookup_Some _ _ 0%Q _ Hx).
  apply nth_lookup_Some.
  apply lookup_zip_with_Some. exists (x - m)%Q, s. split; [reflexivity|].
  split; [|exact Hscj].
  apply lookup_zip_with_Some. exists x, m. auto.
Qed.

Lemma Qsum_centered (m s : Q) (l : list Q) :
  (Qsum (map (fun x => (x - m) / s) l)
   == (Qsum l - inject_Z (Z.of_nat (length l)) * m) / s)%Q.
Proof.
  induction l as [|x l IH].
  - unfold Qsum. simpl. unfold Qdiv. ring.
  - simpl map. rewrite !Qsum_cons, IH. simpl length.
    rewrite Nat2Z.inj_succ, <- Z.add_1_r, inject_Z_plus.
    unfold Qdiv. ring.
Qed.

(** X24: features standardised with the statistics of their own batch
    have zero mean.  With the mean and deviation [_get_distribution_stats]
    computes for a non-empty batch (no padding removal), as
    [Garment3DPatternDataset.standardize] and
    [Garment3DPatternFullDataset.standardize] store them for the features,
    [FeatureStandartization] maps the batch to a tensor in which every
    column whose deviation is not zero adds up to zero. *)
Theorem standardized_batch_has_zero_mean `{torch : Data.Torch}
    (input_batch : Data.tensor2) (mean stds : list Q) :
  DataTransforms.rectangular input_batch -> Data.rows input_batch <> [] ->
  Data._get_distribution_stats input_batch false = (mean, stds) ->
  exists standardized,
    DataTransforms.FeatureStandartization_call mean stds input_batch = Ok standardized /\
    Data.ncols standardized = Data.ncols input_batch /\
    forall j s, stds !! j = Some s -> ~ (s == 0)%Q ->
      (Data.Qsum (Data.column j (Data.rows standardized)) == 0)%Q.
Proof.
  intros Hrect Hne Hstats. unfold _get_distribution_stats in Hstats.
  injection Hstats as Hm Hs.
  assert (Hml : length mean = ncols input_batch) by (rewrite <- Hm; apply per_column_length).
  assert (Hsl : length stds = ncols input_batch) by (rewrite <- Hs; apply per_column_length).
  exists {| ncols := ncols input_batch;
            rows := map (fun r => zip_with Qdiv (zip_with Qminus r mean) stds)
                        (rows input_batch) |}.
  split; [apply standardized_rows; assumption|]. split; [reflexivity|].
  intros j s Hsj Hnz.
  pose proof (lookup_lt_Some _ _ _ Hsj) as Hj. rewrite Hsl in Hj.
  assert (Hmj : mean !! j
                = Some (Qsum (column j (rows input_batch))
                        / inject_Z (Z.of_nat (length (rows input_batch))))%Q).
  { rewrite <- Hm. rewrite per_column_lookup by exact Hj. reflexivity. }
  destruct (standardized_column mean stds input_batch j _ s Hrect Hml Hsl Hmj Hsj)
    as (t' & Hrun & Hcol).
  rewrite standardized_rows in Hrun by assumption. injection Hrun as <-.
  rewrite Hcol, Qsum_centered.
  assert (Hlen : length (column j (rows input_batch)) = length (rows input_batch))
    by (unfold column; apply length_map).
  rewrite Hlen.
  assert (Hn : ~ (inject_Z (Z.of_nat (length (rows input_batch))) == 0)%Q).
  { intros E. change 0%Q with (inject_Z 0) in E. apply inject_Z_injective in E.
    destruct (rows input_batch); [congruence | discriminate E]. }
  field. split; assumption.
Qed.

(** Two samples of three features, standardised with their own
    statistics. *)
Lemma standardized_batch_has_zero_mean_witness :
  exists standardized,
    DataTransforms.FeatureStandartization_call
      (fst (@Data._get_distribution_stats DataSpec.toy_torch
              {| Data.ncols := 3; Data.rows := [[1; 2; 3]; [3; 2; 1]]%Q |} false))
      (snd (@Data._get_distribution_stats DataSpec.toy_torch
              {| Data.ncols := 3; Data.rows := [[1; 2; 3]; [3; 2; 1]]%Q |} false))
      {| Data.ncols := 3; Data.rows := [[1; 2; 3]; [3; 2; 1]]%Q |} = Ok standardized /\
    Data.ncols standardized = 3.
Proof.
  destruct (@standardized_batch_has_zero_mean DataSpec.toy_torch
              {| Data.ncols := 3; Data.rows := [[1; 2; 3]; [3; 2; 1]]%Q |}
              (fst (@Data._get_distribution_stats DataSpec.toy_torch
                      {| Data.ncols := 3; Data.rows := [[1; 2; 3]; [3; 2; 1]]%Q |} false))
              (snd (@Data._get_distribution_stats DataSpec.toy_torch
                      {| Data.ncols := 3; Data.rows := [[1; 2; 3]; [3; 2; 1]]%Q |} false)))
    as (standardized & Hrun & Hcols & _).
  - repeat constructor.
  - discriminate.
  - reflexivity.
  - exists standardized. split; [exact Hrun | exact Hcols].
Defined.

End ZeroMean.

(* ===================================================================== *)
(** ** Encoding a pattern and decoding it again: the outlines             *)
(* ===================================================================== *)

Section OutlineRoundtrip.
Import Numeric PatternConverter PatternSpec CodecSpec.







End OutlineRoundtrip.

(* ===================================================================== *)
(** ** [_applyEuler] is a rotation                                        *)
(* ===================================================================== *)

Section ApplyEuler.
Import Numeric MayaScene MayaRotation.

Lemma plane_rotation (a b c s : Q) :
  (c * c + s * s == 1)%Q ->
  ((a * c - b * s) * (a * c - b * s) + (a * s + b * c) * (a * s + b * c)
   == a * a + b * b)%Q.
Proof.
  intros H.
  assert (E : ((a * c - b * s) * (a * c - b * s) + (a * s + b * c) * (a * s + b * c)
               == (a * a + b * b) * (c * c + s * s))%Q) by ring.
  rewrite E, H. ring.
Qed.

(** X26: [_applyEuler] keeps the length of the vector.  Whenever the
    cosine and sine used for each of the three angles lie on the unit
    circle, the rotated vector has the squared length of the given one;
    and for angles whose cosine is 1 and sine 0 the vector comes back
    unchanged. *)
Theorem applyEuler_preserves_length `{trig : MayaRotation.Trig}
    (vector eulerRot : MayaScene.point) :
  MayaRotation.on_unit_circle (fst (fst eulerRot)) ->
  MayaRotation.on_unit_circle (snd (fst eulerRot)) ->
  MayaRotation.on_unit_circle (snd eulerRot) ->
  (MayaRotation.squared_length (MayaRotation._applyEuler vector eulerRot)
   == MayaRotation.squared_length vector)%Q /\
  ((forall a, a = fst (fst eulerRot) \/ a = snd (fst eulerRot) \/ a = snd eulerRot ->
      (MayaRotation.cos_deg a == 1)%Q /\ (MayaRotation.sin_deg a == 0)%Q) ->
   let r := MayaRotation._applyEuler vector eulerRot in
   (fst (fst r) == fst (fst vector))%Q /\ (snd (fst r) == snd (fst vector))%Q /\
   (snd r == snd vector)%Q).
Proof.
  destruct vector as [[v0 v1] v2], eulerRot as [[r0 r1] r2]. cbn [fst snd].
  unfold on_unit_circle. intros H0 H1 H2. split.
  - unfold _applyEuler, squared_length.
    set (x1 := (v1 * cos_deg r0 - v2 * sin_deg r0)%Q).
    set (x2 := (v1 * sin_deg r0 + v2 * cos_deg r0)%Q).
    set (y0 := (v0 * cos_deg r1 + x2 * sin_deg r1)%Q).
    set (y2 := (- v0 * sin_deg r1 + x2 * cos_deg r1)%Q).
    assert (Ez : ((y0 * cos_deg r2 - x1 * sin_deg r2) * (y0 * cos_deg r2 - x1 * sin_deg r2)
                  + (y0 * sin_deg r2 + x1 * cos_deg r2) * (y0 * sin_deg r2 + x1 * cos_deg r2)
                  == y0 * y0 + x1 * x1)%Q) by (apply plane_rotation; exact H2).
    assert (Ey : (y0 * y0 + y2 * y2 == v0 * v0 + x2 * x2)%Q).
    { subst y0 y2.
      assert (E : ((v0 * cos_deg r1 + x2 * sin_deg r1) * (v0 * cos_deg r1 + x2 * sin_deg r1)
                   + (- v0 * sin_deg r1 + x2 * cos_deg r1) * (- v0 * sin_deg r1 + x2 * cos_deg r1)
                   == (v0 * v0 + x2 * x2) * (cos_deg r1 * cos_deg r1 + sin_deg r1 * sin_deg r1))%Q)
        by ring.
      rewrite E, H1. ring. }
    assert (Ex : (x1 * x1 + x2 * x2 == v1 * v1 + v2 * v2)%Q)
      by (apply plane_rotation; exact H0).
    rewrite Ez.
    assert (E1 : (y0 * y0 + x1 * x1 + y2 * y2 == (y0 * y0 + y2 * y2) + x1 * x1)%Q) by ring.
    rewrite E1, Ey.
    assert (E2 : (v0 * v0 + x2 * x2 + x1 * x1 == v0 * v0 + (x1 * x1 + x2 * x2))%Q) by ring.
    rewrite E2, Ex. ring.
  - intros Hid. cbv zeta. unfold _applyEuler. cbn [fst snd].
    destruct (Hid r0 ltac:(auto)) as [C0 S0].
    destruct (Hid r1 ltac:(auto)) as [C1 S1].
    destruct (Hid r2 ltac:(auto)) as [C2 S2].
    rewrite C0, S0, C1, S1, C2, S2. repeat split; ring.
Qed.

(** A quarter turn about Z takes the unit vector along X to the one
    along Y. *)
Lemma applyEuler_preserves_length_witness :
  (MayaRotation.squared_length
     (@MayaRotation._applyEuler MayaRotation.quarter_turns (1, 0, 0)%Q (0, 0, 90)%Q) == 1)%Q /\
  (snd (fst (@MayaRotation._applyEuler MayaRotation.quarter_turns (1, 0, 0)%Q (0, 0, 90)%Q))
   == 1)%Q.
Proof.
  split; [|reflexivity].
  destruct (@applyEuler_preserves_length MayaRotation.quarter_turns (1, 0, 0)%Q (0, 0, 90)%Q)
    as [Hlen _].
  - reflexivity.
  - reflexivity.
  - reflexivity.
  - rewrite Hlen. reflexivity.
Defined.

End ApplyEuler.

(* ===================================================================== *)
(** ** Decoder: placement lists shorter than the panel tensor             *)
(* ===================================================================== *)

Section ShortPlacement.
Import Numeric PatternConverter PatternSpec CodecSpec.







End ShortPlacement.

(* ===================================================================== *)
(** ** Decoder: padding columns of the stitch array                       *)
(* ===================================================================== *)

Section PaddingStitches.
Import Numeric PatternConverter PatternSpec CodecSpec.

Lemma decode_side_zero epp (order : list string) s :
  decode_side epp order 0 = Ok s ->
  exists first, head order = Some first /\
                s = {| side_panel := first; side_edge := 0 |}.
Proof.
  unfold decode_side. cbv zeta.
  rewrite Zdiv_0_l, Zmod_0_l.
  destruct order as [|first order].
  - simpl. discriminate.
  - destruct (_ >? _)%Z; [discriminate|].
    change (py_getitem (first :: order) 0) with (py_getitem (first :: order) (Z.of_nat 0)).
    rewrite (py_getitem_nat (first :: order) 0 first eq_refl). simpl.
    intros [= <-]. eauto.
Qed.

(** X28: padding columns of the stitch array come back as stitches.
    When padded [pattern_from_tensors] returns, every all-zero column of
    the stitch array has produced a stitch that joins edge 0 of the first
    decoded panel to itself; columns are not filtered, so a pattern encoded
    with more stitch columns than stitches gains one such stitch per spare
    column. *)
Theorem padding_columns_become_self_stitches `{ext : PatternConverter.External}
    (rep : PatternConverter.tensor3) (rots transls : option (list (list Q)))
    (cols : list (Z * Z)) (padded : bool)
    (pat pat' : PatternConverter.pattern) (log : list PatternConverter.message) (j : nat) :
  PatternConverter.pattern_from_tensors rep rots transls (Some cols) padded pat
  = Ok (pat', log) ->
  cols !! j = Some (0, 0)%Z ->
  exists first,
    head (PatternConverter.panel_order pat') = Some first /\
    is_Some (PatternConverter.panels pat' !! first) /\
    PatternConverter.stitches pat' !! j
    = Some ({| PatternConverter.side_panel := first; PatternConverter.side_edge := 0 |},
            {| PatternConverter.side_panel := first; PatternConverter.side_edge := 0 |}).
Proof.
  intros Hrun Hj.
  destruct (pattern_from_tensors_stitches _ _ _ _ _ _ _ _ Hrun) as [-> Hsts].
  destruct (pattern_from_tensors_ok _ _ _ _ _ _ _ Hrun) as [Horder Hdom].
  destruct (rmap_ok_lookup _ _ _ _ _ Hsts Hj) as ([s0 s1] & Hdec & Hst).
  apply decode_stitch_inv in Hdec as [H0 H1]. cbn [fst snd] in H0, H1.
  apply decode_side_zero in H0 as (first & Hfirst & ->).
  apply decode_side_zero in H1 as (first' & Hfirst' & ->).
  rewrite Hfirst in Hfirst'. injection Hfirst' as <-.
  exists first. split; [exact Hfirst|]. split; [|exact Hst].
  apply Hdom. rewrite <- Horder.
  destruct (panel_order pat') as [|x order]; [discriminate|].
  injection Hfirst as ->. constructor.
Qed.

(** Two rectangles with one real stitch column and one padding column. *)
Lemma padding_columns_become_self_stitches_witness :
  exists pat' log,
    @PatternConverter.pattern_from_tensors PatternSpec.no_placement
      CodecSpec.two_boxes None None (Some [(3, 6); (0, 0)]%Z) true
      PatternSpec.two_panel_pattern = Ok (pat', log) /\
    PatternConverter.stitches pat' !! 1
    = Some ({| PatternConverter.side_panel := "panel_0"%string;
               PatternConverter.side_edge := 0 |},
            {| PatternConverter.side_panel := "panel_0"%string;
               PatternConverter.side_edge := 0 |}).
Proof.
  assert (Hrun : exists pat' log,
    @PatternConverter.pattern_from_tensors PatternSpec.no_placement
      CodecSpec.two_boxes None None (Some [(3, 6); (0, 0)]%Z) true
      PatternSpec.two_panel_pattern = Ok (pat', log)).
  { eexists. eexists. vm_compute. reflexivity. }
  destruct Hrun as (pat' & log & Hrun). exists pat', log. split; [exact Hrun|].
  destruct (padding_columns_become_self_stitches _ _ _ _ _ _ _ _ 1 Hrun eq_refl)
    as (first & Hfirst & _ & Hst).
  rewrite Hst.
  assert (Hname : first = "panel_0"%string).
  { revert Hfirst. vm_compute in Hrun. injection Hrun as <- _. simpl.
    intros [= <-]. reflexivity. }
  rewrite Hname. reflexivity.
Defined.

End PaddingStitches.

(* ===================================================================== *)
(** ** Decoder: which exceptions leave padded decoding                    *)
(* ===================================================================== *)

Section DecoderErrors.
Import Numeric PatternConverter PatternSpec CodecSpec.

Lemma rmap_raise_inv {A B} (f : A -> result B) (l : list A) (e : error) :
  rmap f l = Raise e -> exists x, x ∈ l /\ f x = Raise e.
Proof.
  induction l as [|x l IH]; simpl; [discriminate|].
  destruct (f x) as [y|e0] eqn:Hx; simpl.
  - destruct (rmap f l) as [ys|e1]; simpl; [discriminate|].
    intros [= ->]. destruct (IH eq_refl) as (z & Hz & Hfz).
    exists z. split; [constructor; exact Hz | exact Hfz].
  - intros [= ->]. exists x. split; [constructor | exact Hx].
Qed.

Lemma py_getitem_raise_inv {A} (l : list A) (i : Z) (e : error) :
  py_getitem l i = Raise e -> e = IndexError.
Proof.
  unfold py_getitem. cbv zeta.
  destruct (_ || _)%bool; [intros [= <-]; reflexivity|].
  destruct (l !! _); [discriminate | intros [= <-]; reflexivity].
Qed.

Lemma decode_side_raise_inv epp (order : list string) id e :
  decode_side epp order id = Raise e ->
  (e = InvalidPatternDefError /\
   (Z.of_nat (length order) - 1 < id / Z.of_nat epp)%Z) \/
  (e = IndexError /\ (id / Z.of_nat epp < 0)%Z).
Proof.
  unfold decode_side. cbv zeta.
  destruct (Z.gtb_spec (id / Z.of_nat epp) (Z.of_nat (length order) - 1)) as [Hgt | Hle].
  - intros [= <-]. left. split; [reflexivity | lia].
  - destruct (py_getitem order (id / Z.of_nat epp)) as [nm|e0] eqn:Hget; simpl;
      [discriminate|].
    intros [= <-]. right. split; [eapply py_getitem_raise_inv; exact Hget|].
    destruct (Z.ltb_spec (id / Z.of_nat epp) 0) as [Hneg | Hpos]; [exact Hneg|].
    exfalso.
    destruct (lookup_lt_is_Some_2 order (Z.to_nat (id / Z.of_nat epp)) ltac:(lia))
      as [nm Hnm].
    rewrite <- (Z2Nat.id (id / Z.of_nat epp)) in Hget by exact Hpos.
    rewrite (py_getitem_nat _ _ _ Hnm) in Hget. discriminate.
Qed.

Lemma decode_slots_raise_inv `{ext : External} rep :
  forall idx rots transls pat in_order log e,
    decode_slots idx rep rots transls true pat in_order log = Raise e -> e = IndexError.
Proof.
  induction rep as [|slot rest IH]; intros idx rots transls pat in_order log e.
  - discriminate.
  - rewrite decode_slots_step.
    destruct (attempt_cases idx slot rots transls pat)
      as [-> | [[_ ->] | [_ (pnl & msgs & ->)]]].
    + intros [= <-]. reflexivity.
    + apply IH.
    + apply IH.
Qed.

(** X29: the only exceptions padded [pattern_from_tensors] raises are
    [IndexError] and [InvalidPatternDefError].  [InvalidPatternDefError]
    means that some entry of the stitch array, divided by the edge
    dimension, exceeds the index of the last decoded panel; [IndexError]
    is the only other exception (a placement list that is too short, a
    negative stitch entry); in particular no [RuntimeError] and no
    [EmptyPanelError] leaves the function. *)
Theorem padded_decoding_raises_only_index_or_definition_errors
    `{ext : PatternConverter.External}
    (rep : PatternConverter.tensor3) (rots transls : option (list (list Q)))
    (st : option (list (Z * Z))) (pat : PatternConverter.pattern) (e : error) :
  PatternConverter.pattern_from_tensors rep rots transls st true pat = Raise e ->
  e = IndexError \/
  (e = InvalidPatternDefError /\
   exists cols col id,
     st = Some cols /\ col ∈ cols /\ (id = fst col \/ id = snd col) /\
     (Z.of_nat (length (PatternSpec.surviving 0 (PatternConverter.slots rep))) - 1
      < id / Z.of_nat (PatternConverter.dim1 rep))%Z).
Proof.
  unfold pattern_from_tensors. cbv zeta.
  destruct (decode_slots 0 (slots rep) rots transls true _ [] [])
    as [[[pat1 order1] log1] | e0] eqn:Hslots; simpl.
  - apply decode_slots_ok in Hslots as [Horder _]. simpl in Horder.
    destruct st as [cols|]; simpl; [|discriminate].
    destruct (rmap (decode_stitch (dim1 rep) order1) cols) as [sts|e1] eqn:Hsts; simpl;
      [discriminate|].
    intros [= <-].
    apply rmap_raise_inv in Hsts as (col & Hcol & Hdec).
    unfold decode_stitch in Hdec.
    destruct (decode_side (dim1 rep) order1 (fst col)) as [s0|e0] eqn:H0; simpl in Hdec.
    + destruct (decode_side (dim1 rep) order1 (snd col)) as [s1|e2] eqn:H1; simpl in Hdec;
        [discriminate|].
      injection Hdec as <-.
      apply decode_side_raise_inv in H1 as [[-> Hbig] | [-> _]]; [|left; reflexivity].
      right. split; [reflexivity|]. exists cols, col, (snd col).
      rewrite <- Horder. auto.
    + injection Hdec as <-.
      apply decode_side_raise_inv in H0 as [[-> Hbig] | [-> _]]; [|left; reflexivity].
      right. split; [reflexivity|]. exists cols, col, (fst col).
      rewrite <- Horder. auto.
  - intros [= <-]. left. eapply decode_slots_raise_inv. exact Hslots.
Qed.

(** Two decoded panels and a stitch entry that points at a third. *)
Lemma padded_decoding_raises_only_index_or_definition_errors_witness :
  @PatternConverter.pattern_from_tensors PatternSpec.no_placement
    CodecSpec.two_boxes None None (Some [(3, 9)]%Z) true PatternSpec.two_panel_pattern
  = Raise InvalidPatternDefError /\
  (InvalidPatternDefError = IndexError \/
   (InvalidPatternDefError = InvalidPatternDefError /\
    exists cols col id,
      Some [(3, 9)]%Z = Some cols /\ col ∈ cols /\ (id = fst col \/ id = snd col) /\
      (Z.of_nat (length (PatternSpec.surviving 0
                           (PatternConverter.slots CodecSpec.two_boxes))) - 1
       < id / Z.of_nat (PatternConverter.dim1 CodecSpec.two_boxes))%Z)).
Proof.
  split; [vm_compute; reflexivity|].
  apply (@padded_decoding_raises_only_index_or_definition_errors PatternSpec.no_placement
           CodecSpec.two_boxes None None (Some [(3, 9)]%Z) PatternSpec.two_panel_pattern).
  vm_compute. reflexivity.
Defined.

End DecoderErrors.
